(** * Revolution Idle Zodiac Calculator: a shallow embedding of
      [zodiac_calculator.py] and the properties of its formulas.

    Numbers.  A Python [float] is modelled as a real number: the four
    arithmetic operations are exact (rounding and the silent infinities of
    IEEE arithmetic are left out), and a float is finite when its magnitude
    is at most [float_max].  The integer literals of the source (0, 1, 2,
    15, ...) only ever meet floats and are the floats of the same value.
    What is kept of the floating-point behaviour is what the source reacts
    to: [**] raises OverflowError when the power leaves the float range and
    ZeroDivisionError on zero to a negative power, [math.log10] raises
    ValueError outside its domain, and [**] of a negative base to a
    fractional exponent yields a [complex].

    Range.  A sum or product beyond [float_max] is an infinity in Python
    and a power below the smallest positive float is 0.0; here both stay
    the real numbers they are.  The model therefore speaks for the program
    only while such values stay in range, and a property whose conclusion
    depends on it carries the range as a hypothesis: the Immortal product
    [300 * 1.1 ** (L - 20)] at most [float_max] for the weights, inputs of
    moderate size ([moderate_inputs]) for the score and the sale price. *)

From Stdlib Require Import Reals Lra Lia List String ZArith Bool.
Import ListNotations.
Open Scope R_scope.

(** ** Python values and exceptions *)

Inductive pyval : Type :=
| PyFloat (x : R)
| PyComplex (re im : R).

Inductive exn : Type :=
| ValueError
| OverflowError
| ZeroDivisionError
| TypeError
| AssertionError.

Inductive result (A : Type) : Type :=
| Ok (a : A)
| Raise (e : exn).
Arguments Ok {A} a.
Arguments Raise {A} e.

Definition bind {A B : Type} (m : result A) (k : A -> result B) : result B :=
  match m with
  | Ok a => k a
  | Raise e => Raise e
  end.

Notation "x <- m ;; k" := (bind m (fun x => k))
  (at level 61, m at next level, right associativity).

(** [try: m except (ValueError, OverflowError): h]; any other exception
    goes on to the caller. *)
Definition try_except {A : Type} (m : result A) (h : result A) : result A :=
  match m with
  | Ok a => Ok a
  | Raise ValueError => h
  | Raise OverflowError => h
  | Raise e => Raise e
  end.

(** Comparisons of floats, as booleans. *)
Definition Rltb (x y : R) : bool := if Rlt_dec x y then true else false.
Definition Rleb (x y : R) : bool := if Rle_dec x y then true else false.
Definition Reqb (x y : R) : bool := if Req_dec_T x y then true else false.

(** The largest finite double, (2 - 2^-52) * 2^1023. *)
Definition float_max : R := (2 - / 2 ^ 52) * 2 ^ 1023.

Definition finite_float (x : R) : Prop := Rabs x <= float_max.

(** ** Arithmetic on Python numbers

    [float op float] is a float; as soon as one operand is complex the other
    is promoted and the operation is the complex one. *)

Definition re_of (v : pyval) : R :=
  match v with PyFloat x => x | PyComplex re _ => re end.
Definition im_of (v : pyval) : R :=
  match v with PyFloat _ => 0 | PyComplex _ im => im end.

Definition py_add (a b : pyval) : pyval :=
  match a, b with
  | PyFloat x, PyFloat y => PyFloat (x + y)
  | _, _ => PyComplex (re_of a + re_of b) (im_of a + im_of b)
  end.

Definition py_sub (a b : pyval) : pyval :=
  match a, b with
  | PyFloat x, PyFloat y => PyFloat (x - y)
  | _, _ => PyComplex (re_of a - re_of b) (im_of a - im_of b)
  end.

Definition py_mul (a b : pyval) : pyval :=
  match a, b with
  | PyFloat x, PyFloat y => PyFloat (x * y)
  | _, _ => PyComplex (re_of a * re_of b - im_of a * im_of b)
                      (re_of a * im_of b + im_of a * re_of b)
  end.

Definition py_div (a b : pyval) : result pyval :=
  match a, b with
  | PyFloat x, PyFloat y =>
      if Reqb y 0 then Raise ZeroDivisionError else Ok (PyFloat (x / y))
  | _, _ =>
      let d := re_of b * re_of b + im_of b * im_of b in
      if Reqb d 0 then Raise ZeroDivisionError
      else Ok (PyComplex ((re_of a * re_of b + im_of a * im_of b) / d)
                         ((im_of a * re_of b - re_of a * im_of b) / d))
  end.

(** [a == 0] *)
Definition py_is_zero (a : pyval) : bool :=
  Reqb (re_of a) 0 && Reqb (im_of a) 0.

(** [max(0, a)]: the builtin keeps 0 unless [a > 0]; ordering a complex
    number is a TypeError. *)
Definition py_max0 (a : pyval) : result pyval :=
  match a with
  | PyFloat x => Ok (PyFloat (if Rltb 0 x then x else 0))
  | PyComplex _ _ => Raise TypeError
  end.

(** ** [math.log10] and the power operator *)

Definition math_log10 (x : R) : result R :=
  if Rleb x 0 then Raise ValueError else Ok (ln x / ln 10).

(** The C library's [pow] on a positive base, as CPython calls it: a result
    out of the double range is reported (ERANGE) and becomes OverflowError;
    an underflow is not an error (Python then has 0.0, this model the
    positive real). *)
Definition libm_pow (x y : R) : result R :=
  if Rltb float_max (Rpower x y) then Raise OverflowError
  else Ok (Rpower x y).

Definition is_integer (y : R) : bool := Reqb (IZR (Int_part y)) y.

(** Two-argument arctangent, the argument of the complex number
    [re + im*j]. *)
Definition atan2 (im re : R) : R :=
  if Rltb 0 im then PI / 2 - atan (re / im)
  else if Rltb im 0 then - (PI / 2) - atan (re / im)
  else if Rltb re 0 then PI else 0.

(** The complex power in polar form (CPython's complex_pow over
    _Py_c_pow), reached from [**] when an operand is complex or a negative
    float is raised to a fractional exponent.  An overflow of the modulus
    is OverflowError, zero to a negative or complex power is
    ZeroDivisionError.  (CPython multiplies out small integer exponents
    instead; the value is the same.) *)
Definition complex_pow (a b : pyval) : result pyval :=
  if Reqb (re_of b) 0 && Reqb (im_of b) 0 then Ok (PyComplex 1 0)
  else if Reqb (re_of a) 0 && Reqb (im_of a) 0 then
    if negb (Reqb (im_of b) 0) || Rltb (re_of b) 0
    then Raise ZeroDivisionError else Ok (PyComplex 0 0)
  else
    let vabs := sqrt (re_of a * re_of a + im_of a * im_of a) in
    len0 <- libm_pow vabs (re_of b) ;;
    let at2 := atan2 (im_of a) (re_of a) in
    let phase0 := at2 * re_of b in
    let len := if Reqb (im_of b) 0 then len0
               else len0 / exp (at2 * im_of b) in
    let phase := if Reqb (im_of b) 0 then phase0
                 else phase0 + im_of b * ln vabs in
    Ok (PyComplex (len * cos phase) (len * sin phase)).

(** [x ** y] on floats (CPython's float_pow): anything to the power 0 is 1;
    zero to a negative power is ZeroDivisionError; a negative base with a
    fractional exponent is handed to the complex power; a negative base
    with an integer exponent takes the sign from the exponent's parity. *)
Definition float_pow (x y : R) : result pyval :=
  if Reqb y 0 then Ok (PyFloat 1)
  else if Reqb x 0 then
    if Rltb y 0 then Raise ZeroDivisionError else Ok (PyFloat 0)
  else if Rltb x 0 then
    if is_integer y then
      r <- libm_pow (- x) y ;;
      Ok (PyFloat (if Z.odd (Int_part y) then - r else r))
    else complex_pow (PyFloat x) (PyFloat y)
  else
    r <- libm_pow x y ;; Ok (PyFloat r).

(** [a ** b] *)
Definition py_pow (a b : pyval) : result pyval :=
  match a, b with
  | PyFloat x, PyFloat y => float_pow x y
  | _, _ => complex_pow a b
  end.

(** ** The calculator object *)

Record ZodiacCalculator : Type := mkCalc {
  zodiac_rarity : option R;
  zodiac_quality : option R;
  zodiac_level : option R;
  luck : option R;
  immo_number : option R
}.

(** [__init__]: every input starts absent. *)
Definition init : ZodiacCalculator := mkCalc None None None None None.

Inductive field : Type :=
| f_zodiac_rarity | f_zodiac_quality | f_zodiac_level | f_luck | f_immo_number.

Definition getattr (self : ZodiacCalculator) (f : field) : option R :=
  match f with
  | f_zodiac_rarity => zodiac_rarity self
  | f_zodiac_quality => zodiac_quality self
  | f_zodiac_level => zodiac_level self
  | f_luck => luck self
  | f_immo_number => immo_number self
  end.

Fixpoint _has_required_inputs (self : ZodiacCalculator)
    (required_fields : list field) : bool :=
  match required_fields with
  | [] => true
  | f :: rest =>
      match getattr self f with
      | None => false
      | Some _ => _has_required_inputs self rest
      end
  end.

(** [assert x is not None] *)
Definition assert_present (o : option R) : result R :=
  match o with
  | Some x => Ok x
  | None => Raise AssertionError
  end.

(** A handler that returns None. *)
Definition unavailable : result (option pyval) := Ok None.

Definition calculate_zodiac_sale_price (self : ZodiacCalculator)
    : result (option pyval) :=
  if negb (_has_required_inputs self
             [f_zodiac_rarity; f_zodiac_quality; f_zodiac_level])
  then Ok None
  else
    r <- assert_present (zodiac_rarity self) ;;
    q <- assert_present (zodiac_quality self) ;;
    l <- assert_present (zodiac_level self) ;;
    try_except
      (let rarity_mult := PyFloat (if Rltb 8 r then 2 else 1) in
       level_mult <-
         (if Rleb 100 l
          then py_pow (PyFloat ((l - 90) / 10)) (PyFloat 2.5)
          else Ok (PyFloat 1)) ;;
       p <- py_pow (PyFloat 1.125) (PyFloat r) ;;
       l2 <- py_pow (PyFloat l) (PyFloat 2) ;;
       base_calc <-
         py_div (py_mul (py_mul (py_mul (py_mul p (PyFloat q))
                                        (py_add (PyFloat 9) l2))
                                rarity_mult)
                        level_mult)
                (PyFloat 10) ;;
       a <- py_pow base_calc (PyFloat 0.75) ;;
       b <- py_pow (PyFloat 1.1) (PyFloat r) ;;
       Ok (Some (py_mul a b)))
      unavailable.

Definition calculate_zodiac_enhance_price (self : ZodiacCalculator)
    : result (option pyval) :=
  sc <- calculate_zodiac_sale_price self ;;
  match sc with
  | None => Ok None
  | Some sell_cost =>
      if negb (_has_required_inputs self [f_zodiac_quality]) then Ok None
      else
        q <- assert_present (zodiac_quality self) ;;
        try_except
          (lg <- math_log10 (1 + q) ;;
           p <- py_pow (PyFloat 1.3) (PyFloat lg) ;;
           Ok (Some (py_mul (py_mul sell_cost (PyFloat 2)) p)))
          unavailable
  end.

Definition calculate_zodiac_enhance_chance (self : ZodiacCalculator)
    : result (option pyval) :=
  if negb (_has_required_inputs self [f_zodiac_quality]) then Ok None
  else
    q <- assert_present (zodiac_quality self) ;;
    try_except
      (lg <- math_log10 (1 + q) ;;
       sq <- py_pow (PyFloat lg) (PyFloat 2) ;;
       p <- py_pow (PyFloat 0.9) sq ;;
       Ok (Some (py_mul p (PyFloat 100))))
      unavailable.

Definition calculate_zodiac_score (self : ZodiacCalculator)
    : result (option pyval) :=
  if negb (_has_required_inputs self
             [f_zodiac_rarity; f_zodiac_quality; f_zodiac_level])
  then Ok None
  else
    r <- assert_present (zodiac_rarity self) ;;
    q <- assert_present (zodiac_quality self) ;;
    l <- assert_present (zodiac_level self) ;;
    try_except
      (let rarity_mult := PyFloat (if Rltb 8 r then 2 else 1) in
       level_mult <-
         (if Rleb 100 l
          then py_pow (PyFloat ((l - 90) / 10)) (PyFloat 2.5)
          else Ok (PyFloat 1)) ;;
       p <- py_pow (PyFloat 1.125) (PyFloat r) ;;
       l2 <- py_pow (PyFloat l) (PyFloat 2) ;;
       Ok (Some (py_mul (py_mul (py_mul (py_mul p (PyFloat q))
                                        (py_add (PyFloat 9) l2))
                                rarity_mult)
                        level_mult)))
      unavailable.

Definition calculate_zodiac_luck (self : ZodiacCalculator)
    : result (option pyval) :=
  if negb (_has_required_inputs self [f_luck]) then Ok None
  else
    lk <- assert_present (luck self) ;;
    try_except
      (if Rltb lk 18 then Ok (Some (PyFloat lk))
       else
         p <- py_pow (PyFloat (lk - 18)) (PyFloat 0.3) ;;
         Ok (Some (py_mul p (PyFloat 18))))
      unavailable.

(** ** The rarity model *)

(** A Python dict of weights: keys in insertion order. *)
Definition dict : Type := list (string * pyval).

Fixpoint dict_set (d : dict) (k : string) (v : pyval) : dict :=
  match d with
  | [] => [(k, v)]
  | (k', v') :: rest =>
      if String.eqb k' k then (k', v) :: rest
      else (k', v') :: dict_set rest k v
  end.

Fixpoint dict_get (d : dict) (k : string) : option pyval :=
  match d with
  | [] => None
  | (k', v') :: rest => if String.eqb k' k then Some v' else dict_get rest k
  end.

(** The chained comparison [a <= x < b]. *)
Definition between (a x b : R) : bool := Rleb a x && Rltb x b.

(** [base ** (zodiac_luck - offset)]: a literal base raised to the luck
    minus a literal offset. *)
Definition pw (base zodiac_luck offset : R) : result pyval :=
  py_pow (PyFloat base) (PyFloat (zodiac_luck - offset)).

(** [max(0, a * (base ** (zodiac_luck - offset)) - c)] *)
Definition floored (a base zodiac_luck offset c : R) : result pyval :=
  p <- pw base zodiac_luck offset ;;
  py_max0 (py_sub (py_mul (PyFloat a) p) (PyFloat c)).

Definition garbage_weight (zodiac_luck : R) : result pyval :=
  if between 1 zodiac_luck 2 then
    p <- pw 0.8 zodiac_luck 1 ;; Ok (py_mul (PyFloat 5) p)
  else if between 2 zodiac_luck 3 then
    p <- pw 0.8 zodiac_luck 1 ;;
    d <- pw 0.4 zodiac_luck 2 ;;
    Ok (py_mul (py_mul (PyFloat 5) p) d)
  else Ok (PyFloat 0).

Definition common_weight (zodiac_luck : R) : result pyval :=
  if between 1 zodiac_luck 2 then Ok (PyFloat 15)
  else if between 2 zodiac_luck 5 then
    d <- pw 0.45 zodiac_luck 2 ;; Ok (py_mul (PyFloat 15) d)
  else Ok (PyFloat 0).

Definition uncommon_weight (zodiac_luck : R) : result pyval :=
  if between 1 zodiac_luck 3 then
    p <- pw 1.5 zodiac_luck 1 ;;
    Ok (py_sub (py_mul (PyFloat 20) p) (PyFloat 12))
  else if between 3 zodiac_luck 8 then
    p <- pw 1.5 zodiac_luck 1 ;;
    d <- pw 0.5 zodiac_luck 3 ;;
    Ok (py_mul (py_sub (py_mul (PyFloat 20) p) (PyFloat 12)) d)
  else Ok (PyFloat 0).

Definition rare_weight (zodiac_luck : R) : result pyval :=
  if between 1 zodiac_luck 5 then
    p <- pw 1.45 zodiac_luck 1 ;;
    Ok (py_sub (py_mul (PyFloat 30) p) (PyFloat 28))
  else if between 5 zodiac_luck 12 then
    p <- pw 1.45 zodiac_luck 1 ;;
    d <- pw 0.55 zodiac_luck 5 ;;
    Ok (py_mul (py_sub (py_mul (PyFloat 30) p) (PyFloat 28)) d)
  else Ok (PyFloat 0).

Definition epic_weight (zodiac_luck : R) : result pyval :=
  if between 1 zodiac_luck 8 then floored 45 1.4 zodiac_luck 2 50
  else if between 8 zodiac_luck 20 then
    m <- floored 45 1.4 zodiac_luck 2 50 ;;
    d <- pw 0.6 zodiac_luck 8 ;;
    Ok (py_mul m d)
  else Ok (PyFloat 0).

Definition legendary_weight (zodiac_luck : R) : result pyval :=
  if between 1 zodiac_luck 12 then floored 80 1.36 zodiac_luck 3 100
  else if between 12 zodiac_luck 30 then
    m <- floored 80 1.36 zodiac_luck 3 100 ;;
    d <- pw 0.64 zodiac_luck 12 ;;
    Ok (py_mul m d)
  else Ok (PyFloat 0).

Definition mythic_weight (zodiac_luck : R) : result pyval :=
  if between 1 zodiac_luck 20 then floored 120 1.3 zodiac_luck 5 140
  else if between 20 zodiac_luck 50 then
    m <- floored 120 1.3 zodiac_luck 5 140 ;;
    d <- pw 0.67 zodiac_luck 20 ;;
    Ok (py_mul m d)
  else Ok (PyFloat 0).

Definition godly_weight (zodiac_luck : R) : result pyval :=
  if between 1 zodiac_luck 30 then floored 150 1.25 zodiac_luck 8 200
  else if between 30 zodiac_luck 60 then
    m <- floored 150 1.25 zodiac_luck 8 200 ;;
    d <- pw 0.7 zodiac_luck 30 ;;
    Ok (py_mul m d)
  else Ok (PyFloat 0).

Definition divine_weight (zodiac_luck : R) : result pyval :=
  if between 1 zodiac_luck 40 then floored 200 1.2 zodiac_luck 12 300
  else if between 40 zodiac_luck 50 then
    m <- floored 200 1.2 zodiac_luck 12 300 ;;
    d <- pw 0.92 zodiac_luck 40 ;;
    Ok (py_mul m d)
  else if between 50 zodiac_luck 70 then
    m <- floored 200 1.2 zodiac_luck 12 300 ;;
    d1 <- pw 0.92 zodiac_luck 40 ;;
    d2 <- pw 0.75 zodiac_luck 50 ;;
    Ok (py_mul (py_mul m d1) d2)
  else Ok (PyFloat 0).

Definition immortal_weight (zodiac_luck : R) : result pyval :=
  floored 300 1.1 zodiac_luck 20 500.

(** The ten tiers, in the order the source fills the dict. *)
Definition rarities : list string :=
  ["Garbage"; "Common"; "Uncommon"; "Rare"; "Epic"; "Legendary"; "Mythic";
   "Godly"; "Divine"; "Immortal"]%string.

(** The body of the [try]: the dict is filled tier by tier, so an exception
    leaves the later tiers unset. *)
Definition rarity_weights_body (zodiac_luck : R) : result dict :=
  let weights : dict := [] in
  w <- garbage_weight zodiac_luck ;;
  let weights := dict_set weights "Garbage" w in
  w <- common_weight zodiac_luck ;;
  let weights := dict_set weights "Common" w in
  w <- uncommon_weight zodiac_luck ;;
  let weights := dict_set weights "Uncommon" w in
  w <- rare_weight zodiac_luck ;;
  let weights := dict_set weights "Rare" w in
  w <- epic_weight zodiac_luck ;;
  let weights := dict_set weights "Epic" w in
  w <- legendary_weight zodiac_luck ;;
  let weights := dict_set weights "Legendary" w in
  w <- mythic_weight zodiac_luck ;;
  let weights := dict_set weights "Mythic" w in
  w <- godly_weight zodiac_luck ;;
  let weights := dict_set weights "Godly" w in
  w <- divine_weight zodiac_luck ;;
  let weights := dict_set weights "Divine" w in
  w <- immortal_weight zodiac_luck ;;
  let weights := dict_set weights "Immortal" w in
  Ok weights.

(** The handler's dict: [{rarity: 0.0 for rarity in [...]}]. *)
Definition zero_weights : dict :=
  fold_left (fun d rarity => dict_set d rarity (PyFloat 0)) rarities [].

Definition calculate_rarity_weights (zodiac_luck : R) : result dict :=
  try_except (rarity_weights_body zodiac_luck) (Ok zero_weights).

(** [sum(weights.values())] *)
Definition py_sum (vs : list pyval) : pyval :=
  fold_left py_add vs (PyFloat 0).

(** The loop [for rarity, weight in weights.items()] filling [chances]. *)
Fixpoint chances_loop (items : dict) (total_weight : pyval) (chances : dict)
    : result dict :=
  match items with
  | [] => Ok chances
  | (rarity, weight) :: rest =>
      c <- py_div weight total_weight ;;
      chances_loop rest total_weight
        (dict_set chances rarity (py_mul c (PyFloat 100)))
  end.

Definition calculate_rarity_chances (weights : dict) : result dict :=
  let total_weight := py_sum (map snd weights) in
  if py_is_zero total_weight then
    Ok (fold_left (fun d rarity => dict_set d rarity (PyFloat 0))
                  (map fst weights) [])
  else chances_loop weights total_weight [].

(** ** The weight table of the specification

    The second definition of the weights: the piecewise table, tier by tier,
    over half-open ranges, with the real power and the real maximum. *)

Definition table_garbage (L : R) : R :=
  if between 1 L 2 then 5 * Rpower 0.8 (L - 1)
  else if between 2 L 3 then 5 * Rpower 0.8 (L - 1) * Rpower 0.4 (L - 2)
  else 0.

Definition table_common (L : R) : R :=
  if between 1 L 2 then 15
  else if between 2 L 5 then 15 * Rpower 0.45 (L - 2)
  else 0.

Definition table_uncommon (L : R) : R :=
  if between 1 L 3 then 20 * Rpower 1.5 (L - 1) - 12
  else if between 3 L 8 then (20 * Rpower 1.5 (L - 1) - 12) * Rpower 0.5 (L - 3)
  else 0.

Definition table_rare (L : R) : R :=
  if between 1 L 5 then 30 * Rpower 1.45 (L - 1) - 28
  else if between 5 L 12
  then (30 * Rpower 1.45 (L - 1) - 28) * Rpower 0.55 (L - 5)
  else 0.

Definition table_epic (L : R) : R :=
  if between 1 L 8 then Rmax 0 (45 * Rpower 1.4 (L - 2) - 50)
  else if between 8 L 20
  then Rmax 0 (45 * Rpower 1.4 (L - 2) - 50) * Rpower 0.6 (L - 8)
  else 0.

Definition table_legendary (L : R) : R :=
  if between 1 L 12 then Rmax 0 (80 * Rpower 1.36 (L - 3) - 100)
  else if between 12 L 30
  then Rmax 0 (80 * Rpower 1.36 (L - 3) - 100) * Rpower 0.64 (L - 12)
  else 0.

Definition table_mythic (L : R) : R :=
  if between 1 L 20 then Rmax 0 (120 * Rpower 1.3 (L - 5) - 140)
  else if between 20 L 50
  then Rmax 0 (120 * Rpower 1.3 (L - 5) - 140) * Rpower 0.67 (L - 20)
  else 0.

Definition table_godly (L : R) : R :=
  if between 1 L 30 then Rmax 0 (150 * Rpower 1.25 (L - 8) - 200)
  else if between 30 L 60
  then Rmax 0 (150 * Rpower 1.25 (L - 8) - 200) * Rpower 0.7 (L - 30)
  else 0.

Definition table_divine (L : R) : R :=
  if between 1 L 40 then Rmax 0 (200 * Rpower 1.2 (L - 12) - 300)
  else if between 40 L 50
  then Rmax 0 (200 * Rpower 1.2 (L - 12) - 300) * Rpower 0.92 (L - 40)
  else if between 50 L 70
  then Rmax 0 (200 * Rpower 1.2 (L - 12) - 300) * Rpower 0.92 (L - 40)
       * Rpower 0.75 (L - 50)
  else 0.

Definition table_immortal (L : R) : R :=
  Rmax 0 (300 * Rpower 1.1 (L - 20) - 500).

Definition table_weights (L : R) : dict :=
  [("Garbage", PyFloat (table_garbage L));
   ("Common", PyFloat (table_common L));
   ("Uncommon", PyFloat (table_uncommon L));
   ("Rare", PyFloat (table_rare L));
   ("Epic", PyFloat (table_epic L));
   ("Legendary", PyFloat (table_legendary L));
   ("Mythic", PyFloat (table_mythic L));
   ("Godly", PyFloat (table_godly L));
   ("Divine", PyFloat (table_divine L));
   ("Immortal", PyFloat (table_immortal L))]%string.

(** The weight the code reports for a tier, as a real number (0 for a key
    that is not in the dict). *)
Definition weight_of (rarity : string) (L : R) : R :=
  match calculate_rarity_weights L with
  | Ok weights =>
      match dict_get weights rarity with
      | Some v => re_of v
      | None => 0
      end
  | Raise _ => 0
  end.

(** A weight as the data model wants it: a float that is not negative. *)
Definition nonneg_float (v : pyval) : Prop :=
  exists x : R, v = PyFloat x /\ 0 <= x.

(** A dict whose values are the given floats. *)
Definition float_dict (items : list (string * R)) : dict :=
  map (fun kv => (fst kv, PyFloat (snd kv))) items.

(** The sum of a list of floats, added from the left as [sum] does. *)
Definition Rsum (xs : list R) : R := fold_left Rplus xs 0.

(** The sum of the values of a dict, real parts only. *)
Definition dict_total (d : dict) : R := Rsum (map (fun kv => re_of (snd kv)) d).

(** The real power [x ^ y] of a base that is not negative: 0 ^ y is 0 for
    y <> 0, and the library's [Rpower] takes over on a positive base. *)
Definition real_pow (x y : R) : R :=
  if Reqb x 0 then (if Reqb y 0 then 1 else 0) else Rpower x y.

(** The luck transform of spec section 4.2. *)
Definition soft_cap (lk : R) : R :=
  if Rltb lk 18 then lk else real_pow (lk - 18) 0.3 * 18.

(** The score of spec section 4.1. *)
Definition spec_rarity_mult (r : R) : R := if Rltb 8 r then 2 else 1.

Definition spec_level_mult (l : R) : R :=
  if Rleb 100 l then Rpower ((l - 90) / 10) 2.5 else 1.

Definition spec_score (r q l : R) : R :=
  Rpower 1.125 r * q * (9 + l * l) * spec_rarity_mult r * spec_level_mult l.


(** Where each tier's rise phase ends and its first decay factor starts
    (Immortal has no decay). *)
Definition first_decay_breakpoints : list (string * R) :=
  [("Garbage", 2); ("Common", 2); ("Uncommon", 3); ("Rare", 5); ("Epic", 8);
   ("Legendary", 12); ("Mythic", 20); ("Godly", 30); ("Divine", 40)]%string.

(** From where on each tier's weight no longer increases: the first decay
    breakpoint, except for Divine, whose first decay factor 0.92 is
    outgrown by its rise 1.2 and which only falls from 50 on. *)
Definition decay_starts : list (string * R) :=
  [("Garbage", 2); ("Common", 2); ("Uncommon", 3); ("Rare", 5); ("Epic", 8);
   ("Legendary", 12); ("Mythic", 20); ("Godly", 30); ("Divine", 50)]%string.

(** Every point of the table at which a tier's formula gains a decay
    factor: the tier, the breakpoint, the formula of the range below it and
    the base of the factor added from it on. *)
Record breakpoint : Type := mkBreakpoint {
  bp_rarity : string;
  bp_at : R;
  bp_lower : R -> R;
  bp_decay : R
}.

Definition decay_breakpoints : list breakpoint :=
  [mkBreakpoint "Garbage" 2 (fun L => 5 * Rpower 0.8 (L - 1)) 0.4;
   mkBreakpoint "Common" 2 (fun _ => 15) 0.45;
   mkBreakpoint "Uncommon" 3 (fun L => 20 * Rpower 1.5 (L - 1) - 12) 0.5;
   mkBreakpoint "Rare" 5 (fun L => 30 * Rpower 1.45 (L - 1) - 28) 0.55;
   mkBreakpoint "Epic" 8 (fun L => Rmax 0 (45 * Rpower 1.4 (L - 2) - 50)) 0.6;
   mkBreakpoint "Legendary" 12
     (fun L => Rmax 0 (80 * Rpower 1.36 (L - 3) - 100)) 0.64;
   mkBreakpoint "Mythic" 20
     (fun L => Rmax 0 (120 * Rpower 1.3 (L - 5) - 140)) 0.67;
   mkBreakpoint "Godly" 30
     (fun L => Rmax 0 (150 * Rpower 1.25 (L - 8) - 200)) 0.7;
   mkBreakpoint "Divine" 40
     (fun L => Rmax 0 (200 * Rpower 1.2 (L - 12) - 300)) 0.92;
   mkBreakpoint "Divine" 50
     (fun L => Rmax 0 (200 * Rpower 1.2 (L - 12) - 300)
               * Rpower 0.92 (L - 40)) 0.75]%string.

(** ** Further tables read off the source *)

(** The all-zero dict of the ten tiers. *)
Definition zero_dict : dict := map (fun rarity => (rarity, PyFloat 0)) rarities.

(** A chance as it is displayed: a float between 0 and 100. *)
Definition percentage (v : pyval) : Prop :=
  exists c : R, v = PyFloat c /\ 0 <= c <= 100.

(** Up to where the floor [max(0, ...)] of a tier keeps its weight at zero:
    at luck = offset the rise is [a - c] with [a < c], and for Immortal
    300 * 1.1^5 is still below 500. *)
Definition floor_thresholds : list (string * R) :=
  [("Epic", 2); ("Legendary", 3); ("Mythic", 5); ("Godly", 8);
   ("Divine", 12); ("Immortal", 25)]%string.

(** The luck at which each gated tier's weight is largest. *)
Definition peaks : list (string * R) :=
  [("Garbage", 1); ("Common", 1); ("Uncommon", 3); ("Rare", 5); ("Epic", 8);
   ("Legendary", 12); ("Mythic", 20); ("Godly", 30); ("Divine", 50)]%string.

(** ** Input and output

    The interactive part of the calculator runs in a state that holds the
    calculator object (which [get_user_input] mutates), the lines still to
    come on standard input and what has been written to standard output:
    one entry per [print] (the line without its newline) and one per prompt
    of [input].  The logger's messages are not part of it. *)

Record state : Type := mkState {
  st_self : ZodiacCalculator;
  st_stdin : list string;
  st_stdout : list string
}.

(** What can be raised: an exception of the formulas, or the EOFError of
    [input] at the end of standard input. *)
Inductive raised : Type :=
| Exn (e : exn)
| EOFError.

Inductive outcome (A : Type) : Type :=
| Return (a : A)
| Throw (r : raised).
Arguments Return {A} a.
Arguments Throw {A} r.

Definition io (A : Type) : Type := state -> state * outcome A.

Definition io_ret {A : Type} (a : A) : io A := fun st => (st, Return a).

Definition io_bind {A B : Type} (m : io A) (k : A -> io B) : io B :=
  fun st =>
    match m st with
    | (st', Return a) => k a st'
    | (st', Throw r) => (st', Throw r)
    end.

Notation "x <~ m ;; k" := (io_bind m (fun x => k))
  (at level 61, m at next level, right associativity).
Notation "m ;;; k" := (io_bind m (fun _ => k))
  (at level 61, right associativity).

(** A call of one of the formulas. *)
Definition lift {A : Type} (r : result A) : io A :=
  fun st =>
    match r with
    | Ok a => (st, Return a)
    | Raise e => (st, Throw (Exn e))
    end.

Definition get_self : io ZodiacCalculator := fun st => (st, Return (st_self st)).

Definition set_self (self : ZodiacCalculator) : io unit :=
  fun st => (mkState self (st_stdin st) (st_stdout st), Return tt).

Definition print (line : string) : io unit :=
  fun st =>
    (mkState (st_self st) (st_stdin st) (st_stdout st ++ [line]), Return tt).

(** [input(prompt)]: writes the prompt and takes the next line, or raises
    EOFError when there is none. *)
Definition input (prompt : string) : io string :=
  fun st =>
    let out := st_stdout st ++ [prompt] in
    match st_stdin st with
    | line :: rest => (mkState (st_self st) rest out, Return line)
    | [] => (mkState (st_self st) [] out, Throw EOFError)
    end.

(** [try: m except ValueError: h] *)
Definition except_ValueError {A : Type} (m h : io A) : io A :=
  fun st =>
    match m st with
    | (st', Throw (Exn ValueError)) => h st'
    | other => other
    end.

(** The newline character and [s * n]. *)
Definition nl : string := String (Ascii.ascii_of_nat 10) EmptyString.

Fixpoint repeat_string (s : string) (n : nat) : string :=
  match n with
  | O => EmptyString
  | S n' => (s ++ repeat_string s n')%string
  end.

(** [abs(a)] *)
Definition py_abs (a : pyval) : R :=
  match a with
  | PyFloat x => Rabs x
  | PyComplex re im => sqrt (re * re + im * im)
  end.

(** [math.isinf] and [math.isnan]: a float of the model is finite; a
    complex argument is a TypeError. *)
Definition math_isinf (a : pyval) : result bool :=
  match a with
  | PyFloat _ => Ok false
  | PyComplex _ _ => Raise TypeError
  end.

Definition math_isnan (a : pyval) : result bool :=
  match a with
  | PyFloat _ => Ok false
  | PyComplex _ _ => Raise TypeError
  end.

(** Truth value of an optional number: None and zero are false. *)
Definition truthy (o : option pyval) : bool :=
  match o with
  | None => false
  | Some v => negb (py_is_zero v)
  end.

(** [calculate_rarity_weights] on a value as it comes back from
    [calculate_zodiac_luck]: the range tests order the luck against
    integers, which is a TypeError for a complex number. *)
Definition calculate_rarity_weights_of (zodiac_luck : pyval) : result dict :=
  match zodiac_luck with
  | PyFloat L => calculate_rarity_weights L
  | PyComplex _ _ => Raise TypeError
  end.

Definition set_zodiac_rarity (self : ZodiacCalculator) (x : R) :=
  mkCalc (Some x) (zodiac_quality self) (zodiac_level self) (luck self)
         (immo_number self).
Definition set_zodiac_quality (self : ZodiacCalculator) (x : R) :=
  mkCalc (zodiac_rarity self) (Some x) (zodiac_level self) (luck self)
         (immo_number self).
Definition set_zodiac_level (self : ZodiacCalculator) (x : R) :=
  mkCalc (zodiac_rarity self) (zodiac_quality self) (Some x) (luck self)
         (immo_number self).
Definition set_luck (self : ZodiacCalculator) (x : R) :=
  mkCalc (zodiac_rarity self) (zodiac_quality self) (zodiac_level self)
         (Some x) (immo_number self).
Definition set_immo_number (self : ZodiacCalculator) (x : R) :=
  mkCalc (zodiac_rarity self) (zodiac_quality self) (zodiac_level self)
         (luck self) (Some x).

Definition nonempty (s : string) : bool :=
  match s with
  | EmptyString => false
  | String _ _ => true
  end.

Section Interaction.

(** The builtins the interactive part relies on: [format(value, spec)] as
    the f-strings use it, [str.strip] and [float(text)], which is None
    where Python raises ValueError.  (A text that [float] reads as an
    infinity or a NaN has no counterpart among the finite floats of the
    model.) *)
Variable format_value : pyval -> string -> string.
Variable strip : string -> string.
Variable float_of_string : string -> option R.

Definition float (text : string) : result R :=
  match float_of_string text with
  | Some x => Ok x
  | None => Raise ValueError
  end.

Definition _format_number (number : pyval) : result string :=
  inf <- math_isinf number ;;
  if (inf : bool) then Ok "∞ (Infinity)"%string
  else
    nan <- math_isnan number ;;
    if (nan : bool) then Ok "NaN (Invalid)"%string
    else if Rleb 1000000 (py_abs number)
    then Ok (format_value number ".2e")
    else if Rleb 1000 (py_abs number)
    then Ok (format_value number ".2f")
    else if Rleb 1 (py_abs number)
    then Ok (format_value number ".6f")
    else Ok (format_value number ".8f").

(** One of the five prompts of [get_user_input]: a line that is blank
    after [strip] is skipped, any other is converted and stored. *)
Definition read_field (prompt : string)
    (store : ZodiacCalculator -> R -> ZodiacCalculator)
    (inputs_provided : nat) : io nat :=
  line <~ input prompt ;;
  let text := strip line in
  if nonempty text then
    x <~ lift (float text) ;;
    self <~ get_self ;;
    set_self (store self x) ;;;
    io_ret (inputs_provided + 1)%nat
  else io_ret inputs_provided.

Definition get_user_input : io bool :=
  print "=== Revolution Idle Zodiac Calculator ===" ;;;
  print "Note: All inputs are optional. Press Enter to skip any field." ;;;
  print "" ;;;
  print "DISCLAIMER: All calculations are approximate and based on formulas from:" ;;;
  print "- https://revolutionidle.wiki.gg/wiki/Zodiacs" ;;;
  print "- https://revolutionidle.wiki.gg/wiki/Planet_Shop" ;;;
  print "Results may not exactly match in-game values due to potential formula changes" ;;;
  print "or undocumented game mechanics." ;;;
  print "" ;;;
  let inputs_provided := 0%nat in
  attempt <~
    except_ValueError
      (inputs_provided <~
         read_field "Enter Zodiac Rarity (or press Enter to skip): "
           set_zodiac_rarity inputs_provided ;;
       inputs_provided <~
         read_field "Enter Zodiac Quality (or press Enter to skip): "
           set_zodiac_quality inputs_provided ;;
       inputs_provided <~
         read_field "Enter Zodiac Level (or press Enter to skip): "
           set_zodiac_level inputs_provided ;;
       inputs_provided <~
         read_field "Enter Luck (or press Enter to skip): "
           set_luck inputs_provided ;;
       inputs_provided <~
         read_field "Enter Immo+ Number (or press Enter to skip): "
           set_immo_number inputs_provided ;;
       io_ret (inr inputs_provided))
      (print "Error: Please enter valid numbers." ;;;
       io_ret (inl false)) ;;
  match attempt with
  | inl returned => io_ret returned
  | inr inputs_provided =>
      if Nat.eqb inputs_provided 0 then
        print "No inputs provided. Please provide at least one value to perform calculations." ;;;
        io_ret false
      else io_ret true
  end.

(** The loop [for rarity, value in d.items(): print(...)]. *)
Fixpoint print_items (line_of : string -> pyval -> result string)
    (items : dict) : io unit :=
  match items with
  | [] => io_ret tt
  | (rarity, value) :: rest =>
      line <~ lift (line_of rarity value) ;;
      print line ;;;
      print_items line_of rest
  end.

Definition display_results : io unit :=
  print (nl ++ repeat_string "=" 50) ;;;
  print "CALCULATION RESULTS" ;;;
  print (repeat_string "=" 50) ;;;
  let calculations_performed := false in
  self <~ get_self ;;
  sale_price <~ lift (calculate_zodiac_sale_price self) ;;
  enhance_price <~ lift (calculate_zodiac_enhance_price self) ;;
  enhance_chance <~ lift (calculate_zodiac_enhance_chance self) ;;
  zodiac_score <~ lift (calculate_zodiac_score self) ;;
  calculations_performed <~
    (if existsb truthy [sale_price; enhance_price; enhance_chance; zodiac_score]
     then
       print (nl ++ "--- Basic Zodiac Calculations ---") ;;;
       match sale_price with
       | Some v =>
           s <~ lift (_format_number v) ;;
           print ("Zodiac Sale Price: " ++ s) ;;;
           print "  Note: This is the base sale price, multiplied by the 'Wolf Skull' Relic"
       | None => io_ret tt
       end ;;;
       match enhance_price with
       | Some v =>
           s <~ lift (_format_number v) ;;
           print ("Zodiac Enhance Price: " ++ s)
       | None => io_ret tt
       end ;;;
       match enhance_chance with
       | Some v =>
           print ("Zodiac Enhance Chance: " ++ format_value v ".2f" ++ "%")
       | None => io_ret tt
       end ;;;
       match zodiac_score with
       | Some v =>
           s <~ lift (_format_number v) ;;
           print ("Zodiac Score: " ++ s)
       | None => io_ret tt
       end ;;;
       io_ret true
     else io_ret calculations_performed) ;;
  zodiac_luck <~ lift (calculate_zodiac_luck self) ;;
  calculations_performed <~
    match zodiac_luck with
    | Some zl =>
        weights <~ lift (calculate_rarity_weights_of zl) ;;
        chances <~ lift (calculate_rarity_chances weights) ;;
        print (nl ++ "--- Rarity Analysis ---") ;;;
        s <~ lift (_format_number zl) ;;
        print ("Zodiac Luck: " ++ s) ;;;
        print (nl ++ "Rarity Weights:") ;;;
        print_items
          (fun rarity weight =>
             s <- _format_number weight ;;
             Ok ("  " ++ rarity ++ ": " ++ s)%string)
          weights ;;;
        print (nl ++ "Rarity Chances:") ;;;
        print_items
          (fun rarity chance =>
             Ok ("  " ++ rarity ++ ": " ++ format_value chance ".4f" ++ "%")%string)
          chances ;;;
        io_ret true
    | None => io_ret calculations_performed
    end ;;
  if negb calculations_performed then
    print (nl ++ "No calculations could be performed with the provided inputs.") ;;;
    print "Please provide the required inputs for the calculations you want to see:" ;;;
    print "- Sale Price/Score: Requires rarity, quality, and level" ;;;
    print "- Enhance Price/Chance: Requires quality (and rarity/level for price)" ;;;
    print "- Rarity Analysis: Requires luck"
  else io_ret tt.

(** What the answers to the prompts leave in the calculator: the lines
    are taken in the order of the prompts; a blank line keeps the field as
    it was, any other stores its value. *)
Definition answer (store : ZodiacCalculator -> R -> ZodiacCalculator)
    (line : string) (self : ZodiacCalculator) : ZodiacCalculator :=
  if nonempty (strip line) then
    match float_of_string (strip line) with
    | Some x => store self x
    | None => self
    end
  else self.

Fixpoint answers
    (stores : list (ZodiacCalculator -> R -> ZodiacCalculator))
    (lines : list string) (self : ZodiacCalculator) : ZodiacCalculator :=
  match stores, lines with
  | store :: stores', line :: lines' =>
      answers stores' lines' (answer store line self)
  | _, _ => self
  end.

(** A line that is blank after [strip]. *)
Definition blank (line : string) : bool := negb (nonempty (strip line)).

(** A line that [get_user_input] accepts: blank, or read by [float]. *)
Definition accepted (line : string) : Prop :=
  nonempty (strip line) = true -> float_of_string (strip line) <> None.

End Interaction.

Definition stores : list (ZodiacCalculator -> R -> ZodiacCalculator) :=
  [set_zodiac_rarity; set_zodiac_quality; set_zodiac_level; set_luck;
   set_immo_number].

Definition banner : list string :=
  ["=== Revolution Idle Zodiac Calculator ===";
   "Note: All inputs are optional. Press Enter to skip any field.";
   "";
   "DISCLAIMER: All calculations are approximate and based on formulas from:";
   "- https://revolutionidle.wiki.gg/wiki/Zodiacs";
   "- https://revolutionidle.wiki.gg/wiki/Planet_Shop";
   "Results may not exactly match in-game values due to potential formula changes";
   "or undocumented game mechanics.";
   ""]%string.

Definition prompts : list string :=
  ["Enter Zodiac Rarity (or press Enter to skip): ";
   "Enter Zodiac Quality (or press Enter to skip): ";
   "Enter Zodiac Level (or press Enter to skip): ";
   "Enter Luck (or press Enter to skip): ";
   "Enter Immo+ Number (or press Enter to skip): "]%string.

Definition report_header : list string :=
  [nl ++ repeat_string "=" 50; "CALCULATION RESULTS"; repeat_string "=" 50]%string.

Definition nothing_calculated : list string :=
  [nl ++ "No calculations could be performed with the provided inputs.";
   "Please provide the required inputs for the calculations you want to see:";
   "- Sale Price/Score: Requires rarity, quality, and level";
   "- Enhance Price/Chance: Requires quality (and rarity/level for price)";
   "- Rarity Analysis: Requires luck"]%string.

(** A computation that, from the state [st], only prints and returns: the
    calculator and the pending input stay as they are, and the result
    satisfies [P]. *)
Definition quiet_at {A : Type} (st : state) (m : io A) (P : A -> Prop)
    : Prop :=
  exists (out : list string) (a : A),
    m st = (mkState (st_self st) (st_stdin st) (st_stdout st ++ out), Return a)
    /\ P a.

(** A result that is absent or a float. *)
Definition float_or_none (o : option pyval) : Prop :=
  o = None \/ exists x : R, o = Some (PyFloat x).

(** A dict whose values are all floats. *)
Definition float_valued (d : dict) : Prop :=
  Forall (fun kv => exists x : R, snd kv = PyFloat x) d.

(** ** Inputs of moderate size

    A rarity between -70 and 70, a level between minus and plus a million,
    and a quality that is 0 or between 2^-100 and 2^100 in absolute value.
    On such inputs every power, sum and product that the score and the sale
    price form is 0 or a normal float: none overflows to an infinity and
    none underflows to zero. *)
Definition moderate_inputs (r q l : R) : Prop :=
  -70 <= r <= 70 /\
  -1000000 <= l <= 1000000 /\
  (q = 0 \/ / 2 ^ 100 <= q <= 2 ^ 100 \/ / 2 ^ 100 <= - q <= 2 ^ 100).

(** * Properties *)

(** ** Comparisons *)

Lemma Rltb_true (x y : R) : x < y -> Rltb x y = true.
Proof. intros H. unfold Rltb. destruct (Rlt_dec x y); [reflexivity | contradiction]. Qed.

Lemma Rltb_false (x y : R) : y <= x -> Rltb x y = false.
Proof. intros H. unfold Rltb. destruct (Rlt_dec x y); [lra | reflexivity]. Qed.

Lemma Rleb_true (x y : R) : x <= y -> Rleb x y = true.
Proof. intros H. unfold Rleb. destruct (Rle_dec x y); [reflexivity | contradiction]. Qed.

Lemma Rleb_false (x y : R) : y < x -> Rleb x y = false.
Proof. intros H. unfold Rleb. destruct (Rle_dec x y); [lra | reflexivity]. Qed.

Lemma Reqb_true (x y : R) : x = y -> Reqb x y = true.
Proof. intros H. unfold Reqb. destruct (Req_dec_T x y); [reflexivity | contradiction]. Qed.

Lemma Reqb_false (x y : R) : x <> y -> Reqb x y = false.
Proof. intros H. unfold Reqb. destruct (Req_dec_T x y); [contradiction | reflexivity]. Qed.

Lemma between_true (a x b : R) : a <= x < b -> between a x b = true.
Proof.
  intros [H1 H2]. unfold between.
  now rewrite Rleb_true, Rltb_true.
Qed.

Lemma between_false (a x b : R) : x < a \/ b <= x -> between a x b = false.
Proof.
  intros [H | H]; unfold between.
  - now rewrite Rleb_false.
  - rewrite Rltb_false by assumption. apply andb_false_r.
Qed.

Lemma between_spec (a x b : R) :
  {a <= x < b /\ between a x b = true} + {(x < a \/ b <= x) /\ between a x b = false}.
Proof.
  destruct (Rle_dec a x) as [H1 | H1]; destruct (Rlt_dec x b) as [H2 | H2].
  - left. split; [lra | apply between_true; lra].
  - right. split; [right; lra | apply between_false; right; lra].
  - right. split; [left; lra | apply between_false; left; lra].
  - right. split; [left; lra | apply between_false; left; lra].
Qed.

(** ** The float range *)

Lemma pow2_le_float_max (n : nat) : (n <= 1023)%nat -> 2 ^ n <= float_max.
Proof.
  intros Hn. unfold float_max.
  assert (H1 : 2 ^ n <= 2 ^ 1023) by (apply Rle_pow; [lra | exact Hn]).
  assert (H2 : 0 < 2 ^ 1023) by (apply pow_lt; lra).
  assert (H3 : 0 < / 2 ^ 52 <= 1).
  { assert (H52 : 1 <= 2 ^ 52) by (apply pow_R1_Rle; lra).
    split.
    - apply Rinv_0_lt_compat; lra.
    - rewrite <- Rinv_1. apply Rinv_le_contravar; lra. }
  nra.
Qed.

Lemma float_max_pos : 1 < float_max.
Proof.
  apply Rlt_le_trans with (2 ^ 1); [lra | apply pow2_le_float_max; lia].
Qed.

Lemma float_max_lt_pow2 : float_max < 2 ^ 1024.
Proof.
  unfold float_max.
  assert (H2 : 0 < 2 ^ 1023) by (apply pow_lt; lra).
  assert (H3 : 0 < / 2 ^ 52).
  { apply Rinv_0_lt_compat. apply pow_lt; lra. }
  change (2 ^ 1024) with (2 * 2 ^ 1023). nra.
Qed.

(** ** The power operator on a positive base *)

Lemma libm_pow_ok (x y : R) :
  Rpower x y <= float_max -> libm_pow x y = Ok (Rpower x y).
Proof. intros H. unfold libm_pow. now rewrite Rltb_false. Qed.

Lemma libm_pow_overflow (x y : R) :
  float_max < Rpower x y -> libm_pow x y = Raise OverflowError.
Proof. intros H. unfold libm_pow. now rewrite Rltb_true. Qed.

Lemma float_pow_pos (x y : R) :
  0 < x -> float_pow x y = r <- libm_pow x y ;; Ok (PyFloat r).
Proof.
  intros Hx. unfold float_pow.
  destruct (Req_dec_T y 0) as [-> | Hy].
  - rewrite Reqb_true by reflexivity.
    rewrite libm_pow_ok; rewrite Rpower_O by assumption.
    + reflexivity.
    + pose proof float_max_pos. lra.
  - rewrite (Reqb_false y) by assumption.
    rewrite Reqb_false by lra. rewrite Rltb_false by lra. reflexivity.
Qed.

Lemma float_pow_pos_ok (x y : R) :
  0 < x -> Rpower x y <= float_max ->
  float_pow x y = Ok (PyFloat (Rpower x y)).
Proof.
  intros Hx Hle. rewrite float_pow_pos by assumption.
  now rewrite libm_pow_ok.
Qed.

Lemma Rpower_pos (x y : R) : 0 < Rpower x y.
Proof. unfold Rpower. apply exp_pos. Qed.

Lemma Rpower_base_1 (y : R) : Rpower 1 y = 1.
Proof. unfold Rpower. now rewrite ln_1, Rmult_0_r, exp_0. Qed.

(** A base of at most 1 with a non-negative exponent gives at most 1. *)
Lemma Rpower_le_1_small_base (x y : R) :
  0 < x <= 1 -> 0 <= y -> Rpower x y <= 1.
Proof.
  intros Hx Hy.
  destruct (Req_dec_T y 0) as [-> | Hy0].
  - rewrite Rpower_O; lra.
  - rewrite <- (Rpower_base_1 y).
    apply Rle_Rpower_l; lra.
Qed.

(** A base of at least 1 with a non-positive exponent gives at most 1. *)
Lemma Rpower_le_1_neg_exp (x y : R) :
  1 <= x -> y <= 0 -> Rpower x y <= 1.
Proof.
  intros Hx Hy. rewrite <- (Rpower_O x) by lra.
  apply Rle_Rpower; assumption.
Qed.

Lemma Rpower_ge_1 (x y : R) : 1 <= x -> 0 <= y -> 1 <= Rpower x y.
Proof.
  intros Hx Hy. rewrite <- (Rpower_O x) by lra.
  apply Rle_Rpower; assumption.
Qed.

Lemma Rpower_nat (x : R) (n : nat) (y : R) :
  0 < x -> y = INR n -> Rpower x y = x ^ n.
Proof. intros Hx ->. now apply Rpower_pow. Qed.

(** Every power the weight formulas take inside their ranges stays in the
    float range: bases are at most 2 and exponents at most 70. *)
Lemma Rpower_in_range (x y : R) :
  0 < x <= 2 -> (x < 1 -> 0 <= y) -> y <= 70 -> Rpower x y <= float_max.
Proof.
  intros Hx Hsmall Hy.
  destruct (Rlt_dec x 1) as [Hlt | Hge].
  - apply Rle_trans with 1.
    + apply Rpower_le_1_small_base; [lra | auto].
    + pose proof float_max_pos; lra.
  - destruct (Rle_dec y 0) as [Hneg | Hpos].
    + apply Rle_trans with 1.
      * apply Rpower_le_1_neg_exp; lra.
      * pose proof float_max_pos; lra.
    + apply Rle_trans with (Rpower 2 70).
      * apply Rle_trans with (Rpower x 70).
        -- apply Rle_Rpower; lra.
        -- apply Rle_Rpower_l; lra.
      * rewrite (Rpower_nat 2 70) by (try lra; simpl; lra).
        apply pow2_le_float_max; lia.
Qed.

(** ** The code against the table *)

Lemma pw_ok (base L offset : R) :
  0 < base -> Rpower base (L - offset) <= float_max ->
  pw base L offset = Ok (PyFloat (Rpower base (L - offset))).
Proof. intros Hb Hle. unfold pw, py_pow. now apply float_pow_pos_ok. Qed.

Lemma py_max0_float (x : R) : py_max0 (PyFloat x) = Ok (PyFloat (Rmax 0 x)).
Proof.
  unfold py_max0, Rltb, Rmax.
  destruct (Rlt_dec 0 x); destruct (Rle_dec 0 x); try reflexivity; try lra.
  do 2 f_equal. lra.
Qed.

Lemma floored_ok (a base L offset c : R) :
  0 < base -> Rpower base (L - offset) <= float_max ->
  floored a base L offset c
  = Ok (PyFloat (Rmax 0 (a * Rpower base (L - offset) - c))).
Proof.
  intros Hb Hle. unfold floored. rewrite pw_ok by assumption.
  cbn [bind py_mul py_sub]. apply py_max0_float.
Qed.

(** Splits on the range tests of a tier and evaluates the powers, all of
    which are in the float range there. *)
Ltac range_cases L :=
  repeat match goal with
  | |- context [between ?a L ?b] =>
      let H := fresh "Hr" in let E := fresh "Er" in
      destruct (between_spec a L b) as [[H E] | [H E]]; rewrite E
  end.

Ltac eval_pows :=
  repeat first
    [ rewrite floored_ok by (try lra; apply Rpower_in_range; intros; lra)
    | rewrite pw_ok by (try lra; apply Rpower_in_range; intros; lra) ];
  cbn [bind py_mul py_sub py_add]; try reflexivity.

Lemma garbage_weight_table (L : R) :
  garbage_weight L = Ok (PyFloat (table_garbage L)).
Proof. unfold garbage_weight, table_garbage. range_cases L; eval_pows. Qed.

Lemma common_weight_table (L : R) :
  common_weight L = Ok (PyFloat (table_common L)).
Proof. unfold common_weight, table_common. range_cases L; eval_pows. Qed.

Lemma uncommon_weight_table (L : R) :
  uncommon_weight L = Ok (PyFloat (table_uncommon L)).
Proof. unfold uncommon_weight, table_uncommon. range_cases L; eval_pows. Qed.

Lemma rare_weight_table (L : R) :
  rare_weight L = Ok (PyFloat (table_rare L)).
Proof. unfold rare_weight, table_rare. range_cases L; eval_pows. Qed.

Lemma epic_weight_table (L : R) :
  epic_weight L = Ok (PyFloat (table_epic L)).
Proof. unfold epic_weight, table_epic. range_cases L; eval_pows. Qed.

Lemma legendary_weight_table (L : R) :
  legendary_weight L = Ok (PyFloat (table_legendary L)).
Proof. unfold legendary_weight, table_legendary. range_cases L; eval_pows. Qed.

Lemma mythic_weight_table (L : R) :
  mythic_weight L = Ok (PyFloat (table_mythic L)).
Proof. unfold mythic_weight, table_mythic. range_cases L; eval_pows. Qed.

Lemma godly_weight_table (L : R) :
  godly_weight L = Ok (PyFloat (table_godly L)).
Proof. unfold godly_weight, table_godly. range_cases L; eval_pows. Qed.

Lemma divine_weight_table (L : R) :
  divine_weight L = Ok (PyFloat (table_divine L)).
Proof. unfold divine_weight, table_divine. range_cases L; eval_pows. Qed.

Lemma immortal_weight_table (L : R) :
  Rpower 1.1 (L - 20) <= float_max ->
  immortal_weight L = Ok (PyFloat (table_immortal L)).
Proof.
  intros H. unfold immortal_weight, table_immortal.
  now rewrite floored_ok by (try lra; assumption).
Qed.

Lemma immortal_weight_overflow (L : R) :
  float_max < Rpower 1.1 (L - 20) ->
  immortal_weight L = Raise OverflowError.
Proof.
  intros H. unfold immortal_weight, floored, pw, py_pow.
  rewrite float_pow_pos by lra.
  now rewrite libm_pow_overflow.
Qed.

(** The nine gated tiers never raise, so the body of the [try] succeeds or
    fails with the Immortal power alone. *)
Lemma rarity_weights_body_ok (L : R) :
  Rpower 1.1 (L - 20) <= float_max ->
  rarity_weights_body L = Ok (table_weights L).
Proof.
  intros H. unfold rarity_weights_body.
  rewrite garbage_weight_table, common_weight_table, uncommon_weight_table,
    rare_weight_table, epic_weight_table, legendary_weight_table,
    mythic_weight_table, godly_weight_table, divine_weight_table,
    immortal_weight_table by assumption.
  reflexivity.
Qed.

Lemma rarity_weights_body_overflow (L : R) :
  float_max < Rpower 1.1 (L - 20) ->
  rarity_weights_body L = Raise OverflowError.
Proof.
  intros H. unfold rarity_weights_body.
  rewrite garbage_weight_table, common_weight_table, uncommon_weight_table,
    rare_weight_table, epic_weight_table, legendary_weight_table,
    mythic_weight_table, godly_weight_table, divine_weight_table,
    immortal_weight_overflow by assumption.
  reflexivity.
Qed.

(** ** Overflow of the Immortal power *)

Lemma Rpower_natZ (x : R) (n : nat) (y : R) :
  0 < x -> y = IZR (Z.of_nat n) -> Rpower x y = x ^ n.
Proof. intros Hx ->. rewrite <- INR_IZR_INZ. now apply Rpower_pow. Qed.

Lemma immortal_power_overflows (y : R) :
  8192 <= y -> float_max < Rpower 1.1 y.
Proof.
  intros Hy.
  apply Rlt_le_trans with (2 ^ 1024); [apply float_max_lt_pow2 |].
  apply Rle_trans with (Rpower 1.1 8192); [| apply Rle_Rpower; lra].
  replace 8192 with (8 * 1024) by lra.
  rewrite <- Rpower_mult.
  rewrite (Rpower_natZ 1.1 8 8) by (try lra; reflexivity).
  rewrite <- (Rpower_natZ 2 1024 1024) by (try lra; reflexivity).
  apply Rle_Rpower_l; [lra |].
  split; [lra |]. simpl. lra.
Qed.

Lemma immortal_power_in_range (y : R) :
  y <= 7000 -> Rpower 1.1 y <= float_max.
Proof.
  intros Hy.
  apply Rle_trans with (2 ^ 1000); [| apply pow2_le_float_max; lia].
  apply Rle_trans with (Rpower 1.1 7000); [apply Rle_Rpower; lra |].
  replace 7000 with (7 * 1000) by lra.
  rewrite <- Rpower_mult.
  rewrite (Rpower_natZ 1.1 7 7) by (try lra; reflexivity).
  rewrite <- (Rpower_natZ 2 1000 1000) by (try lra; reflexivity).
  apply Rle_Rpower_l; [lra |].
  split; [apply pow_lt; lra |]. simpl. lra.
Qed.

(** The Immortal weight multiplies the power by 300 before it subtracts 500:
    the product is the largest value the weight computation forms.  Where the
    product stays in the float range, so does the power. *)
Lemma immortal_power_below_product (y : R) :
  300 * Rpower 1.1 y <= float_max -> Rpower 1.1 y <= float_max.
Proof. intros H. pose proof (Rpower_pos 1.1 y). lra. Qed.

Lemma immortal_power_below_pow2 (y : R) :
  y <= 7000 -> Rpower 1.1 y <= 2 ^ 1000.
Proof.
  intros Hy.
  apply Rle_trans with (Rpower 1.1 7000); [apply Rle_Rpower; lra |].
  replace 7000 with (7 * 1000) by lra.
  rewrite <- Rpower_mult.
  rewrite (Rpower_natZ 1.1 7 7) by (try lra; reflexivity).
  rewrite <- (Rpower_natZ 2 1000 1000) by (try lra; reflexivity).
  apply Rle_Rpower_l; [lra |].
  split; [apply pow_lt; lra |]. simpl. lra.
Qed.

Lemma immortal_product_in_range (y : R) :
  y <= 7000 -> 300 * Rpower 1.1 y <= float_max.
Proof.
  intros Hy.
  pose proof (immortal_power_below_pow2 y Hy) as Hp.
  pose proof (Rpower_pos 1.1 y) as Hpos.
  apply Rle_trans with (2 ^ 1009); [| apply pow2_le_float_max; lia].
  replace (2 ^ 1009) with (2 ^ 9 * 2 ^ 1000)
    by (rewrite <- pow_add; reflexivity).
  replace (2 ^ 9) with 512 by (simpl; lra).
  lra.
Qed.

Lemma zero_weights_eq :
  zero_weights = map (fun rarity => (rarity, PyFloat 0)) rarities.
Proof. reflexivity. Qed.

Lemma calculate_rarity_weights_ok (L : R) :
  Rpower 1.1 (L - 20) <= float_max ->
  calculate_rarity_weights L = Ok (table_weights L).
Proof.
  intros H. unfold calculate_rarity_weights.
  now rewrite rarity_weights_body_ok.
Qed.

Lemma calculate_rarity_weights_overflow (L : R) :
  float_max < Rpower 1.1 (L - 20) ->
  calculate_rarity_weights L = Ok zero_weights.
Proof.
  intros H. unfold calculate_rarity_weights.
  now rewrite rarity_weights_body_overflow.
Qed.

(** C1, as stated, fails at zodiacLuck = 10000: the power 1.1 ** 9980 is out
    of the float range, the handler returns the all-zero dict, and the
    table's Immortal entry is positive there. *)
Lemma C1_table_fails_on_overflow :
  calculate_rarity_weights 10000 <> Ok (table_weights 10000).
Proof.
  assert (Hov : float_max < Rpower 1.1 (10000 - 20))
    by (apply immortal_power_overflows; lra).
  rewrite calculate_rarity_weights_overflow by exact Hov.
  intros Heq.
  assert (Himm : Some (PyFloat 0) = Some (PyFloat (table_immortal 10000))).
  { change (dict_get zero_weights "Immortal"
            = dict_get (table_weights 10000) "Immortal").
    congruence. }
  injection Himm as Himm. unfold table_immortal in Himm.
  assert (Hfm : 2 ^ 2 <= float_max) by (apply pow2_le_float_max; lia).
  simpl in Hfm.
  assert (Hpos : 0 < 300 * Rpower 1.1 (10000 - 20) - 500) by lra.
  rewrite Rmax_right in Himm by lra. lra.
Qed.

(** C1 (amended): for every zodiacLuck at which the Immortal product
    300 * 1.1 ** (L - 20), the largest value the weight formulas form, stays
    in the float range, calculate_rarity_weights returns the ten tiers in
    order with exactly the weights of the table of section 4.3.  Beyond that
    range the table's value is not what the function returns: the product is
    no finite float and, once the power itself leaves the range, the
    [except] clause returns ten zeros. *)
Theorem C1_weights_match_table (L : R) :
  300 * Rpower 1.1 (L - 20) <= float_max ->
  calculate_rarity_weights L = Ok (table_weights L).
Proof.
  intros Hprod. unfold calculate_rarity_weights.
  rewrite rarity_weights_body_ok
    by (apply immortal_power_below_product; exact Hprod).
  reflexivity.
Qed.

Lemma C1_weights_match_table_witness :
  300 * Rpower 1.1 (20 - 20) <= float_max /\
  calculate_rarity_weights 20 = Ok (table_weights 20).
Proof.
  assert (H : 300 * Rpower 1.1 (20 - 20) <= float_max).
  { apply immortal_product_in_range. lra. }
  split; [exact H | exact (C1_weights_match_table 20 H)].
Defined.

(** ** The failure policy *)

(** The [try] body fails exactly when the Immortal power overflows, and
    then with OverflowError. *)
Lemma rarity_weights_body_raises (L : R) (e : exn) :
  rarity_weights_body L = Raise e ->
  e = OverflowError /\ float_max < Rpower 1.1 (L - 20).
Proof.
  intros Hraise.
  destruct (Rle_dec (Rpower 1.1 (L - 20)) float_max) as [Hin | Hout].
  - rewrite rarity_weights_body_ok in Hraise by assumption. discriminate.
  - assert (Hov : float_max < Rpower 1.1 (L - 20)) by lra.
    rewrite rarity_weights_body_overflow in Hraise by assumption.
    split; [congruence | assumption].
Qed.

(** C4: whenever the computation of the weights raises, whatever the
    exception and however many tiers were already filled in,
    calculate_rarity_weights returns the dict of the ten tiers, in order,
    each at exactly zero. *)
Theorem C4_failure_resets_all_weights (L : R) (e : exn) :
  rarity_weights_body L = Raise e ->
  calculate_rarity_weights L
  = Ok (map (fun rarity => (rarity, PyFloat 0)) rarities).
Proof.
  intros Hraise.
  destruct (rarity_weights_body_raises L e Hraise) as [_ Hov].
  rewrite <- zero_weights_eq.
  now apply calculate_rarity_weights_overflow.
Qed.

Lemma C4_failure_resets_all_weights_witness :
  rarity_weights_body 10000 = Raise OverflowError /\
  calculate_rarity_weights 10000
  = Ok (map (fun rarity => (rarity, PyFloat 0)) rarities).
Proof.
  assert (H : rarity_weights_body 10000 = Raise OverflowError).
  { apply rarity_weights_body_overflow.
    apply immortal_power_overflows. lra. }
  split; [exact H | exact (C4_failure_resets_all_weights 10000 _ H)].
Defined.

(** ** Non-negative weights *)

(** Records, for every power and every floor in the goal, that it is
    positive, respectively non-negative. *)
Ltac sign_facts :=
  repeat match goal with
  | |- context [Rmax 0 ?x] =>
      let m := fresh "m" in let Hm := fresh "Hm" in
      pose proof (Rmax_l 0 x) as Hm;
      set (m := Rmax 0 x) in *; clearbody m
  end;
  repeat match goal with
  | |- context [Rpower ?b ?y] =>
      let p := fresh "p" in let Hp := fresh "Hp" in
      pose proof (Rpower_pos b y) as Hp;
      set (p := Rpower b y) in *; clearbody p
  end.

Ltac nonneg_product :=
  sign_facts; first [lra | repeat apply Rmult_le_pos; lra].

Lemma table_garbage_nonneg (L : R) : 0 <= table_garbage L.
Proof. unfold table_garbage. range_cases L; nonneg_product. Qed.

Lemma table_common_nonneg (L : R) : 0 <= table_common L.
Proof. unfold table_common. range_cases L; nonneg_product. Qed.

(** The rising formulas of Uncommon and Rare have no floor; they start at
    8 and 2 and grow from there. *)
Lemma uncommon_base_pos (L : R) : 1 <= L -> 8 <= 20 * Rpower 1.5 (L - 1) - 12.
Proof.
  intros HL. pose proof (Rpower_ge_1 1.5 (L - 1)). lra.
Qed.

Lemma rare_base_pos (L : R) : 1 <= L -> 2 <= 30 * Rpower 1.45 (L - 1) - 28.
Proof.
  intros HL. pose proof (Rpower_ge_1 1.45 (L - 1)). lra.
Qed.

Lemma table_uncommon_nonneg (L : R) : 0 <= table_uncommon L.
Proof.
  unfold table_uncommon. range_cases L; try lra.
  - pose proof (uncommon_base_pos L). lra.
  - pose proof (uncommon_base_pos L).
    pose proof (Rpower_pos 0.5 (L - 3)). nra.
Qed.

Lemma table_rare_nonneg (L : R) : 0 <= table_rare L.
Proof.
  unfold table_rare. range_cases L; try lra.
  - pose proof (rare_base_pos L). lra.
  - pose proof (rare_base_pos L).
    pose proof (Rpower_pos 0.55 (L - 5)). nra.
Qed.

Lemma table_epic_nonneg (L : R) : 0 <= table_epic L.
Proof. unfold table_epic. range_cases L; nonneg_product. Qed.

Lemma table_legendary_nonneg (L : R) : 0 <= table_legendary L.
Proof. unfold table_legendary. range_cases L; nonneg_product. Qed.

Lemma table_mythic_nonneg (L : R) : 0 <= table_mythic L.
Proof. unfold table_mythic. range_cases L; nonneg_product. Qed.

Lemma table_godly_nonneg (L : R) : 0 <= table_godly L.
Proof. unfold table_godly. range_cases L; nonneg_product. Qed.

Lemma table_divine_nonneg (L : R) : 0 <= table_divine L.
Proof. unfold table_divine. range_cases L; nonneg_product. Qed.

Lemma table_immortal_nonneg (L : R) : 0 <= table_immortal L.
Proof. unfold table_immortal. apply Rmax_l. Qed.

Lemma table_weights_nonneg (L : R) :
  Forall (fun kv => nonneg_float (snd kv)) (table_weights L).
Proof.
  unfold table_weights.
  repeat constructor; cbn [snd]; eexists; (split; [reflexivity |]).
  - apply table_garbage_nonneg.
  - apply table_common_nonneg.
  - apply table_uncommon_nonneg.
  - apply table_rare_nonneg.
  - apply table_epic_nonneg.
  - apply table_legendary_nonneg.
  - apply table_mythic_nonneg.
  - apply table_godly_nonneg.
  - apply table_divine_nonneg.
  - apply table_immortal_nonneg.
Qed.

Lemma zero_weights_nonneg :
  Forall (fun kv => nonneg_float (snd kv)) zero_weights.
Proof.
  rewrite zero_weights_eq.
  repeat constructor; cbn [snd]; exists 0; (split; [reflexivity | lra]).
Qed.

(** C7: for every zodiacLuck, calculate_rarity_weights returns a dict of
    the ten tiers whose every weight is a float that is greater than or
    equal to zero, the unfloored rising formulas of Uncommon and Rare
    included. *)
Theorem C7_weights_nonnegative (L : R) :
  exists weights : dict,
    calculate_rarity_weights L = Ok weights /\
    map fst weights = rarities /\
    Forall (fun kv => nonneg_float (snd kv)) weights.
Proof.
  destruct (Rle_dec (Rpower 1.1 (L - 20)) float_max) as [Hin | Hout].
  - exists (table_weights L). split; [| split].
    + now apply calculate_rarity_weights_ok.
    + reflexivity.
    + apply table_weights_nonneg.
  - exists zero_weights. split; [| split].
    + apply calculate_rarity_weights_overflow. lra.
    + reflexivity.
    + apply zero_weights_nonneg.
Qed.

(** ** Normalisation into chances *)

Lemma fold_left_Rplus_acc (xs : list R) (a : R) :
  fold_left Rplus xs a = a + Rsum xs.
Proof.
  unfold Rsum. revert a.
  induction xs as [| x xs IH]; intros a; simpl.
  - lra.
  - rewrite IH, (IH (0 + x)). lra.
Qed.

Lemma Rsum_cons (x : R) (xs : list R) : Rsum (x :: xs) = x + Rsum xs.
Proof. unfold Rsum at 1. simpl. rewrite fold_left_Rplus_acc. lra. Qed.

Lemma Rsum_app (xs ys : list R) : Rsum (xs ++ ys) = Rsum xs + Rsum ys.
Proof.
  induction xs as [| x xs IH]; simpl.
  - unfold Rsum at 2. simpl. lra.
  - rewrite !Rsum_cons, IH. lra.
Qed.

Lemma py_sum_float_dict (items : list (string * R)) :
  py_sum (map snd (float_dict items)) = PyFloat (Rsum (map snd items)).
Proof.
  unfold py_sum, Rsum.
  assert (Hgen : forall a,
    fold_left py_add (map snd (float_dict items)) (PyFloat a)
    = PyFloat (fold_left Rplus (map snd items) a)).
  { induction items as [| [k w] items IH]; intros a; simpl.
    - reflexivity.
    - apply IH. }
  apply Hgen.
Qed.

Lemma dict_set_fresh (d : dict) (k : string) (v : pyval) :
  ~ In k (map fst d) -> dict_set d k v = d ++ [(k, v)].
Proof.
  induction d as [| [k' v'] d IH]; intros Hfresh; simpl.
  - reflexivity.
  - simpl in Hfresh.
    destruct (String.eqb_spec k' k) as [-> | Hne].
    + exfalso. apply Hfresh. now left.
    + f_equal. apply IH. intros Hin. apply Hfresh. now right.
Qed.

(** The loop appends one chance per item, in order, when the keys are
    distinct and new to the dict built so far. *)
Lemma chances_loop_floats (items : list (string * R)) (T : R) (acc : dict) :
  T <> 0 ->
  NoDup (map fst items) ->
  (forall k, In k (map fst items) -> ~ In k (map fst acc)) ->
  chances_loop (float_dict items) (PyFloat T) acc
  = Ok (acc ++ float_dict (map (fun kv => (fst kv, snd kv / T * 100)) items)).
Proof.
  intros HT. revert acc.
  induction items as [| [k w] items IH]; intros acc Hnd Hfresh; simpl.
  - now rewrite app_nil_r.
  - rewrite Reqb_false by assumption. cbn [bind py_mul].
    inversion Hnd as [| ? ? Hk Hnd']; subst.
    rewrite dict_set_fresh by (apply Hfresh; now left).
    rewrite IH.
    + now rewrite <- app_assoc.
    + assumption.
    + intros k' Hin. rewrite map_app, in_app_iff. simpl.
      intros [Hacc | [<- | []]].
      * apply (Hfresh k'); [now right | assumption].
      * contradiction.
Qed.

Lemma zero_chances_fresh (keys : list string) (acc : dict) :
  NoDup keys ->
  (forall k, In k keys -> ~ In k (map fst acc)) ->
  fold_left (fun d rarity => dict_set d rarity (PyFloat 0)) keys acc
  = acc ++ map (fun rarity => (rarity, PyFloat 0)) keys.
Proof.
  revert acc.
  induction keys as [| k keys IH]; intros acc Hnd Hfresh; simpl.
  - now rewrite app_nil_r.
  - inversion Hnd as [| ? ? Hk Hnd']; subst.
    rewrite dict_set_fresh by (apply Hfresh; now left).
    rewrite IH.
    + now rewrite <- app_assoc.
    + assumption.
    + intros k' Hin. rewrite map_app, in_app_iff. simpl.
      intros [Hacc | [<- | []]].
      * apply (Hfresh k'); [now right | assumption].
      * contradiction.
Qed.

Lemma map_fst_float_dict (items : list (string * R)) :
  map fst (float_dict items) = map fst items.
Proof. unfold float_dict. rewrite map_map. reflexivity. Qed.

Lemma dict_total_float_dict (items : list (string * R)) :
  dict_total (float_dict items) = Rsum (map snd items).
Proof. unfold dict_total, float_dict. rewrite map_map. reflexivity. Qed.

Lemma Rsum_scaled (xs : list R) (c : R) :
  Rsum (map (fun x => x * c) xs) = Rsum xs * c.
Proof.
  induction xs as [| x xs IH]; simpl.
  - unfold Rsum. simpl. lra.
  - rewrite !Rsum_cons, IH. lra.
Qed.

Lemma calculate_rarity_chances_nonzero (items : list (string * R)) :
  NoDup (map fst items) ->
  Rsum (map snd items) <> 0 ->
  calculate_rarity_chances (float_dict items)
  = Ok (float_dict
          (map (fun kv => (fst kv, snd kv / Rsum (map snd items) * 100))
               items)).
Proof.
  intros Hnd HT. unfold calculate_rarity_chances.
  rewrite py_sum_float_dict.
  unfold py_is_zero. cbn [re_of im_of].
  rewrite (Reqb_false _ 0) by assumption. cbn [andb].
  rewrite chances_loop_floats; auto.
Qed.

Lemma calculate_rarity_chances_zero (items : list (string * R)) :
  NoDup (map fst items) ->
  Rsum (map snd items) = 0 ->
  calculate_rarity_chances (float_dict items)
  = Ok (float_dict (map (fun kv => (fst kv, 0)) items)).
Proof.
  intros Hnd HT. unfold calculate_rarity_chances.
  rewrite py_sum_float_dict.
  unfold py_is_zero. cbn [re_of im_of].
  rewrite !Reqb_true by (assumption || reflexivity). cbn [andb].
  rewrite map_fst_float_dict.
  rewrite zero_chances_fresh; auto.
  unfold float_dict. rewrite !map_map. reflexivity.
Qed.

Lemma normalised_chances_total (items : list (string * R)) :
  Rsum (map snd items) <> 0 ->
  dict_total
    (float_dict
       (map (fun kv => (fst kv, snd kv / Rsum (map snd items) * 100)) items))
  = 100.
Proof.
  intros HT. rewrite dict_total_float_dict, map_map. cbn [snd].
  set (total := Rsum (map snd items)) in *.
  replace (map (fun kv : string * R => snd kv / total * 100) items)
    with (map (fun x => x * (/ total * 100)) (map snd items)).
  - rewrite Rsum_scaled. fold total. field. exact HT.
  - rewrite map_map. apply map_ext. intros kv. unfold Rdiv. ring.
Qed.




(** ** The luck transform *)

Lemma float_pow_zero_base (y : R) : 0 < y -> float_pow 0 y = Ok (PyFloat 0).
Proof.
  intros Hy. unfold float_pow.
  rewrite Reqb_false by lra. rewrite Reqb_true by reflexivity.
  now rewrite Rltb_false by lra.
Qed.

Lemma Rpower_le_base (x y : R) : 1 <= x -> y <= 1 -> Rpower x y <= x.
Proof.
  intros Hx Hy. rewrite <- (Rpower_1 x) at 2 by lra.
  apply Rle_Rpower; assumption.
Qed.

Lemma calculate_zodiac_luck_present (self : ZodiacCalculator) (lk : R) :
  luck self = Some lk -> finite_float lk ->
  calculate_zodiac_luck self = Ok (Some (PyFloat (soft_cap lk))).
Proof.
  intros Hlk Hfin. unfold calculate_zodiac_luck, soft_cap.
  cbn [_has_required_inputs getattr]. rewrite Hlk. cbn [negb assert_present bind].
  destruct (Rlt_dec lk 18) as [Hlt | Hge].
  - rewrite Rltb_true by assumption. reflexivity.
  - rewrite Rltb_false by lra. unfold py_pow, real_pow.
    destruct (Req_dec_T (lk - 18) 0) as [Hz | Hnz].
    + rewrite Hz, float_pow_zero_base by lra.
      rewrite Reqb_true by reflexivity. rewrite Reqb_false by lra.
      reflexivity.
    + rewrite Reqb_false by assumption.
      rewrite float_pow_pos_ok; [reflexivity | lra |].
      unfold finite_float in Hfin.
      assert (Habs : lk <= float_max).
      { apply Rle_trans with (Rabs lk); [apply Rle_abs | assumption]. }
      destruct (Rle_dec (lk - 18) 1) as [Hsmall | Hbig].
      * apply Rle_trans with 1.
        -- apply Rpower_le_1_small_base; lra.
        -- pose proof float_max_pos; lra.
      * apply Rle_trans with (lk - 18); [| lra].
        apply Rpower_le_base; lra.
Qed.

Lemma soft_cap_18 : soft_cap 18 = 0.
Proof.
  unfold soft_cap, real_pow.
  rewrite Rltb_false by lra.
  rewrite Reqb_true by lra. rewrite Reqb_false by lra. lra.
Qed.

Lemma finite_float_18 : finite_float 18.
Proof.
  unfold finite_float. rewrite Rabs_right by lra.
  apply Rle_trans with (2 ^ 5); [simpl; lra | apply pow2_le_float_max; lia].
Qed.

(** C6: with luck absent the zodiac luck is unavailable; with a (finite)
    luck present it is the luck itself below 18 and (luck - 18)^0.3 * 18
    from 18 on, which is 0 at luck = 18. *)
Theorem C6_zodiac_luck (self : ZodiacCalculator) :
  match luck self with
  | None => calculate_zodiac_luck self = Ok None
  | Some lk =>
      finite_float lk ->
      calculate_zodiac_luck self = Ok (Some (PyFloat (soft_cap lk))) /\
      (lk < 18 -> soft_cap lk = lk) /\
      (18 <= lk -> soft_cap lk = real_pow (lk - 18) 0.3 * 18) /\
      (lk = 18 -> soft_cap lk = 0)
  end.
Proof.
  destruct (luck self) as [lk |] eqn:Hlk.
  - intros Hfin. split; [now apply calculate_zodiac_luck_present |].
    split; [| split].
    + intros H. unfold soft_cap. now rewrite Rltb_true.
    + intros H. unfold soft_cap. now rewrite Rltb_false.
    + intros ->. apply soft_cap_18.
  - unfold calculate_zodiac_luck. cbn [_has_required_inputs getattr].
    now rewrite Hlk.
Qed.

Lemma C6_zodiac_luck_witness :
  finite_float 18 /\
  calculate_zodiac_luck (mkCalc None None None (Some 18) None)
  = Ok (Some (PyFloat (soft_cap 18))) /\
  soft_cap 18 = 0.
Proof.
  pose proof (C6_zodiac_luck (mkCalc None None None (Some 18) None)
                finite_float_18) as [H1 [_ [_ H4]]].
  split; [exact finite_float_18 |].
  split; [exact H1 | exact (H4 eq_refl)].
Defined.

(** ** Sale price and score *)

Lemma Int_part_2 : Int_part 2 = 2%Z.
Proof. symmetry. apply Int_part_spec. lra. Qed.

Lemma Rpower_2 (x : R) : 0 < x -> Rpower x 2 = x * x.
Proof.
  intros Hx. rewrite (Rpower_natZ x 2 2) by (try assumption; reflexivity).
  simpl. ring.
Qed.

(** [l ** 2], when it does not overflow, is the square. *)
Lemma float_pow_square (l : R) (v : pyval) :
  float_pow l 2 = Ok v -> v = PyFloat (l * l).
Proof.
  unfold float_pow. rewrite Reqb_false by lra.
  destruct (Req_dec_T l 0) as [-> | Hnz].
  - rewrite Reqb_true by reflexivity. rewrite Rltb_false by lra.
    intros [= <-]. f_equal. ring.
  - rewrite Reqb_false by assumption.
    destruct (Rlt_dec l 0) as [Hneg | Hpos].
    + rewrite Rltb_true by assumption.
      unfold is_integer. rewrite Int_part_2. rewrite Reqb_true by reflexivity.
      cbn [Z.odd]. unfold libm_pow.
      destruct (Rltb float_max (Rpower (- l) 2)); [discriminate |].
      cbn [bind]. intros [= <-]. f_equal. rewrite Rpower_2 by lra. ring.
    + rewrite Rltb_false by lra. unfold libm_pow.
      destruct (Rltb float_max (Rpower l 2)); [discriminate |].
      cbn [bind]. intros [= <-]. f_equal. apply Rpower_2. lra.
Qed.


Lemma has_three_inputs (self : ZodiacCalculator) (r q l : R) :
  zodiac_rarity self = Some r -> zodiac_quality self = Some q ->
  zodiac_level self = Some l ->
  _has_required_inputs self
    [f_zodiac_rarity; f_zodiac_quality; f_zodiac_level] = true.
Proof.
  intros Hr Hq Hl. cbn [_has_required_inputs getattr].
  now rewrite Hr, Hq, Hl.
Qed.



(** The example of the specification: rarity 9, quality 10, level 50. *)
Lemma example_score_bounds :
  1 <= spec_score 9 10 50 / 10 <= 2 ^ 30.
Proof.
  unfold spec_score, spec_rarity_mult, spec_level_mult.
  rewrite Rltb_true by lra. rewrite Rleb_false by lra.
  assert (H1 : 1 <= Rpower 1.125 9) by (apply Rpower_ge_1; lra).
  assert (H2 : Rpower 1.125 9 <= 2 ^ 9).
  { rewrite <- (Rpower_natZ 2 9 9) by (try lra; reflexivity).
    apply Rle_Rpower_l; lra. }
  simpl in H2 |- *. lra.
Qed.


Lemma example_sale_price :
  calculate_zodiac_sale_price (mkCalc (Some 9) (Some 10) (Some 50) None None)
  = Ok (Some (PyFloat (Rpower (spec_score 9 10 50 / 10) 0.75 * Rpower 1.1 9))).
Proof.
  pose proof example_score_bounds as [Hlo Hhi].
  unfold calculate_zodiac_sale_price.
  cbn [_has_required_inputs getattr zodiac_rarity zodiac_quality zodiac_level
       negb assert_present bind].
  rewrite Rltb_true by lra. rewrite Rleb_false by lra.
  cbn [bind py_pow].
  rewrite float_pow_pos_ok by (try lra; apply Rpower_in_range; intros; lra).
  rewrite float_pow_pos_ok.
  2: lra.
  2:{ rewrite Rpower_2 by lra.
      apply Rle_trans with (2 ^ 12); [simpl; lra | apply pow2_le_float_max; lia]. }
  cbn [bind py_mul py_add py_div]. rewrite Reqb_false by lra.
  cbn [bind py_pow].
  replace (Rpower 1.125 9 * 10 * (9 + Rpower 50 2) * 2 * 1 / 10)
    with (spec_score 9 10 50 / 10).
  2:{ unfold spec_score, spec_rarity_mult, spec_level_mult.
      rewrite Rltb_true by lra. rewrite Rleb_false by lra.
      rewrite Rpower_2 by lra. reflexivity. }
  rewrite float_pow_pos_ok.
  2: lra.
  2:{ apply Rle_trans with (spec_score 9 10 50 / 10).
      - apply Rpower_le_base; lra.
      - apply Rle_trans with (2 ^ 30); [assumption |].
        apply pow2_le_float_max; lia. }
  rewrite float_pow_pos_ok by (try lra; apply Rpower_in_range; intros; lra).
  reflexivity.
Qed.


(** ** A complex sale price *)

Lemma Int_part_three_quarters : Int_part 0.75 = 0%Z.
Proof. symmetry. apply Int_part_spec. lra. Qed.

(** A negative float raised to a fractional exponent is a complex number of
    modulus [|x|^y] and argument [pi * y]; nothing is raised. *)
Lemma float_pow_negative_fractional (x y : R) :
  0 < x -> IZR (Int_part y) <> y -> Rpower x y <= float_max ->
  float_pow (Ropp x) y
  = Ok (PyComplex (Rpower x y * cos (PI * y)) (Rpower x y * sin (PI * y))).
Proof.
  intros Hx Hfrac Hle. unfold float_pow.
  assert (Hy : y <> 0).
  { intros ->. apply Hfrac.
    replace (Int_part 0) with 0%Z; [reflexivity |].
    apply Int_part_spec. lra. }
  rewrite (Reqb_false y) by assumption.
  rewrite Reqb_false by lra. rewrite Rltb_true by lra.
  unfold is_integer. rewrite Reqb_false by assumption.
  unfold complex_pow. cbn [re_of im_of].
  rewrite (Reqb_false y) by assumption. cbn [andb].
  rewrite (Reqb_false (- x)) by lra. cbn [andb].
  rewrite (Reqb_true 0 0) by reflexivity.
  replace (sqrt (- x * - x + 0 * 0)) with x.
  2:{ replace (- x * - x + 0 * 0) with (x * x) by ring.
      symmetry. apply sqrt_square. lra. }
  rewrite libm_pow_ok by assumption. cbn [bind].
  unfold atan2. rewrite !(Rltb_false 0 0) by lra.
  rewrite Rltb_true by lra. reflexivity.
Qed.

(** C3 (the code at the failing input): with rarity 0, quality -1 and
    level 0 every input is present and no exception is raised, yet the sale
    price that comes back is neither None nor a real number: it is the
    complex value of (-0.9) ** 0.75, with a positive imaginary part. *)
Theorem C3_sale_price_complex_result :
  exists re im : R,
    calculate_zodiac_sale_price
      (mkCalc (Some 0) (Some (-1)) (Some 0) None None)
    = Ok (Some (PyComplex re im)) /\
    0 < im.
Proof.
  exists (Rpower 0.9 0.75 * cos (PI * 0.75)),
         (Rpower 0.9 0.75 * sin (PI * 0.75)).
  split.
  - unfold calculate_zodiac_sale_price.
    cbn [_has_required_inputs getattr zodiac_rarity zodiac_quality
         zodiac_level negb assert_present bind].
    rewrite Rltb_false by lra. rewrite Rleb_false by lra.
    cbn [bind py_pow].
    assert (E1 : forall b, float_pow b 0 = Ok (PyFloat 1)).
    { intros b. unfold float_pow. now rewrite Reqb_true. }
    rewrite !E1. rewrite float_pow_zero_base by lra.
    cbn [bind py_mul py_add py_div]. rewrite Reqb_false by lra.
    cbn [bind py_pow].
    replace (1 * -1 * (9 + 0) * 1 * 1 / 10) with (Ropp 0.9) by lra.
    rewrite float_pow_negative_fractional.
    + cbn [bind py_mul re_of im_of try_except].
      do 3 f_equal; ring.
    + lra.
    + rewrite Int_part_three_quarters. lra.
    + apply Rle_trans with 1.
      * apply Rpower_le_1_small_base; lra.
      * pose proof float_max_pos; lra.
  - apply Rmult_lt_0_compat; [apply Rpower_pos |].
    pose proof PI_RGT_0.
    apply sin_gt_0; lra.
Qed.

(** ** The tiers cover every luck from 1 on *)

Lemma table_weights_float_dict (L : R) :
  table_weights L
  = float_dict
      [("Garbage", table_garbage L); ("Common", table_common L);
       ("Uncommon", table_uncommon L); ("Rare", table_rare L);
       ("Epic", table_epic L); ("Legendary", table_legendary L);
       ("Mythic", table_mythic L); ("Godly", table_godly L);
       ("Divine", table_divine L); ("Immortal", table_immortal L)]%string.
Proof. reflexivity. Qed.

Lemma rarities_NoDup : NoDup rarities.
Proof.
  unfold rarities.
  repeat (constructor; [simpl; intuition discriminate |]).
  constructor.
Qed.

(** Rare is positive on [1, 12). *)
Lemma table_rare_pos (L : R) : 1 <= L < 12 -> 0 < table_rare L.
Proof.
  intros HL. unfold table_rare. range_cases L; try lra.
  - pose proof (rare_base_pos L). lra.
  - pose proof (rare_base_pos L).
    pose proof (Rpower_pos 0.55 (L - 5)). nra.
Qed.

(** Godly is positive on [12, 60). *)
Lemma table_godly_pos (L : R) : 12 <= L < 60 -> 0 < table_godly L.
Proof.
  intros HL.
  assert (Hbase : 0 < 150 * Rpower 1.25 (L - 8) - 200).
  { assert (H4 : Rpower 1.25 4 <= Rpower 1.25 (L - 8))
      by (apply Rle_Rpower; lra).
    rewrite (Rpower_natZ 1.25 4 4) in H4 by (try lra; reflexivity).
    simpl in H4. lra. }
  unfold table_godly. range_cases L; try lra.
  - rewrite Rmax_right; lra.
  - rewrite Rmax_right by lra.
    pose proof (Rpower_pos 0.7 (L - 30)). nra.
Qed.

(** Immortal is positive from 26 on. *)
Lemma table_immortal_pos (L : R) : 26 <= L -> 0 < table_immortal L.
Proof.
  intros HL.
  assert (H6 : Rpower 1.1 6 <= Rpower 1.1 (L - 20))
    by (apply Rle_Rpower; lra).
  rewrite (Rpower_natZ 1.1 6 6) in H6 by (try lra; reflexivity).
  simpl in H6. unfold table_immortal. rewrite Rmax_right; lra.
Qed.

Lemma table_total_pos (L : R) :
  1 <= L ->
  0 < table_garbage L + table_common L + table_uncommon L + table_rare L
      + table_epic L + table_legendary L + table_mythic L + table_godly L
      + table_divine L + table_immortal L.
Proof.
  intros HL.
  pose proof (table_garbage_nonneg L). pose proof (table_common_nonneg L).
  pose proof (table_uncommon_nonneg L). pose proof (table_rare_nonneg L).
  pose proof (table_epic_nonneg L). pose proof (table_legendary_nonneg L).
  pose proof (table_mythic_nonneg L). pose proof (table_godly_nonneg L).
  pose proof (table_divine_nonneg L). pose proof (table_immortal_nonneg L).
  destruct (Rlt_dec L 12) as [H12 | H12].
  - pose proof (table_rare_pos L). lra.
  - destruct (Rlt_dec L 60) as [H60 | H60].
    + pose proof (table_godly_pos L). lra.
    + pose proof (table_immortal_pos L). lra.
Qed.

(** C10: for every zodiacLuck of at least 1 at which the weight computation
    succeeds (the [try] body returns, and its largest intermediate value,
    the Immortal product 300 * 1.1 ** (L - 20), is a finite float), some tier
    has a strictly positive weight (Rare below 12, Godly from 12 to 60,
    Immortal from 26 on), the total weight is strictly positive, and
    calculate_rarity_chances on these weights takes the normalising branch:
    the chances add up to 100. *)
Theorem C10_some_weight_positive (L : R) (weights : dict) :
  1 <= L ->
  300 * Rpower 1.1 (L - 20) <= float_max ->
  rarity_weights_body L = Ok weights ->
  calculate_rarity_weights L = Ok weights /\
  (exists (rarity : string) (w : R),
      In (rarity, PyFloat w) weights /\ 0 < w) /\
  0 < dict_total weights /\
  (26 <= L -> dict_get weights "Immortal" = Some (PyFloat (table_immortal L))
              /\ 0 < table_immortal L) /\
  exists chances : dict,
    calculate_rarity_chances weights = Ok chances /\
    map fst chances = rarities /\
    dict_total chances = 100.
Proof.
  intros HL Hprod Hbody.
  assert (Hin : Rpower 1.1 (L - 20) <= float_max)
    by (apply immortal_power_below_product; exact Hprod).
  rewrite rarity_weights_body_ok in Hbody by assumption.
  injection Hbody as <-.
  pose proof (table_total_pos L HL) as Htot.
  assert (Hsum : dict_total (table_weights L)
                 = table_garbage L + table_common L + table_uncommon L
                   + table_rare L + table_epic L + table_legendary L
                   + table_mythic L + table_godly L + table_divine L
                   + table_immortal L).
  { unfold dict_total, table_weights, Rsum. simpl. lra. }
  split; [now apply calculate_rarity_weights_ok |].
  split.
  { destruct (Rlt_dec L 12) as [H12 | H12].
    - exists "Rare"%string, (table_rare L). split.
      + unfold table_weights. simpl. tauto.
      + apply table_rare_pos. lra.
    - destruct (Rlt_dec L 60) as [H60 | H60].
      + exists "Godly"%string, (table_godly L). split.
        * unfold table_weights. simpl. tauto.
        * apply table_godly_pos. lra.
      + exists "Immortal"%string, (table_immortal L). split.
        * unfold table_weights. simpl. tauto.
        * apply table_immortal_pos. lra. }
  split; [rewrite Hsum; exact Htot |].
  split.
  { intros H26. split; [reflexivity | now apply table_immortal_pos]. }
  rewrite table_weights_float_dict.
  match goal with
  | |- context [float_dict ?l] => set (items := l)
  end.
  assert (Hnd : NoDup (map fst items)) by exact rarities_NoDup.
  assert (Hne : Rsum (map snd items) <> 0).
  { rewrite <- dict_total_float_dict. subst items.
    rewrite <- table_weights_float_dict, Hsum. lra. }
  exists (float_dict
            (map (fun kv => (fst kv, snd kv / Rsum (map snd items) * 100))
                 items)).
  split; [now apply calculate_rarity_chances_nonzero |].
  split; [| now apply normalised_chances_total].
  rewrite map_fst_float_dict, map_map. reflexivity.
Qed.

Lemma C10_some_weight_positive_witness :
  1 <= 1 /\
  300 * Rpower 1.1 (1 - 20) <= float_max /\
  rarity_weights_body 1 = Ok (table_weights 1) /\
  0 < dict_total (table_weights 1) /\
  exists chances : dict,
    calculate_rarity_chances (table_weights 1) = Ok chances /\
    dict_total chances = 100.
Proof.
  assert (H1 : 1 <= 1) by lra.
  assert (Hprod : 300 * Rpower 1.1 (1 - 20) <= float_max).
  { apply immortal_product_in_range. lra. }
  assert (Hbody : rarity_weights_body 1 = Ok (table_weights 1)).
  { apply rarity_weights_body_ok. apply immortal_power_in_range. lra. }
  destruct (C10_some_weight_positive 1 (table_weights 1) H1 Hprod Hbody)
    as (_ & _ & Htot & _ & chances & Hch & _ & H100).
  split; [exact H1 |]. split; [exact Hprod |]. split; [exact Hbody |].
  split; [exact Htot |].
  exists chances. split; [exact Hch | exact H100].
Defined.

(** ** The weight the code reports, tier by tier *)

Lemma overflow_beyond_ranges (L : R) :
  float_max < Rpower 1.1 (L - 20) -> 70 <= L.
Proof.
  intros Hov.
  destruct (Rle_dec 70 L) as [H | H]; [assumption |].
  pose proof (immortal_power_in_range (L - 20)). lra.
Qed.

(** The nine gated tiers report the table's weight at every luck: where
    the Immortal power overflows they are past their ranges and zero in
    the table as well. *)
Ltac weight_of_gated L tbl :=
  unfold weight_of;
  destruct (Rle_dec (Rpower 1.1 (L - 20)) float_max) as [Hin | Hout];
  [ rewrite calculate_rarity_weights_ok by assumption; reflexivity
  | rewrite calculate_rarity_weights_overflow by lra;
    assert (H70 : 70 <= L) by (apply overflow_beyond_ranges; lra);
    unfold tbl; repeat rewrite between_false by (right; lra);
    reflexivity ].

Lemma weight_of_garbage (L : R) : weight_of "Garbage" L = table_garbage L.
Proof. weight_of_gated L table_garbage. Qed.

Lemma weight_of_common (L : R) : weight_of "Common" L = table_common L.
Proof. weight_of_gated L table_common. Qed.

Lemma weight_of_uncommon (L : R) : weight_of "Uncommon" L = table_uncommon L.
Proof. weight_of_gated L table_uncommon. Qed.

Lemma weight_of_rare (L : R) : weight_of "Rare" L = table_rare L.
Proof. weight_of_gated L table_rare. Qed.

Lemma weight_of_epic (L : R) : weight_of "Epic" L = table_epic L.
Proof. weight_of_gated L table_epic. Qed.

Lemma weight_of_legendary (L : R) :
  weight_of "Legendary" L = table_legendary L.
Proof. weight_of_gated L table_legendary. Qed.

Lemma weight_of_mythic (L : R) : weight_of "Mythic" L = table_mythic L.
Proof. weight_of_gated L table_mythic. Qed.

Lemma weight_of_godly (L : R) : weight_of "Godly" L = table_godly L.
Proof. weight_of_gated L table_godly. Qed.

Lemma weight_of_divine (L : R) : weight_of "Divine" L = table_divine L.
Proof. weight_of_gated L table_divine. Qed.

(** ** Decay beyond the rise phase *)

Lemma Rpower_small_base_decr (b y1 y2 : R) :
  0 < b <= 1 -> y1 <= y2 -> Rpower b y2 <= Rpower b y1.
Proof.
  intros Hb Hy.
  replace y2 with (y1 + (y2 - y1)) by ring. rewrite Rpower_plus.
  pose proof (Rpower_pos b y1).
  pose proof (Rpower_pos b (y2 - y1)).
  pose proof (Rpower_le_1_small_base b (y2 - y1) Hb). nra.
Qed.

(** [1 - P^n <= n * (1 - P)] on the unit interval. *)
Lemma one_minus_pow_le (P : R) (n : nat) :
  0 <= P <= 1 -> 1 - P ^ n <= INR n * (1 - P).
Proof.
  intros HP. induction n as [| n IH].
  - simpl. lra.
  - rewrite S_INR. simpl.
    assert (Hn : 0 <= INR n) by apply pos_INR.
    assert (Hpn : 0 <= P ^ n <= 1).
    { split; [apply pow_le; lra |].
      rewrite <- (pow1 n). apply pow_incr. lra. }
    nra.
Qed.

Lemma Rpower_pow_base (p h : R) (n : nat) :
  0 < p -> Rpower (p ^ n) h = Rpower p h ^ n.
Proof.
  intros Hp.
  rewrite <- (Rpower_pow n p) by assumption.
  rewrite Rpower_mult, Rmult_comm, <- Rpower_mult.
  apply Rpower_pow. apply Rpower_pos.
Qed.

(** The step behind every decay range: a rise [A * a^x - B] times a decay
    [d^x] does not increase in [x] once [A] dominates [n * B], where
    [(a * d)^n <= d]: the decay then outruns the rise. *)
Lemma decay_step (A a d B : R) (n : nat) (x h : R) :
  1 <= a -> 0 < d <= 1 -> a * d <= 1 -> (a * d) ^ n <= d ->
  0 <= B -> INR n * B <= A -> 0 <= x -> 0 <= h ->
  (A * Rpower a (x + h) - B) * Rpower d (x + h)
  <= (A * Rpower a x - B) * Rpower d x.
Proof.
  intros Ha Hd Had Hn HB HA Hx Hh.
  rewrite !Rpower_plus.
  assert (Hdist : Rpower a h * Rpower d h = Rpower (a * d) h)
    by (apply Rpower_mult_distr; lra).
  set (P := Rpower (a * d) h) in *.
  pose proof (Rpower_pos a x) as Hax0.
  pose proof (Rpower_ge_1 a x Ha Hx) as Hax.
  pose proof (Rpower_pos d x) as Hdx.
  pose proof (Rpower_pos d h) as HD0.
  assert (HP : 0 <= P <= 1).
  { split; [left; apply Rpower_pos |].
    apply Rpower_le_1_small_base; [nra | assumption]. }
  assert (HD : P ^ n <= Rpower d h).
  { unfold P. rewrite <- Rpower_pow_base by nra.
    apply Rle_Rpower_l; [assumption |].
    split; [apply pow_lt; nra | assumption]. }
  pose proof (one_minus_pow_le P n HP) as Hbern.
  assert (Hn0 : 0 <= INR n) by apply pos_INR.
  assert (Hkey : B * (1 - Rpower d h) <= A * Rpower a x * (1 - P)).
  { apply Rle_trans with (B * (INR n * (1 - P))).
    - apply Rmult_le_compat_l; lra.
    - apply Rle_trans with (A * (1 - P)); [nra |].
      assert (HA0 : 0 <= A) by nra.
      assert (HAP : 0 <= A * (1 - P)) by (apply Rmult_le_pos; lra).
      replace (A * Rpower a x * (1 - P)) with (A * (1 - P) * Rpower a x)
        by ring.
      rewrite <- (Rmult_1_r (A * (1 - P))) at 1.
      apply Rmult_le_compat_l; assumption. }
  set (D := Rpower d h) in *. set (AX := Rpower a x) in *.
  set (DX := Rpower d x) in *. set (AH := Rpower a h) in *.
  replace ((A * (AX * AH) - B) * (DX * D))
    with (DX * (A * AX * (AH * D) - B * D)) by ring.
  rewrite Hdist.
  replace ((A * AX - B) * DX) with (DX * (A * AX - B)) by ring.
  apply Rmult_le_compat_l; lra.
Qed.

(** The same with the offsets of the source: the rise counts from [c], the
    decay from the breakpoint [b >= c + k]. *)
Lemma decay_mono (A a c B d b : R) (n k : nat) (L1 L2 : R) :
  1 <= a -> 0 < d <= 1 -> a * d <= 1 -> (a * d) ^ n <= d ->
  0 <= B -> 0 <= A -> INR k <= b - c -> INR n * B <= A * a ^ k ->
  b <= L1 -> L1 <= L2 ->
  (A * Rpower a (L2 - c) - B) * Rpower d (L2 - b)
  <= (A * Rpower a (L1 - c) - B) * Rpower d (L1 - b).
Proof.
  intros Ha Hd Had Hn HB HA0 Hk HA H1 H2.
  assert (Hsplit : forall L, Rpower a (L - c)
                             = Rpower a (b - c) * Rpower a (L - b)).
  { intros L. rewrite <- Rpower_plus. f_equal. ring. }
  rewrite (Hsplit L1), (Hsplit L2).
  replace (L2 - b) with ((L1 - b) + (L2 - L1)) by ring.
  rewrite <- !Rmult_assoc.
  apply decay_step with (n := n); try assumption; try lra.
  apply Rle_trans with (A * a ^ k); [assumption |].
  apply Rmult_le_compat_l; [assumption |].
  rewrite <- Rpower_pow by lra.
  apply Rle_Rpower; assumption.
Qed.

(** The rise is positive wherever the decay applies, so the floor is not
    active there. *)
Lemma rise_pos (A a c B : R) (k : nat) (L : R) :
  1 <= a -> 0 <= A -> B < A * a ^ k -> INR k <= L - c ->
  0 < A * Rpower a (L - c) - B.
Proof.
  intros Ha HA HB Hk.
  assert (H : a ^ k <= Rpower a (L - c)).
  { rewrite <- Rpower_pow by lra. apply Rle_Rpower; assumption. }
  nra.
Qed.

Lemma table_garbage_decreasing (L1 L2 : R) :
  2 <= L1 -> L1 <= L2 -> table_garbage L2 <= table_garbage L1.
Proof.
  intros H1 H2. unfold table_garbage.
  range_cases L1; range_cases L2; try lra; try nonneg_product.
  pose proof (Rpower_small_base_decr 0.8 (L1 - 1) (L2 - 1)).
  pose proof (Rpower_small_base_decr 0.4 (L1 - 2) (L2 - 2)).
  pose proof (Rpower_pos 0.8 (L2 - 1)). pose proof (Rpower_pos 0.4 (L2 - 2)).
  pose proof (Rpower_pos 0.8 (L1 - 1)). pose proof (Rpower_pos 0.4 (L1 - 2)).
  rewrite !Rmult_assoc. apply Rmult_le_compat_l; [lra |].
  apply Rmult_le_compat; lra.
Qed.

Lemma table_common_decreasing (L1 L2 : R) :
  2 <= L1 -> L1 <= L2 -> table_common L2 <= table_common L1.
Proof.
  intros H1 H2. unfold table_common.
  range_cases L1; range_cases L2; try lra; try nonneg_product.
  pose proof (Rpower_small_base_decr 0.45 (L1 - 2) (L2 - 2)). lra.
Qed.

(** Inside a decay range: drop the floors, which are not active there, and
    compare by [decay_mono] with the given [n] and [k]. *)
Ltac decay_range n0 k0 :=
  repeat rewrite Rmax_right
    by (left; apply rise_pos with (k := k0); simpl; lra);
  apply decay_mono with (n := n0) (k := k0); simpl; lra.

Lemma table_uncommon_decreasing (L1 L2 : R) :
  3 <= L1 -> L1 <= L2 -> table_uncommon L2 <= table_uncommon L1.
Proof.
  intros H1 H2. unfold table_uncommon.
  range_cases L1; range_cases L2; try lra.
  - decay_range 3%nat 2%nat.
  - pose proof (uncommon_base_pos L1).
    pose proof (Rpower_pos 0.5 (L1 - 3)). nra.
Qed.

Lemma table_rare_decreasing (L1 L2 : R) :
  5 <= L1 -> L1 <= L2 -> table_rare L2 <= table_rare L1.
Proof.
  intros H1 H2. unfold table_rare.
  range_cases L1; range_cases L2; try lra.
  - decay_range 3%nat 4%nat.
  - pose proof (rare_base_pos L1).
    pose proof (Rpower_pos 0.55 (L1 - 5)). nra.
Qed.

Lemma table_epic_decreasing (L1 L2 : R) :
  8 <= L1 -> L1 <= L2 -> table_epic L2 <= table_epic L1.
Proof.
  intros H1 H2. unfold table_epic.
  range_cases L1; range_cases L2; try lra; try nonneg_product.
  decay_range 3%nat 4%nat.
Qed.

Lemma table_legendary_decreasing (L1 L2 : R) :
  12 <= L1 -> L1 <= L2 -> table_legendary L2 <= table_legendary L1.
Proof.
  intros H1 H2. unfold table_legendary.
  range_cases L1; range_cases L2; try lra; try nonneg_product.
  decay_range 4%nat 6%nat.
Qed.

Lemma table_mythic_decreasing (L1 L2 : R) :
  20 <= L1 -> L1 <= L2 -> table_mythic L2 <= table_mythic L1.
Proof.
  intros H1 H2. unfold table_mythic.
  range_cases L1; range_cases L2; try lra; try nonneg_product.
  decay_range 3%nat 5%nat.
Qed.

Lemma table_godly_decreasing (L1 L2 : R) :
  30 <= L1 -> L1 <= L2 -> table_godly L2 <= table_godly L1.
Proof.
  intros H1 H2. unfold table_godly.
  range_cases L1; range_cases L2; try lra; try nonneg_product.
  decay_range 3%nat 7%nat.
Qed.

(** From 50 on the two decay factors of Divine combine into
    [0.92^10 * 0.69^(L - 50)]. *)
Lemma divine_decay_factors (L : R) :
  Rpower 0.92 (L - 40) * Rpower 0.75 (L - 50)
  = Rpower 0.92 10 * Rpower 0.69 (L - 50).
Proof.
  replace (L - 40) with (10 + (L - 50)) by ring.
  rewrite Rpower_plus, Rmult_assoc.
  rewrite Rpower_mult_distr by lra.
  do 2 f_equal. lra.
Qed.

Lemma table_divine_decreasing (L1 L2 : R) :
  50 <= L1 -> L1 <= L2 -> table_divine L2 <= table_divine L1.
Proof.
  intros H1 H2. unfold table_divine.
  range_cases L1; range_cases L2; try lra; try nonneg_product.
  rewrite !Rmult_assoc, !divine_decay_factors.
  pose proof (Rpower_pos 0.92 10) as Hc.
  set (c10 := Rpower 0.92 10) in *.
  assert (Hcore :
    (200 * Rpower 1.2 (L2 - 12) - 300) * Rpower 0.69 (L2 - 50)
    <= (200 * Rpower 1.2 (L1 - 12) - 300) * Rpower 0.69 (L1 - 50)).
  { apply decay_mono with (n := 2%nat) (k := 7%nat); simpl; lra. }
  repeat rewrite Rmax_right
    by (left; apply rise_pos with (k := 7%nat); simpl; lra).
  set (X2 := 200 * Rpower 1.2 (L2 - 12) - 300) in *.
  set (X1 := 200 * Rpower 1.2 (L1 - 12) - 300) in *.
  replace (X2 * (c10 * Rpower 0.69 (L2 - 50)))
    with (c10 * (X2 * Rpower 0.69 (L2 - 50))) by ring.
  replace (X1 * (c10 * Rpower 0.69 (L1 - 50)))
    with (c10 * (X1 * Rpower 0.69 (L1 - 50))) by ring.
  apply Rmult_le_compat_l; lra.
Qed.

(** C9, as stated, fails for Divine: 40 and 41 both lie at or beyond its
    first decay breakpoint 40, and the weight at 41 is larger, because the
    rise factor 1.2 outgrows the decay factor 0.92. *)
Lemma C9_divine_rises_after_40 :
  In ("Divine"%string, 40) first_decay_breakpoints /\
  40 <= 40 /\ 40 <= 41 /\
  weight_of "Divine" 40 < weight_of "Divine" 41.
Proof.
  split; [unfold first_decay_breakpoints; simpl; tauto |].
  split; [lra |]. split; [lra |].
  rewrite !weight_of_divine. unfold table_divine.
  rewrite (between_false 1 40 40) by (right; lra).
  rewrite (between_true 40 40 50) by lra.
  rewrite (between_false 1 41 40) by (right; lra).
  rewrite (between_true 40 41 50) by lra.
  replace (41 - 12) with ((40 - 12) + 1) by lra.
  replace (40 - 40) with 0 by lra. replace (41 - 40) with 1 by lra.
  rewrite Rpower_plus, Rpower_O, !Rpower_1 by lra.
  assert (H3 : Rpower 1.2 3 <= Rpower 1.2 (40 - 12))
    by (apply Rle_Rpower; lra).
  rewrite (Rpower_natZ 1.2 3 3) in H3 by (try lra; reflexivity).
  simpl in H3.
  set (P := Rpower 1.2 (40 - 12)) in *.
  rewrite !Rmax_right by lra. lra.
Qed.

(** C9 (amended): for every tier with a decay phase other than Divine, and
    all L1 <= L2 at or beyond its first decay breakpoint, the weight at L2
    is at most the weight at L1; for Divine this holds for L1 <= L2 at or
    beyond 50, its second breakpoint. *)
Theorem C9_weights_decay (rarity : string) (b L1 L2 : R) :
  In (rarity, b) decay_starts ->
  b <= L1 -> L1 <= L2 ->
  weight_of rarity L2 <= weight_of rarity L1.
Proof.
  intros Hin H1 H2. unfold decay_starts in Hin. simpl in Hin.
  repeat (destruct Hin as [Heq | Hin];
          [injection Heq as <- <- |]); try contradiction.
  - rewrite !weight_of_garbage. now apply table_garbage_decreasing.
  - rewrite !weight_of_common. now apply table_common_decreasing.
  - rewrite !weight_of_uncommon. now apply table_uncommon_decreasing.
  - rewrite !weight_of_rare. now apply table_rare_decreasing.
  - rewrite !weight_of_epic. now apply table_epic_decreasing.
  - rewrite !weight_of_legendary. now apply table_legendary_decreasing.
  - rewrite !weight_of_mythic. now apply table_mythic_decreasing.
  - rewrite !weight_of_godly. now apply table_godly_decreasing.
  - rewrite !weight_of_divine. now apply table_divine_decreasing.
Qed.

Lemma C9_weights_decay_witness :
  In ("Uncommon"%string, 3) decay_starts /\ 3 <= 3 /\ 3 <= 4 /\
  weight_of "Uncommon" 4 <= weight_of "Uncommon" 3.
Proof.
  assert (Hin : In ("Uncommon"%string, 3) decay_starts).
  { unfold decay_starts. simpl. tauto. }
  assert (H1 : 3 <= 3) by lra.
  assert (H2 : 3 <= 4) by lra.
  split; [exact Hin |]. split; [exact H1 |]. split; [exact H2 |].
  exact (C9_weights_decay "Uncommon" 3 3 4 Hin H1 H2).
Defined.

(** ** Continuity at the decay breakpoints *)

Lemma Rmax0_lipschitz (x y : R) : Rabs (Rmax 0 x - Rmax 0 y) <= Rabs (x - y).
Proof.
  unfold Rmax.
  destruct (Rle_dec 0 x); destruct (Rle_dec 0 y);
    unfold Rabs; repeat destruct (Rcase_abs _); lra.
Qed.

Lemma continuity_pt_Rmax0 (f : R -> R) (x0 : R) :
  continuity_pt f x0 -> continuity_pt (fun x => Rmax 0 (f x)) x0.
Proof.
  intros Hf eps Heps.
  destruct (Hf eps Heps) as (alp & Halp & Hlim).
  exists alp. split; [assumption |].
  intros x Hx. specialize (Hlim x Hx).
  simpl in *. unfold Rdist in *.
  eapply Rle_lt_trans; [apply Rmax0_lipschitz | exact Hlim].
Qed.

Lemma continuity_pt_Rpower_exponent (a c x0 : R) :
  continuity_pt (fun L => Rpower a (L - c)) x0.
Proof.
  apply derivable_continuous_pt. unfold Rpower. reg.
Qed.

Lemma continuity_pt_rise (A a c B x0 : R) :
  continuity_pt (fun L => A * Rpower a (L - c) - B) x0.
Proof.
  apply derivable_continuous_pt. unfold Rpower. reg.
Qed.

Lemma continuity_pt_product (f g : R -> R) (x0 : R) :
  continuity_pt f x0 -> continuity_pt g x0 ->
  continuity_pt (fun x => f x * g x) x0.
Proof. intros Hf Hg. exact (continuity_pt_mult f g x0 Hf Hg). Qed.

(** The decay factor as one function on both sides of the breakpoint:
    1 below it and [d^(L - b)] from it on. *)
Lemma continuity_pt_decay_factor (d b x0 : R) :
  continuity_pt (fun L => Rpower d (Rmax 0 (L - b))) x0.
Proof.
  apply (continuity_pt_comp (fun L => Rmax 0 (L - b)) (fun y => Rpower d y)).
  - apply continuity_pt_Rmax0.
    apply derivable_continuous_pt. reg.
  - apply derivable_continuous_pt. unfold Rpower. reg.
Qed.

(** A weight that follows [base] just below the breakpoint [b] and
    [base * d^(L - b)] from [b] on is continuous at [b]: the added factor
    is 1 at the breakpoint. *)
Lemma continuity_at_breakpoint (w base : R -> R) (d b : R) :
  0 < d ->
  continuity_pt base b ->
  (forall L, b - 1 < L < b -> w L = base L) ->
  (forall L, b <= L < b + 1 -> w L = base L * Rpower d (L - b)) ->
  continuity_pt w b.
Proof.
  intros Hd Hbase Hlow Hhigh.
  apply (continuity_pt_locally_ext
           (fun L => base L * Rpower d (Rmax 0 (L - b))) w 1 b).
  - lra.
  - intros L HL. unfold Rdist in HL.
    assert (Hnear : b - 1 < L < b + 1).
    { unfold Rabs in HL. destruct (Rcase_abs (L - b)); lra. }
    destruct (Rlt_dec L b) as [Hlt | Hge].
    + rewrite Rmax_left by lra. rewrite Rpower_O by assumption.
      rewrite Hlow by lra. ring.
    + rewrite Rmax_right by lra. rewrite Hhigh by lra. reflexivity.
  - apply continuity_pt_product; [assumption |].
    apply continuity_pt_decay_factor.
Qed.

(** Evaluates the range tests of a table entry for a luck whose position
    is known from the context. *)
Ltac pick_range :=
  repeat first
    [ rewrite between_true by lra
    | rewrite between_false by (first [left; lra | right; lra]) ];
  try reflexivity.

(** Around each breakpoint the code follows the lower formula below it and
    the lower formula times the added factor from it on. *)
Lemma breakpoint_branches (bp : breakpoint) :
  In bp decay_breakpoints ->
  0 < bp_decay bp /\
  continuity_pt (bp_lower bp) (bp_at bp) /\
  (forall L, bp_at bp - 1 < L < bp_at bp ->
             weight_of (bp_rarity bp) L = bp_lower bp L) /\
  (forall L, bp_at bp <= L < bp_at bp + 1 ->
             weight_of (bp_rarity bp) L
             = bp_lower bp L * Rpower (bp_decay bp) (L - bp_at bp)).
Proof.
  intros Hin. unfold decay_breakpoints in Hin. simpl in Hin.
  repeat (destruct Hin as [<- | Hin]); try contradiction;
    cbn [bp_rarity bp_at bp_lower bp_decay];
    (split; [lra |]); (split; [| split; intros L HL]).
  - apply derivable_continuous_pt. unfold Rpower. reg.
  - rewrite weight_of_garbage. unfold table_garbage. pick_range.
  - rewrite weight_of_garbage. unfold table_garbage. pick_range.
  - apply derivable_continuous_pt. reg.
  - rewrite weight_of_common. unfold table_common. pick_range.
  - rewrite weight_of_common. unfold table_common. pick_range.
  - apply continuity_pt_rise.
  - rewrite weight_of_uncommon. unfold table_uncommon. pick_range.
  - rewrite weight_of_uncommon. unfold table_uncommon. pick_range.
  - apply continuity_pt_rise.
  - rewrite weight_of_rare. unfold table_rare. pick_range.
  - rewrite weight_of_rare. unfold table_rare. pick_range.
  - apply continuity_pt_Rmax0, continuity_pt_rise.
  - rewrite weight_of_epic. unfold table_epic. pick_range.
  - rewrite weight_of_epic. unfold table_epic. pick_range.
  - apply continuity_pt_Rmax0, continuity_pt_rise.
  - rewrite weight_of_legendary. unfold table_legendary. pick_range.
  - rewrite weight_of_legendary. unfold table_legendary. pick_range.
  - apply continuity_pt_Rmax0, continuity_pt_rise.
  - rewrite weight_of_mythic. unfold table_mythic. pick_range.
  - rewrite weight_of_mythic. unfold table_mythic. pick_range.
  - apply continuity_pt_Rmax0, continuity_pt_rise.
  - rewrite weight_of_godly. unfold table_godly. pick_range.
  - rewrite weight_of_godly. unfold table_godly. pick_range.
  - apply continuity_pt_Rmax0, continuity_pt_rise.
  - rewrite weight_of_divine. unfold table_divine. pick_range.
  - rewrite weight_of_divine. unfold table_divine. pick_range.
  - apply continuity_pt_product.
    + apply (continuity_pt_Rmax0
               (fun L => 200 * Rpower 1.2 (L - 12) - 300)).
      apply continuity_pt_rise.
    + apply continuity_pt_Rpower_exponent.
  - rewrite weight_of_divine. unfold table_divine. pick_range.
  - rewrite weight_of_divine. unfold table_divine. pick_range.
Qed.

(** C8: at every breakpoint of every tier (2 for Garbage and Common, 3, 5,
    8, 12, 20, 30 for Uncommon to Godly, 40 and 50 for Divine) the weight
    the code computes is continuous: just below the breakpoint it is the
    lower range's formula, from the breakpoint on it is that formula times
    the added factor, the factor is 1 at the breakpoint, so the value at
    the breakpoint is the lower formula's value there. *)
Theorem C8_continuous_at_breakpoints (bp : breakpoint) :
  In bp decay_breakpoints ->
  let w := weight_of (bp_rarity bp) in
  let b := bp_at bp in
  (forall L, b - 1 < L < b -> w L = bp_lower bp L) /\
  (forall L, b <= L < b + 1 ->
             w L = bp_lower bp L * Rpower (bp_decay bp) (L - b)) /\
  Rpower (bp_decay bp) (b - b) = 1 /\
  w b = bp_lower bp b /\
  continuity_pt w b.
Proof.
  intros Hin w b.
  destruct (breakpoint_branches bp Hin) as (Hd & Hcont & Hlow & Hhigh).
  fold w b in Hcont, Hlow, Hhigh.
  assert (Hone : Rpower (bp_decay bp) (b - b) = 1).
  { replace (b - b) with 0 by ring. now apply Rpower_O. }
  split; [exact Hlow |]. split; [exact Hhigh |]. split; [exact Hone |].
  split.
  - rewrite Hhigh by lra. rewrite Hone. ring.
  - now apply (continuity_at_breakpoint w (bp_lower bp) (bp_decay bp) b).
Qed.

Lemma C8_continuous_at_breakpoints_witness :
  weight_of "Garbage" 2 = 5 * Rpower 0.8 (2 - 1) /\
  continuity_pt (weight_of "Garbage") 2.
Proof.
  pose proof (C8_continuous_at_breakpoints
                (mkBreakpoint "Garbage" 2
                   (fun L => 5 * Rpower 0.8 (L - 1)) 0.4)
                (or_introl eq_refl)) as H.
  cbv zeta in H. cbn [bp_rarity bp_at bp_lower bp_decay] in H.
  destruct H as (_ & _ & _ & Hval & Hcont).
  split; [exact Hval | exact Hcont].
Defined.

(** * Further properties of the formulas *)

(** ** What the power operator can return *)

Lemma libm_pow_cases (x y : R) :
  libm_pow x y = Raise OverflowError \/ libm_pow x y = Ok (Rpower x y).
Proof. unfold libm_pow. destruct (Rltb float_max (Rpower x y)); auto. Qed.

Lemma float_pow_pos_cases (x y : R) :
  0 < x ->
  float_pow x y = Raise OverflowError \/
  float_pow x y = Ok (PyFloat (Rpower x y)).
Proof.
  intros Hx. rewrite float_pow_pos by assumption.
  destruct (libm_pow_cases x y) as [-> | ->]; auto.
Qed.

Lemma float_pow_square_cases (l : R) :
  float_pow l 2 = Raise OverflowError \/ float_pow l 2 = Ok (PyFloat (l * l)).
Proof.
  destruct (float_pow l 2) as [v | e] eqn:E.
  - right. now rewrite (float_pow_square l v E).
  - left. revert E. unfold float_pow. rewrite Reqb_false by lra.
    destruct (Reqb l 0).
    + rewrite Rltb_false by lra. discriminate.
    + destruct (Rltb l 0).
      * unfold is_integer. rewrite Int_part_2.
        rewrite Reqb_true by reflexivity.
        destruct (libm_pow_cases (- l) 2) as [-> | ->]; cbn [bind];
          congruence.
      * destruct (libm_pow_cases l 2) as [-> | ->]; cbn [bind]; congruence.
Qed.

Lemma float_pow_negative_cases (x : R) :
  x < 0 ->
  float_pow x 0.75 = Raise OverflowError \/
  float_pow x 0.75
  = Ok (PyComplex (Rpower (- x) 0.75 * cos (PI * 0.75))
                  (Rpower (- x) 0.75 * sin (PI * 0.75))).
Proof.
  intros Hx.
  destruct (Rle_dec (Rpower (- x) 0.75) float_max) as [Hin | Hout].
  - right. rewrite <- (Ropp_involutive x) at 1.
    apply float_pow_negative_fractional; [lra | | assumption].
    rewrite Int_part_three_quarters. lra.
  - left. unfold float_pow.
    rewrite Reqb_false by lra. rewrite Reqb_false by lra.
    rewrite Rltb_true by assumption.
    unfold is_integer. rewrite Int_part_three_quarters.
    rewrite Reqb_false by lra.
    unfold complex_pow. cbn [re_of im_of].
    rewrite (Reqb_false 0.75) by lra. cbn [andb].
    rewrite (Reqb_false x) by lra. cbn [andb].
    replace (sqrt (x * x + 0 * 0)) with (- x).
    2:{ replace (x * x + 0 * 0) with (- x * - x) by ring.
        symmetry. apply sqrt_square. lra. }
    rewrite libm_pow_overflow by lra. reflexivity.
Qed.

Lemma sin_three_quarters_pos : 0 < sin (PI * 0.75).
Proof. pose proof PI_RGT_0. apply sin_gt_0; lra. Qed.

(** The factor of the score next to the quality is positive. *)
Lemma spec_score_factor_pos (r l : R) :
  0 < Rpower 1.125 r * (9 + l * l) * spec_rarity_mult r * spec_level_mult l.
Proof.
  assert (H1 : 0 < Rpower 1.125 r) by apply Rpower_pos.
  assert (H2 : 0 < 9 + l * l) by nra.
  assert (H3 : 0 < spec_rarity_mult r).
  { unfold spec_rarity_mult. destruct (Rltb 8 r); lra. }
  assert (H4 : 0 < spec_level_mult l).
  { unfold spec_level_mult. destruct (Rleb 100 l); [apply Rpower_pos | lra]. }
  repeat apply Rmult_lt_0_compat; assumption.
Qed.

Lemma spec_score_factored (r q l : R) :
  spec_score r q l
  = q * (Rpower 1.125 r * (9 + l * l) * spec_rarity_mult r
         * spec_level_mult l).
Proof. unfold spec_score. ring. Qed.

Lemma spec_score_sign (r q l : R) :
  (0 < q -> 0 < spec_score r q l) /\
  (q = 0 -> spec_score r q l = 0) /\
  (q < 0 -> spec_score r q l < 0).
Proof.
  rewrite spec_score_factored.
  pose proof (spec_score_factor_pos r l) as HK.
  set (K := Rpower 1.125 r * (9 + l * l) * spec_rarity_mult r
            * spec_level_mult l) in *.
  repeat split; intros; nra.
Qed.

(** ** The score and sale price, case by case *)

Lemma level_mult_cases (l : R) :
  (if Rleb 100 l then py_pow (PyFloat ((l - 90) / 10)) (PyFloat 2.5)
   else Ok (PyFloat 1)) = Raise OverflowError \/
  (if Rleb 100 l then py_pow (PyFloat ((l - 90) / 10)) (PyFloat 2.5)
   else Ok (PyFloat 1)) = Ok (PyFloat (spec_level_mult l)).
Proof.
  unfold spec_level_mult.
  destruct (Rle_dec 100 l) as [Hge | Hlt].
  - rewrite Rleb_true by assumption. cbn [py_pow].
    apply float_pow_pos_cases. lra.
  - rewrite Rleb_false by lra. auto.
Qed.

(** The body of the [try] of calculate_zodiac_score. *)
Lemma score_body_cases (r q l : R) :
  let body :=
    (let rarity_mult := PyFloat (if Rltb 8 r then 2 else 1) in
     level_mult <-
       (if Rleb 100 l
        then py_pow (PyFloat ((l - 90) / 10)) (PyFloat 2.5)
        else Ok (PyFloat 1)) ;;
     p <- py_pow (PyFloat 1.125) (PyFloat r) ;;
     l2 <- py_pow (PyFloat l) (PyFloat 2) ;;
     Ok (Some (py_mul (py_mul (py_mul (py_mul p (PyFloat q))
                                      (py_add (PyFloat 9) l2))
                              rarity_mult)
                      level_mult))) in
  body = Raise OverflowError \/
  body = Ok (Some (PyFloat (spec_score r q l))).
Proof.
  cbv zeta.
  destruct (level_mult_cases l) as [-> | ->]; [now left |].
  cbn [bind py_pow].
  destruct (float_pow_pos_cases 1.125 r) as [-> | ->]; [lra | now left |].
  cbn [bind].
  destruct (float_pow_square_cases l) as [-> | ->]; [now left |].
  right. cbn [bind py_mul py_add]. reflexivity.
Qed.

Lemma calculate_zodiac_score_cases (self : ZodiacCalculator) (r q l : R) :
  zodiac_rarity self = Some r -> zodiac_quality self = Some q ->
  zodiac_level self = Some l ->
  calculate_zodiac_score self = Ok None \/
  calculate_zodiac_score self = Ok (Some (PyFloat (spec_score r q l))).
Proof.
  intros Hr Hq Hl. unfold calculate_zodiac_score.
  rewrite (has_three_inputs self r q l) by assumption.
  rewrite Hr, Hq, Hl. cbn [negb assert_present bind].
  destruct (score_body_cases r q l) as [E | E]; cbv zeta in E; rewrite E;
    cbn [try_except]; auto.
Qed.

(** What calculate_zodiac_sale_price returns with its three inputs
    present: None (an overflow), a real number for a score that is not
    negative, a complex number for a negative score. *)
Lemma calculate_zodiac_sale_price_cases (self : ZodiacCalculator) (r q l : R) :
  zodiac_rarity self = Some r -> zodiac_quality self = Some q ->
  zodiac_level self = Some l ->
  calculate_zodiac_sale_price self = Ok None \/
  (0 <= spec_score r q l /\
   calculate_zodiac_sale_price self
   = Ok (Some (PyFloat (real_pow (spec_score r q l / 10) 0.75
                        * Rpower 1.1 r)))) \/
  (spec_score r q l < 0 /\
   calculate_zodiac_sale_price self
   = Ok (Some (PyComplex
                 (Rpower (- (spec_score r q l / 10)) 0.75 * cos (PI * 0.75)
                  * Rpower 1.1 r)
                 (Rpower (- (spec_score r q l / 10)) 0.75 * sin (PI * 0.75)
                  * Rpower 1.1 r)))).
Proof.
  intros Hr Hq Hl. unfold calculate_zodiac_sale_price.
  rewrite (has_three_inputs self r q l) by assumption.
  rewrite Hr, Hq, Hl. cbn [negb assert_present bind]. cbv zeta.
  destruct (level_mult_cases l) as [-> | ->]; [now left |].
  cbn [bind py_pow].
  destruct (float_pow_pos_cases 1.125 r) as [-> | ->]; [lra | now left |].
  cbn [bind].
  destruct (float_pow_square_cases l) as [-> | ->]; [now left |].
  cbn [bind py_mul py_add py_div]. rewrite Reqb_false by lra.
  cbn [bind py_pow].
  replace (Rpower 1.125 r * q * (9 + l * l) * (if Rltb 8 r then 2 else 1)
           * spec_level_mult l / 10)
    with (spec_score r q l / 10) by reflexivity.
  set (S := spec_score r q l).
  destruct (Rlt_dec S 0) as [Hneg | Hnonneg].
  - destruct (float_pow_negative_cases (S / 10)) as [-> | ->];
      [lra | now left |].
    cbn [bind].
    destruct (float_pow_pos_cases 1.1 r) as [-> | ->]; [lra | now left |].
    right. right. split; [assumption |].
    cbn [bind py_mul re_of im_of try_except]. do 3 f_equal; ring.
  - destruct (Req_dec_T (S / 10) 0) as [Hz | Hnz].
    + rewrite Hz, float_pow_zero_base by lra. cbn [bind].
      destruct (float_pow_pos_cases 1.1 r) as [-> | ->]; [lra | now left |].
      right. left. split; [lra |].
      cbn [bind py_mul try_except]. unfold real_pow.
      rewrite Reqb_true by reflexivity. rewrite Reqb_false by lra.
      reflexivity.
    + destruct (float_pow_pos_cases (S / 10) 0.75) as [-> | ->];
        [lra | now left |].
      cbn [bind].
      destruct (float_pow_pos_cases 1.1 r) as [-> | ->]; [lra | now left |].
      right. left. split; [lra |].
      cbn [bind py_mul try_except]. unfold real_pow.
      rewrite Reqb_false by assumption. reflexivity.
Qed.

(** ** Missing inputs *)

(** X17: _has_required_inputs answers True exactly when every field it is
    asked about is present; with no field to check it answers True. *)
Theorem has_required_inputs_iff (self : ZodiacCalculator) (fields : list field) :
  _has_required_inputs self fields = true <->
  forall f, In f fields -> getattr self f <> None.
Proof.
  induction fields as [| f fields IH]; simpl.
  - split; [intros _ f [] | reflexivity].
  - destruct (getattr self f) eqn:E.
    + rewrite IH. split.
      * intros H f' [<- | Hin]; [congruence | now apply H].
      * intros H f' Hin. apply H. now right.
    + split; [discriminate |].
      intros H. exfalso. apply (H f); [now left | assumption].
Qed.

Lemma three_inputs_dec (self : ZodiacCalculator) :
  _has_required_inputs self
    [f_zodiac_rarity; f_zodiac_quality; f_zodiac_level] = false \/
  exists r q l : R,
    zodiac_rarity self = Some r /\ zodiac_quality self = Some q /\
    zodiac_level self = Some l.
Proof.
  cbn [_has_required_inputs getattr].
  destruct (zodiac_rarity self) as [r |]; [| now left].
  destruct (zodiac_quality self) as [q |]; [| now left].
  destruct (zodiac_level self) as [l |]; [| now left].
  right. now exists r, q, l.
Qed.

(** ** The enhancement formulas, case by case *)

Lemma math_log10_cases (x : R) :
  (x <= 0 /\ math_log10 x = Raise ValueError) \/
  (0 < x /\ math_log10 x = Ok (ln x / ln 10)).
Proof.
  unfold math_log10. destruct (Rle_dec x 0) as [H | H].
  - left. now rewrite Rleb_true.
  - right. split; [lra |]. now rewrite Rleb_false by lra.
Qed.

Lemma calculate_zodiac_enhance_chance_cases
    (self : ZodiacCalculator) (q : R) :
  zodiac_quality self = Some q ->
  calculate_zodiac_enhance_chance self = Ok None \/
  (-1 < q /\
   calculate_zodiac_enhance_chance self
   = Ok (Some (PyFloat (Rpower 0.9 (ln (1 + q) / ln 10 * (ln (1 + q) / ln 10))
                        * 100)))).
Proof.
  intros Hq. unfold calculate_zodiac_enhance_chance.
  cbn [_has_required_inputs getattr]. rewrite Hq.
  cbn [negb assert_present bind].
  destruct (math_log10_cases (1 + q)) as [[_ ->] | [Hpos ->]]; [now left |].
  cbn [bind py_pow].
  destruct (float_pow_square_cases (ln (1 + q) / ln 10)) as [-> | ->];
    [now left |].
  cbn [bind py_pow].
  destruct (float_pow_pos_cases 0.9
              (ln (1 + q) / ln 10 * (ln (1 + q) / ln 10))) as [-> | ->];
    [lra | now left |].
  right. split; [lra | reflexivity].
Qed.

Lemma calculate_zodiac_enhance_price_cases (self : ZodiacCalculator) :
  calculate_zodiac_enhance_price self = Ok None \/
  exists (sell_cost : pyval) (q : R),
    calculate_zodiac_sale_price self = Ok (Some sell_cost) /\
    zodiac_quality self = Some q /\ -1 < q /\
    calculate_zodiac_enhance_price self
    = Ok (Some (py_mul (py_mul sell_cost (PyFloat 2))
                       (PyFloat (Rpower 1.3 (ln (1 + q) / ln 10))))).
Proof.
  unfold calculate_zodiac_enhance_price.
  destruct (three_inputs_dec self) as [Hmiss | (r & q & l & Hr & Hq & Hl)].
  - left. unfold calculate_zodiac_sale_price. rewrite Hmiss. reflexivity.
  - assert (Hsale : exists o, calculate_zodiac_sale_price self = Ok o).
    { destruct (calculate_zodiac_sale_price_cases self r q l Hr Hq Hl)
        as [E | [[_ E] | [_ E]]]; rewrite E; eauto. }
    destruct Hsale as [[sell_cost |] Hsale]; rewrite Hsale; cbn [bind];
      [| now left].
    cbn [_has_required_inputs getattr]. rewrite Hq.
    cbn [negb assert_present bind].
    destruct (math_log10_cases (1 + q)) as [[_ ->] | [Hpos ->]]; [now left |].
    cbn [bind py_pow].
    destruct (float_pow_pos_cases 1.3 (ln (1 + q) / ln 10)) as [-> | ->];
      [lra | now left |].
    right. exists sell_cost, q. repeat split; try assumption. lra.
Qed.

Lemma calculate_zodiac_luck_cases (self : ZodiacCalculator) (lk : R) :
  luck self = Some lk ->
  calculate_zodiac_luck self = Ok None \/
  calculate_zodiac_luck self = Ok (Some (PyFloat (soft_cap lk))).
Proof.
  intros Hlk. unfold calculate_zodiac_luck, soft_cap.
  cbn [_has_required_inputs getattr]. rewrite Hlk.
  cbn [negb assert_present bind].
  destruct (Rlt_dec lk 18) as [Hlt | Hge].
  - rewrite Rltb_true by assumption. now right.
  - rewrite Rltb_false by lra. cbn [py_pow]. unfold real_pow.
    destruct (Req_dec_T (lk - 18) 0) as [Hz | Hnz].
    + rewrite Hz, float_pow_zero_base by lra.
      rewrite Reqb_true by reflexivity. rewrite Reqb_false by lra.
      now right.
    + rewrite Reqb_false by assumption.
      destruct (float_pow_pos_cases (lk - 18) 0.3) as [-> | ->];
        [lra | now left | now right].
Qed.

(** ** The shape of every result *)

Lemma sale_price_shape (self : ZodiacCalculator) :
  calculate_zodiac_sale_price self = Ok None \/
  (exists x : R, calculate_zodiac_sale_price self = Ok (Some (PyFloat x))) \/
  (exists re im : R,
     calculate_zodiac_sale_price self = Ok (Some (PyComplex re im)) /\
     0 < im).
Proof.
  destruct (three_inputs_dec self) as [Hmiss | (r & q & l & Hr & Hq & Hl)].
  - left. unfold calculate_zodiac_sale_price. now rewrite Hmiss.
  - destruct (calculate_zodiac_sale_price_cases self r q l Hr Hq Hl)
      as [E | [[_ E] | [_ E]]].
    + now left.
    + right. left. eauto.
    + right. right. do 2 eexists. split; [exact E |].
      repeat apply Rmult_lt_0_compat;
        [apply Rpower_pos | apply sin_three_quarters_pos | apply Rpower_pos].
Qed.

Lemma enhance_chance_shape (self : ZodiacCalculator) :
  calculate_zodiac_enhance_chance self = Ok None \/
  exists c : R, calculate_zodiac_enhance_chance self = Ok (Some (PyFloat c)).
Proof.
  destruct (zodiac_quality self) as [q |] eqn:Hq.
  - destruct (calculate_zodiac_enhance_chance_cases self q Hq)
      as [E | [_ E]]; [now left | right; eauto].
  - left. unfold calculate_zodiac_enhance_chance.
    cbn [_has_required_inputs getattr]. now rewrite Hq.
Qed.

Lemma score_shape (self : ZodiacCalculator) :
  calculate_zodiac_score self = Ok None \/
  exists s : R, calculate_zodiac_score self = Ok (Some (PyFloat s)).
Proof.
  destruct (three_inputs_dec self) as [Hmiss | (r & q & l & Hr & Hq & Hl)].
  - left. unfold calculate_zodiac_score. now rewrite Hmiss.
  - destruct (calculate_zodiac_score_cases self r q l Hr Hq Hl) as [E | E];
      [now left | right; eauto].
Qed.

Lemma luck_shape (self : ZodiacCalculator) :
  calculate_zodiac_luck self = Ok None \/
  exists z : R, calculate_zodiac_luck self = Ok (Some (PyFloat z)).
Proof.
  destruct (luck self) as [lk |] eqn:Hlk.
  - destruct (calculate_zodiac_luck_cases self lk Hlk) as [E | E];
      [now left | right; eauto].
  - left. unfold calculate_zodiac_luck.
    cbn [_has_required_inputs getattr]. now rewrite Hlk.
Qed.

(** ** No calculation raises *)

(** X1: none of the five calculations (sale price, enhance price, enhance
    chance, score, zodiac luck) ever raises: whatever the inputs, present or
    absent, each one returns, with a value or with None. *)
Theorem calculations_never_raise (self : ZodiacCalculator) :
  (exists o, calculate_zodiac_sale_price self = Ok o) /\
  (exists o, calculate_zodiac_enhance_price self = Ok o) /\
  (exists o, calculate_zodiac_enhance_chance self = Ok o) /\
  (exists o, calculate_zodiac_score self = Ok o) /\
  (exists o, calculate_zodiac_luck self = Ok o).
Proof.
  split; [| split; [| split; [| split]]].
  - destruct (sale_price_shape self) as [E | [[x E] | (re & im & E & _)]];
      rewrite E; eauto.
  - destruct (calculate_zodiac_enhance_price_cases self)
      as [E | (sc & q & _ & _ & _ & E)]; rewrite E; eauto.
  - destruct (enhance_chance_shape self) as [E | [c E]]; rewrite E; eauto.
  - destruct (score_shape self) as [E | [s E]]; rewrite E; eauto.
  - destruct (luck_shape self) as [E | [z E]]; rewrite E; eauto.
Qed.

(** ** Sale price and score against the sign of the quality *)

Lemma sale_price_nonnegative_quality
    (self : ZodiacCalculator) (r q l : R) :
  zodiac_rarity self = Some r -> zodiac_quality self = Some q ->
  zodiac_level self = Some l -> 0 <= q ->
  calculate_zodiac_sale_price self = Ok None \/
  exists x : R,
    calculate_zodiac_sale_price self = Ok (Some (PyFloat x)) /\
    x = real_pow (spec_score r q l / 10) 0.75 * Rpower 1.1 r /\
    0 <= x.
Proof.
  intros Hr Hq Hl Hq0.
  destruct (spec_score_sign r q l) as (Hpos & Hzero & _).
  assert (HS : 0 <= spec_score r q l).
  { destruct (Req_dec_T q 0) as [-> | Hne]; [rewrite Hzero; lra |].
    left. apply Hpos. lra. }
  destruct (calculate_zodiac_sale_price_cases self r q l Hr Hq Hl)
    as [E | [[_ E] | [Hneg _]]]; [now left | | lra].
  right. eexists. split; [exact E |]. split; [reflexivity |].
  apply Rmult_le_pos; [| left; apply Rpower_pos].
  unfold real_pow. destruct (Reqb (spec_score r q l / 10) 0).
  - destruct (Reqb 0.75 0); lra.
  - left. apply Rpower_pos.
Qed.

(** ** Inputs of moderate size: nothing leaves the float range *)

Lemma product_bounds (a b A B : R) :
  0 < a <= A -> 0 < b <= B -> 0 < a * b <= A * B.
Proof.
  intros Ha Hb. split.
  - apply Rmult_lt_0_compat; lra.
  - apply Rmult_le_compat; lra.
Qed.

Lemma Rpower_below_pow2_70 (x y : R) :
  1 <= x <= 2 -> y <= 70 -> 0 < Rpower x y <= 2 ^ 70.
Proof.
  intros Hx Hy. split; [apply Rpower_pos |].
  destruct (Rle_dec y 0) as [Hneg | Hpos].
  - apply Rle_trans with 1; [apply Rpower_le_1_neg_exp; lra |].
    apply pow_R1_Rle; lra.
  - apply Rle_trans with (Rpower x 70); [apply Rle_Rpower; lra |].
    rewrite <- (Rpower_natZ 2 70 70) by (try lra; reflexivity).
    apply Rle_Rpower_l; lra.
Qed.

Lemma square_below_pow2_40 (l : R) :
  -1000000 <= l <= 1000000 -> 0 < 9 + l * l <= 2 ^ 40.
Proof.
  intros Hl.
  assert (H : l * l <= 1000000 * 1000000) by nra.
  split; [nra |]. simpl. lra.
Qed.

Lemma spec_rarity_mult_bounds (r : R) : 0 < spec_rarity_mult r <= 2 ^ 1.
Proof. unfold spec_rarity_mult. destruct (Rltb 8 r); simpl; lra. Qed.

Lemma spec_level_mult_bounds (l : R) :
  l <= 1000000 -> 0 < spec_level_mult l <= 2 ^ 50.
Proof.
  intros Hl. unfold spec_level_mult.
  destruct (Rle_dec 100 l) as [Hge | Hlt].
  - rewrite Rleb_true by assumption. split; [apply Rpower_pos |].
    assert (Hb : 1 <= (l - 90) / 10 <= 100000) by lra.
    apply Rle_trans with (Rpower ((l - 90) / 10) 3);
      [apply Rle_Rpower; lra |].
    rewrite (Rpower_natZ ((l - 90) / 10) 3 3) by (try lra; reflexivity).
    apply Rle_trans with (100000 ^ 3); [apply pow_incr; lra |].
    simpl. lra.
  - rewrite Rleb_false by lra. split; [lra | apply pow_R1_Rle; lra].
Qed.

Lemma moderate_quality_abs (r q l : R) :
  moderate_inputs r q l -> Rabs q <= 2 ^ 100.
Proof.
  intros (_ & _ & Hq).
  assert (Hinv : 0 < / 2 ^ 100).
  { apply Rinv_0_lt_compat. apply pow_lt. lra. }
  unfold Rabs. destruct (Rcase_abs q); lra.
Qed.

(** On inputs of moderate size the score is far inside the float range. *)
Lemma spec_score_bound (r q l : R) :
  moderate_inputs r q l -> Rabs (spec_score r q l) <= 2 ^ 261.
Proof.
  intros Hmod. pose proof (moderate_quality_abs r q l Hmod) as Hq.
  destruct Hmod as (Hr & Hl & _).
  rewrite spec_score_factored, Rabs_mult.
  pose proof (product_bounds _ _ _ _
                (product_bounds _ _ _ _
                   (product_bounds _ _ _ _
                      (Rpower_below_pow2_70 1.125 r ltac:(lra) ltac:(lra))
                      (square_below_pow2_40 l Hl))
                   (spec_rarity_mult_bounds r))
                (spec_level_mult_bounds l ltac:(lra))) as [HK0 HK].
  rewrite (Rabs_right (Rpower 1.125 r * _ * _ * _)) by lra.
  replace (2 ^ 261) with (2 ^ 100 * (2 ^ 70 * 2 ^ 40 * 2 ^ 1 * 2 ^ 50))
    by (rewrite <- !pow_add; reflexivity).
  apply Rmult_le_compat; [apply Rabs_pos | lra | exact Hq | exact HK].
Qed.

Lemma three_quarter_power_bound (x B : R) :
  0 < x <= B -> 1 <= B -> Rpower x 0.75 <= B.
Proof.
  intros Hx HB.
  destruct (Rle_dec x 1) as [Hle | Hgt].
  - apply Rle_trans with 1; [apply Rpower_le_1_small_base; lra | exact HB].
  - apply Rle_trans with x; [apply Rpower_le_base; lra | lra].
Qed.

Lemma level_mult_ok (l : R) :
  l <= 1000000 ->
  (if Rleb 100 l then py_pow (PyFloat ((l - 90) / 10)) (PyFloat 2.5)
   else Ok (PyFloat 1)) = Ok (PyFloat (spec_level_mult l)).
Proof.
  intros Hl. pose proof (spec_level_mult_bounds l Hl) as [_ Hb].
  unfold spec_level_mult in *.
  destruct (Rle_dec 100 l) as [Hge | Hlt].
  - rewrite Rleb_true in * by assumption. cbn [py_pow].
    apply float_pow_pos_ok; [lra |].
    apply Rle_trans with (2 ^ 50); [exact Hb | apply pow2_le_float_max; lia].
  - rewrite Rleb_false in * by lra. reflexivity.
Qed.

Lemma float_pow_square_ok (l : R) :
  -1000000 <= l <= 1000000 -> float_pow l 2 = Ok (PyFloat (l * l)).
Proof.
  intros Hl. pose proof (square_below_pow2_40 l Hl) as [_ Hsq].
  assert (Hfm : l * l <= float_max).
  { apply Rle_trans with (2 ^ 40); [lra | apply pow2_le_float_max; lia]. }
  unfold float_pow. rewrite Reqb_false by lra.
  destruct (Req_dec_T l 0) as [-> | Hnz].
  - rewrite Reqb_true by reflexivity. rewrite Rltb_false by lra.
    do 2 f_equal. ring.
  - rewrite Reqb_false by assumption.
    destruct (Rlt_dec l 0) as [Hneg | Hpos].
    + rewrite Rltb_true by assumption.
      unfold is_integer. rewrite Int_part_2. rewrite Reqb_true by reflexivity.
      cbn [Z.odd].
      rewrite libm_pow_ok by (rewrite Rpower_2 by lra; lra).
      cbn [bind]. rewrite Rpower_2 by lra. do 2 f_equal. ring.
    + rewrite Rltb_false by lra.
      rewrite libm_pow_ok by (rewrite Rpower_2 by lra; lra).
      cbn [bind]. rewrite Rpower_2 by lra. reflexivity.
Qed.

Lemma float_pow_negative_ok (x : R) :
  x < 0 -> Rpower (- x) 0.75 <= float_max ->
  float_pow x 0.75
  = Ok (PyComplex (Rpower (- x) 0.75 * cos (PI * 0.75))
                  (Rpower (- x) 0.75 * sin (PI * 0.75))).
Proof.
  intros Hx Hin. rewrite <- (Ropp_involutive x) at 1.
  apply float_pow_negative_fractional; [lra | | assumption].
  rewrite Int_part_three_quarters. lra.
Qed.

(** On inputs of moderate size the score is returned. *)
Lemma calculate_zodiac_score_moderate
    (self : ZodiacCalculator) (r q l : R) :
  zodiac_rarity self = Some r -> zodiac_quality self = Some q ->
  zodiac_level self = Some l -> moderate_inputs r q l ->
  calculate_zodiac_score self = Ok (Some (PyFloat (spec_score r q l))).
Proof.
  intros Hr Hq Hl (Hrr & Hll & _). unfold calculate_zodiac_score.
  rewrite (has_three_inputs self r q l) by assumption.
  rewrite Hr, Hq, Hl. cbn [negb assert_present bind]. cbv zeta.
  rewrite level_mult_ok by lra. cbn [bind py_pow].
  assert (Hp : Rpower 1.125 r <= float_max)
    by (apply Rpower_in_range; intros; lra).
  rewrite float_pow_pos_ok by (lra || exact Hp). cbn [bind].
  rewrite float_pow_square_ok by lra.
  cbn [bind py_mul py_add try_except]. reflexivity.
Qed.

(** On inputs of moderate size the sale price is returned: a real number
    for a score that is not negative, a complex number for a negative
    score. *)
Lemma calculate_zodiac_sale_price_moderate
    (self : ZodiacCalculator) (r q l : R) :
  zodiac_rarity self = Some r -> zodiac_quality self = Some q ->
  zodiac_level self = Some l -> moderate_inputs r q l ->
  (0 <= spec_score r q l /\
   calculate_zodiac_sale_price self
   = Ok (Some (PyFloat (real_pow (spec_score r q l / 10) 0.75
                        * Rpower 1.1 r)))) \/
  (spec_score r q l < 0 /\
   calculate_zodiac_sale_price self
   = Ok (Some (PyComplex
                 (Rpower (- (spec_score r q l / 10)) 0.75 * cos (PI * 0.75)
                  * Rpower 1.1 r)
                 (Rpower (- (spec_score r q l / 10)) 0.75 * sin (PI * 0.75)
                  * Rpower 1.1 r)))).
Proof.
  intros Hr Hq Hl Hmod.
  pose proof (spec_score_bound r q l Hmod) as HS.
  destruct Hmod as (Hrr & Hll & _).
  unfold calculate_zodiac_sale_price.
  rewrite (has_three_inputs self r q l) by assumption.
  rewrite Hr, Hq, Hl. cbn [negb assert_present bind]. cbv zeta.
  rewrite level_mult_ok by lra. cbn [bind py_pow].
  assert (Hp : Rpower 1.125 r <= float_max)
    by (apply Rpower_in_range; intros; lra).
  assert (Hp' : Rpower 1.1 r <= float_max)
    by (apply Rpower_in_range; intros; lra).
  rewrite float_pow_pos_ok by (lra || exact Hp). cbn [bind].
  rewrite float_pow_square_ok by lra.
  cbn [bind py_mul py_add py_div]. rewrite Reqb_false by lra.
  cbn [bind py_pow].
  replace (Rpower 1.125 r * q * (9 + l * l) * (if Rltb 8 r then 2 else 1)
           * spec_level_mult l / 10)
    with (spec_score r q l / 10) by reflexivity.
  set (S := spec_score r q l) in *.
  assert (H261 : 1 <= 2 ^ 261) by (apply pow_R1_Rle; lra).
  assert (Hfm : 2 ^ 261 <= float_max) by (apply pow2_le_float_max; lia).
  assert (Habs : - 2 ^ 261 <= S <= 2 ^ 261).
  { revert HS. unfold Rabs. destruct (Rcase_abs S); lra. }
  destruct (Rlt_dec S 0) as [Hneg | Hnonneg].
  - right. split; [assumption |].
    rewrite float_pow_negative_ok.
    + cbn [bind]. rewrite float_pow_pos_ok by (lra || exact Hp').
      cbn [bind py_mul re_of im_of try_except]. do 3 f_equal; ring.
    + lra.
    + apply Rle_trans with (2 ^ 261); [| exact Hfm].
      apply three_quarter_power_bound; lra.
  - left. split; [lra |].
    destruct (Req_dec_T (S / 10) 0) as [Hz | Hnz].
    + rewrite Hz, float_pow_zero_base by lra. cbn [bind].
      rewrite float_pow_pos_ok by (lra || exact Hp').
      cbn [bind py_mul try_except]. unfold real_pow.
      rewrite Reqb_true by reflexivity. rewrite Reqb_false by lra.
      reflexivity.
    + rewrite (float_pow_pos_ok (S / 10)).
      * cbn [bind]. rewrite float_pow_pos_ok by (lra || exact Hp').
        cbn [bind py_mul try_except]. unfold real_pow.
        rewrite Reqb_false by assumption. reflexivity.
      * lra.
      * apply Rle_trans with (2 ^ 261); [| exact Hfm].
        apply three_quarter_power_bound; lra.
Qed.

Lemma moderate_example : moderate_inputs 9 10 50.
Proof.
  assert (H4 : 2 ^ 4 <= 2 ^ 100) by (apply Rle_pow; [lra | lia]).
  assert (Hinv : / 2 ^ 100 <= 1).
  { rewrite <- Rinv_1. apply Rinv_le_contravar; [lra |].
    apply pow_R1_Rle; lra. }
  simpl in H4. unfold moderate_inputs.
  split; [lra |]. split; [lra |]. right. left. lra.
Qed.

Lemma moderate_negative_example : moderate_inputs 0 (-1) 0.
Proof.
  assert (H0 : 1 <= 2 ^ 100) by (apply pow_R1_Rle; lra).
  assert (Hinv : / 2 ^ 100 <= 1).
  { rewrite <- Rinv_1. apply Rinv_le_contravar; lra. }
  unfold moderate_inputs.
  split; [lra |]. split; [lra |]. right. right. lra.
Qed.

(** X2: with rarity, quality and level present and of moderate size, and a
    quality that is not negative, the sale price is returned and is the real
    number (score / 10)^0.75 * 1.1^r, which is not negative and lies in the
    float range. *)
Theorem sale_price_real_for_nonnegative_quality
    (self : ZodiacCalculator) (r q l : R) :
  zodiac_rarity self = Some r -> zodiac_quality self = Some q ->
  zodiac_level self = Some l -> moderate_inputs r q l -> 0 <= q ->
  exists x : R,
    calculate_zodiac_sale_price self = Ok (Some (PyFloat x)) /\
    x = real_pow (spec_score r q l / 10) 0.75 * Rpower 1.1 r /\
    0 <= x /\ finite_float x.
Proof.
  intros Hr Hq Hl Hmod Hq0.
  destruct (spec_score_sign r q l) as (_ & _ & Hneg).
  pose proof (spec_score_bound r q l Hmod) as HS.
  destruct (calculate_zodiac_sale_price_moderate self r q l Hr Hq Hl Hmod)
    as [[Hnn E] | [Hlt _]].
  2:{ destruct (Rlt_dec q 0) as [Hq1 | Hq1]; [lra |].
      destruct (Req_dec_T q 0) as [Hq2 | Hq2].
      - destruct (spec_score_sign r q l) as (_ & Hz & _).
        rewrite Hz in Hlt by assumption. lra.
      - destruct (spec_score_sign r q l) as (Hp & _ & _).
        assert (0 < spec_score r q l) by (apply Hp; lra). lra. }
  destruct Hmod as (Hrr & _ & _).
  set (S := spec_score r q l) in *.
  assert (H261 : 1 <= 2 ^ 261) by (apply pow_R1_Rle; lra).
  assert (Hpw : 0 <= real_pow (S / 10) 0.75 <= 2 ^ 261).
  { unfold real_pow.
    destruct (Req_dec_T (S / 10) 0) as [Hz | Hnz].
    - rewrite Reqb_true by assumption. rewrite Reqb_false by lra. lra.
    - rewrite Reqb_false by assumption.
      split; [left; apply Rpower_pos |].
      apply three_quarter_power_bound; [| exact H261].
      revert HS. unfold Rabs. destruct (Rcase_abs S); lra. }
  pose proof (Rpower_below_pow2_70 1.1 r ltac:(lra) ltac:(lra)) as Hr70.
  eexists. split; [exact E |]. split; [reflexivity |].
  assert (Hx0 : 0 <= real_pow (S / 10) 0.75 * Rpower 1.1 r)
    by (apply Rmult_le_pos; lra).
  split; [exact Hx0 |].
  unfold finite_float. rewrite Rabs_right by lra.
  apply Rle_trans with (2 ^ 261 * 2 ^ 70).
  - apply Rmult_le_compat; lra.
  - rewrite <- pow_add. apply pow2_le_float_max. lia.
Qed.

Lemma sale_price_real_for_nonnegative_quality_witness :
  moderate_inputs 9 10 50 /\ 0 <= 10 /\
  exists x : R,
    calculate_zodiac_sale_price
      (mkCalc (Some 9) (Some 10) (Some 50) None None)
    = Ok (Some (PyFloat x)) /\
    x = real_pow (spec_score 9 10 50 / 10) 0.75 * Rpower 1.1 9 /\
    0 <= x /\ finite_float x.
Proof.
  assert (H : 0 <= 10) by lra.
  split; [exact moderate_example |]. split; [exact H |].
  exact (sale_price_real_for_nonnegative_quality
           (mkCalc (Some 9) (Some 10) (Some 50) None None) 9 10 50
           eq_refl eq_refl eq_refl moderate_example H).
Defined.

(** X3: with rarity, quality and level present and of moderate size, and a
    negative quality, the sale price is returned and is no real number: it
    is a complex number with a positive imaginary part. *)
Theorem sale_price_complex_for_negative_quality
    (self : ZodiacCalculator) (r q l : R) :
  zodiac_rarity self = Some r -> zodiac_quality self = Some q ->
  zodiac_level self = Some l -> moderate_inputs r q l -> q < 0 ->
  exists re im : R,
    calculate_zodiac_sale_price self = Ok (Some (PyComplex re im)) /\
    0 < im.
Proof.
  intros Hr Hq Hl Hmod Hq0.
  destruct (spec_score_sign r q l) as (_ & _ & Hneg).
  specialize (Hneg Hq0).
  destruct (calculate_zodiac_sale_price_moderate self r q l Hr Hq Hl Hmod)
    as [[Hnn _] | [_ E]]; [lra |].
  do 2 eexists. split; [exact E |].
  repeat apply Rmult_lt_0_compat;
    [apply Rpower_pos | apply sin_three_quarters_pos | apply Rpower_pos].
Qed.

Lemma sale_price_complex_for_negative_quality_witness :
  moderate_inputs 0 (-1) 0 /\ -1 < 0 /\
  exists re im : R,
    calculate_zodiac_sale_price
      (mkCalc (Some 0) (Some (-1)) (Some 0) None None)
    = Ok (Some (PyComplex re im)) /\
    0 < im.
Proof.
  assert (H : -1 < 0) by lra.
  split; [exact moderate_negative_example |]. split; [exact H |].
  exact (sale_price_complex_for_negative_quality
           (mkCalc (Some 0) (Some (-1)) (Some 0) None None) 0 (-1) 0
           eq_refl eq_refl eq_refl moderate_negative_example H).
Defined.

(** X4: with rarity, quality and level present and of moderate size, the
    score is returned and is a real number in the float range with the sign
    of the quality: positive, zero or negative as the quality is. *)
Theorem score_has_sign_of_quality
    (self : ZodiacCalculator) (r q l : R) :
  zodiac_rarity self = Some r -> zodiac_quality self = Some q ->
  zodiac_level self = Some l -> moderate_inputs r q l ->
  exists s : R,
    calculate_zodiac_score self = Ok (Some (PyFloat s)) /\
    finite_float s /\
    (0 < q -> 0 < s) /\ (q = 0 -> s = 0) /\ (q < 0 -> s < 0).
Proof.
  intros Hr Hq Hl Hmod.
  exists (spec_score r q l).
  split; [now apply calculate_zodiac_score_moderate |].
  split; [| apply spec_score_sign].
  unfold finite_float.
  apply Rle_trans with (2 ^ 261); [now apply spec_score_bound |].
  apply pow2_le_float_max. lia.
Qed.

Lemma score_has_sign_of_quality_witness :
  moderate_inputs 9 10 50 /\
  exists s : R,
    calculate_zodiac_score (mkCalc (Some 9) (Some 10) (Some 50) None None)
    = Ok (Some (PyFloat s)) /\
    finite_float s /\
    (0 < 10 -> 0 < s) /\ (10 = 0 -> s = 0) /\ (10 < 0 -> s < 0).
Proof.
  split; [exact moderate_example |].
  exact (score_has_sign_of_quality
           (mkCalc (Some 9) (Some 10) (Some 50) None None) 9 10 50
           eq_refl eq_refl eq_refl moderate_example).
Defined.

(** ** Enhancement price and chance *)

(** X5: with a quality of -1 or less, log10(1 + quality) is a domain error
    and both the enhance price and the enhance chance are None, whatever
    the other inputs. *)
Theorem enhancement_unavailable_for_quality_at_most_minus_one
    (self : ZodiacCalculator) (q : R) :
  zodiac_quality self = Some q -> q <= -1 ->
  calculate_zodiac_enhance_price self = Ok None /\
  calculate_zodiac_enhance_chance self = Ok None.
Proof.
  intros Hq Hle. split.
  - destruct (calculate_zodiac_enhance_price_cases self)
      as [E | (sc & q' & _ & Hq' & Hgt & _)]; [exact E |].
    rewrite Hq in Hq'. injection Hq' as <-. lra.
  - destruct (calculate_zodiac_enhance_chance_cases self q Hq)
      as [E | [Hgt _]]; [exact E | lra].
Qed.

Lemma enhancement_unavailable_for_quality_at_most_minus_one_witness :
  -1 <= -1 /\
  calculate_zodiac_enhance_price
    (mkCalc (Some 1) (Some (-1)) (Some 1) None None) = Ok None /\
  calculate_zodiac_enhance_chance
    (mkCalc (Some 1) (Some (-1)) (Some 1) None None) = Ok None.
Proof.
  assert (H : -1 <= -1) by lra.
  split; [exact H |].
  exact (enhancement_unavailable_for_quality_at_most_minus_one
           (mkCalc (Some 1) (Some (-1)) (Some 1) None None) (-1) eq_refl H).
Defined.

Lemma log10_nonneg (q : R) : 0 <= q -> 0 <= ln (1 + q) / ln 10.
Proof.
  intros Hq.
  assert (H10 : 0 < ln 10).
  { rewrite <- ln_1. apply ln_increasing; lra. }
  assert (Hln : 0 <= ln (1 + q)).
  { destruct (Req_dec_T q 0) as [-> | Hne].
    - rewrite Rplus_0_r, ln_1. lra.
    - left. rewrite <- ln_1. apply ln_increasing; lra. }
  apply Rmult_le_pos; [assumption |].
  left. now apply Rinv_0_lt_compat.
Qed.

Lemma log10_monotone (q1 q2 : R) :
  0 <= q1 -> q1 <= q2 -> ln (1 + q1) / ln 10 <= ln (1 + q2) / ln 10.
Proof.
  intros H1 H2.
  assert (H10 : 0 < / ln 10).
  { apply Rinv_0_lt_compat. rewrite <- ln_1. apply ln_increasing; lra. }
  assert (Hln : ln (1 + q1) <= ln (1 + q2)).
  { destruct (Req_dec_T q1 q2) as [-> | Hne]; [lra |].
    left. apply ln_increasing; lra. }
  unfold Rdiv. apply Rmult_le_compat_r; lra.
Qed.

(** X6: for a quality that is not negative, an enhance price that is
    returned is sale price * 2 * 1.3^log10(1 + quality) and at least twice
    the sale price. *)
Theorem enhance_price_at_least_twice_sale_price
    (self : ZodiacCalculator) (q : R) (price : pyval) :
  zodiac_quality self = Some q -> 0 <= q ->
  calculate_zodiac_enhance_price self = Ok (Some price) ->
  exists sale : R,
    calculate_zodiac_sale_price self = Ok (Some (PyFloat sale)) /\
    price = PyFloat (sale * 2 * Rpower 1.3 (ln (1 + q) / ln 10)) /\
    2 * sale <= sale * 2 * Rpower 1.3 (ln (1 + q) / ln 10).
Proof.
  intros Hq Hq0 Hprice.
  destruct (calculate_zodiac_enhance_price_cases self)
    as [E | (sc & q' & Hsale & Hq' & _ & E)].
  { rewrite E in Hprice. discriminate. }
  rewrite Hq in Hq'. injection Hq' as <-.
  rewrite E in Hprice. injection Hprice as <-.
  destruct (three_inputs_dec self) as [Hmiss | (r & q2 & l & Hr & Hq2 & Hl)].
  { unfold calculate_zodiac_sale_price in Hsale. rewrite Hmiss in Hsale.
    discriminate. }
  assert (q2 = q) by congruence. subst q2.
  destruct (sale_price_nonnegative_quality self r q l Hr Hq Hl Hq0)
    as [E' | (x & Ex & _ & Hx)].
  { rewrite E' in Hsale. discriminate. }
  rewrite Ex in Hsale. injection Hsale as <-.
  exists x. split; [exact Ex |]. split; [reflexivity |].
  pose proof (Rpower_ge_1 1.3 (ln (1 + q) / ln 10)) as Hge.
  assert (H1 : 1 <= Rpower 1.3 (ln (1 + q) / ln 10)).
  { apply Hge; [lra | now apply log10_nonneg]. }
  nra.
Qed.

Lemma ln_10_ge_1 : 1 <= ln 10.
Proof.
  rewrite <- (ln_exp 1) at 1. left.
  apply ln_increasing; [apply exp_pos |].
  pose proof exp_le_3. lra.
Qed.

Lemma log10_le_arg (q : R) : 0 <= q -> ln (1 + q) / ln 10 <= q.
Proof.
  intros Hq.
  pose proof ln_10_ge_1 as H10.
  assert (Hln : ln (1 + q) <= q).
  { rewrite <- (ln_exp q) at 2.
    destruct (Req_dec_T q 0) as [-> | Hne].
    - rewrite Rplus_0_r, exp_0. lra.
    - left. apply ln_increasing; [lra |]. apply exp_ineq1. assumption. }
  pose proof (log10_nonneg q Hq) as Hnn.
  assert (Hinv : 0 < / ln 10 <= 1).
  { split; [apply Rinv_0_lt_compat; lra |].
    rewrite <- Rinv_1. apply Rinv_le_contravar; lra. }
  assert (Hln0 : 0 <= ln (1 + q)).
  { unfold Rdiv in Hnn. nra. }
  unfold Rdiv. nra.
Qed.

(** With a real sale price and a quality from 0 to 70 the enhance price is
    computed: the power 1.3 ** log10(1 + q) stays in the float range. *)
Lemma calculate_zodiac_enhance_price_ok
    (self : ZodiacCalculator) (q sale : R) :
  zodiac_quality self = Some q -> 0 <= q <= 70 ->
  calculate_zodiac_sale_price self = Ok (Some (PyFloat sale)) ->
  calculate_zodiac_enhance_price self
  = Ok (Some (PyFloat (sale * 2 * Rpower 1.3 (ln (1 + q) / ln 10)))).
Proof.
  intros Hq Hrange Hsale. unfold calculate_zodiac_enhance_price.
  rewrite Hsale. cbn [bind _has_required_inputs getattr]. rewrite Hq.
  cbn [negb assert_present bind].
  unfold math_log10. rewrite Rleb_false by lra. cbn [bind py_pow].
  rewrite float_pow_pos_ok; [reflexivity | lra |].
  apply Rpower_in_range; [lra | intros; lra |].
  pose proof (log10_le_arg q). lra.
Qed.

Lemma enhance_price_at_least_twice_sale_price_witness :
  exists sale : R,
    calculate_zodiac_sale_price
      (mkCalc (Some 9) (Some 10) (Some 50) None None)
    = Ok (Some (PyFloat sale)) /\
    2 * sale <= sale * 2 * Rpower 1.3 (ln (1 + 10) / ln 10).
Proof.
  assert (Hq0 : 0 <= 10) by lra.
  assert (Hrange : 0 <= 10 <= 70) by lra.
  destruct (enhance_price_at_least_twice_sale_price
              (mkCalc (Some 9) (Some 10) (Some 50) None None) 10 _
              eq_refl Hq0
              (calculate_zodiac_enhance_price_ok
                 (mkCalc (Some 9) (Some 10) (Some 50) None None) 10 _
                 eq_refl Hrange example_sale_price))
    as (sale & Hsale & _ & Hle).
  exists sale. split; [exact Hsale | exact Hle].
Defined.

(** For a quality from 0 to 2^500 the enhance chance is computed: the
    square of the logarithm stays in the float range. *)
Lemma calculate_zodiac_enhance_chance_ok (self : ZodiacCalculator) (q : R) :
  zodiac_quality self = Some q -> 0 <= q <= 2 ^ 500 ->
  calculate_zodiac_enhance_chance self
  = Ok (Some (PyFloat (Rpower 0.9 (ln (1 + q) / ln 10 * (ln (1 + q) / ln 10))
                       * 100))).
Proof.
  intros Hq [Hq0 Hq1]. unfold calculate_zodiac_enhance_chance.
  cbn [_has_required_inputs getattr]. rewrite Hq.
  cbn [negb assert_present bind].
  unfold math_log10. rewrite Rleb_false by lra. cbn [bind py_pow].
  pose proof (log10_nonneg q Hq0) as Hnn.
  pose proof (log10_le_arg q Hq0) as Hle.
  set (lg := ln (1 + q) / ln 10) in *.
  assert (Hsq : float_pow lg 2 = Ok (PyFloat (lg * lg))).
  { destruct (Req_dec_T lg 0) as [Hz | Hnz].
    - rewrite Hz, float_pow_zero_base by lra. f_equal. f_equal. ring.
    - assert (Hbound : Rpower lg 2 <= float_max).
      { rewrite Rpower_2 by lra.
        apply Rle_trans with (2 ^ 500 * 2 ^ 500).
        - assert (0 < 2 ^ 500) by (apply pow_lt; lra). nra.
        - rewrite <- pow_add. apply pow2_le_float_max. lia. }
      rewrite float_pow_pos_ok by (lra || assumption).
      rewrite Rpower_2 by lra. reflexivity. }
  rewrite Hsq. cbn [bind py_pow].
  rewrite float_pow_pos_ok; [reflexivity | lra |].
  apply Rle_trans with 1.
  - apply Rpower_le_1_small_base; [lra | nra].
  - pose proof float_max_pos. lra.
Qed.

(** X7: an enhance chance that is returned is a float between 0 and 100,
    and exactly 100 for quality 0. *)
Theorem enhance_chance_is_a_percentage
    (self : ZodiacCalculator) (q : R) (chance : pyval) :
  zodiac_quality self = Some q ->
  calculate_zodiac_enhance_chance self = Ok (Some chance) ->
  exists c : R,
    chance = PyFloat c /\ 0 <= c <= 100 /\ (q = 0 -> c = 100).
Proof.
  intros Hq Hchance.
  destruct (calculate_zodiac_enhance_chance_cases self q Hq) as [E | [Hgt E]];
    rewrite E in Hchance; [discriminate |].
  injection Hchance as <-.
  eexists. split; [reflexivity |].
  set (lg := ln (1 + q) / ln 10).
  assert (Hle1 : Rpower 0.9 (lg * lg) <= 1).
  { apply Rpower_le_1_small_base; [lra | nra]. }
  pose proof (Rpower_pos 0.9 (lg * lg)).
  split; [lra |].
  intros ->. unfold lg. rewrite Rplus_0_r, ln_1.
  replace (0 / ln 10 * (0 / ln 10)) with 0 by (unfold Rdiv; ring).
  rewrite Rpower_O by lra. lra.
Qed.

Lemma enhance_chance_is_a_percentage_witness :
  exists c : R,
    PyFloat (Rpower 0.9 (ln (1 + 0) / ln 10 * (ln (1 + 0) / ln 10)) * 100)
    = PyFloat c /\ 0 <= c <= 100 /\ (0 = 0 -> c = 100).
Proof.
  assert (Hrange : 0 <= 0 <= 2 ^ 500).
  { split; [lra |]. left. apply pow_lt. lra. }
  exact (enhance_chance_is_a_percentage
           (mkCalc None (Some 0) None None None) 0 _ eq_refl
           (calculate_zodiac_enhance_chance_ok
              (mkCalc None (Some 0) None None None) 0 eq_refl Hrange)).
Defined.

(** X8: from quality 0 on, a higher quality never has a higher enhance
    chance. *)
Theorem enhance_chance_falls_with_quality
    (self1 self2 : ZodiacCalculator) (q1 q2 c1 c2 : R) :
  zodiac_quality self1 = Some q1 -> zodiac_quality self2 = Some q2 ->
  0 <= q1 -> q1 <= q2 ->
  calculate_zodiac_enhance_chance self1 = Ok (Some (PyFloat c1)) ->
  calculate_zodiac_enhance_chance self2 = Ok (Some (PyFloat c2)) ->
  c2 <= c1.
Proof.
  intros Hq1 Hq2 H0 H12 Hc1 Hc2.
  destruct (calculate_zodiac_enhance_chance_cases self1 q1 Hq1)
    as [E | [_ E]]; rewrite E in Hc1; [discriminate |].
  destruct (calculate_zodiac_enhance_chance_cases self2 q2 Hq2)
    as [E' | [_ E']]; rewrite E' in Hc2; [discriminate |].
  injection Hc1 as <-. injection Hc2 as <-.
  pose proof (log10_nonneg q1 H0) as Hn1.
  pose proof (log10_monotone q1 q2 H0 H12) as Hmono.
  set (lg1 := ln (1 + q1) / ln 10) in *.
  set (lg2 := ln (1 + q2) / ln 10) in *.
  assert (Hsq : lg1 * lg1 <= lg2 * lg2) by nra.
  pose proof (Rpower_small_base_decr 0.9 (lg1 * lg1) (lg2 * lg2)) as Hdecr.
  assert (Rpower 0.9 (lg2 * lg2) <= Rpower 0.9 (lg1 * lg1))
    by (apply Hdecr; lra).
  lra.
Qed.

Lemma enhance_chance_falls_with_quality_witness :
  exists c1 c2 : R,
    calculate_zodiac_enhance_chance (mkCalc None (Some 0) None None None)
    = Ok (Some (PyFloat c1)) /\
    calculate_zodiac_enhance_chance (mkCalc None (Some 9) None None None)
    = Ok (Some (PyFloat c2)) /\
    c2 <= c1.
Proof.
  assert (Hp : 0 < 2 ^ 500) by (apply pow_lt; lra).
  assert (Hbig : 9 <= 2 ^ 500).
  { apply Rle_trans with (2 ^ 4); [simpl; lra |]. apply Rle_pow; [lra | lia]. }
  assert (R1 : 0 <= 0 <= 2 ^ 500) by lra.
  assert (R2 : 0 <= 9 <= 2 ^ 500) by lra.
  assert (H0 : 0 <= 0) by lra.
  assert (H12 : 0 <= 9) by lra.
  pose proof (calculate_zodiac_enhance_chance_ok
                (mkCalc None (Some 0) None None None) 0 eq_refl R1) as E1.
  pose proof (calculate_zodiac_enhance_chance_ok
                (mkCalc None (Some 9) None None None) 9 eq_refl R2) as E2.
  do 2 eexists. split; [exact E1 |]. split; [exact E2 |].
  exact (enhance_chance_falls_with_quality
           (mkCalc None (Some 0) None None None)
           (mkCalc None (Some 9) None None None) 0 9 _ _
           eq_refl eq_refl H0 H12 E1 E2).
Defined.

(** ** The luck transform from the cap on *)

Lemma real_pow_nonneg (x y : R) : 0 <= real_pow x y.
Proof.
  unfold real_pow. destruct (Reqb x 0).
  - destruct (Reqb y 0); lra.
  - left. apply Rpower_pos.
Qed.

Lemma real_pow_monotone (x1 x2 y : R) :
  0 < y -> 0 <= x1 -> x1 <= x2 -> real_pow x1 y <= real_pow x2 y.
Proof.
  intros Hy H1 H12. unfold real_pow.
  destruct (Req_dec_T x1 0) as [-> | Hn1].
  - rewrite (Reqb_true 0 0) by reflexivity. rewrite (Reqb_false y) by lra.
    destruct (Reqb x2 0); [lra | left; apply Rpower_pos].
  - rewrite (Reqb_false x1) by assumption.
    rewrite (Reqb_false x2) by lra.
    apply Rle_Rpower_l; lra.
Qed.

Lemma real_pow_one (y : R) : real_pow 1 y = 1.
Proof. unfold real_pow. rewrite Reqb_false by lra. apply Rpower_base_1. Qed.

Lemma real_pow_below_one (x y : R) : 0 < y -> 0 <= x < 1 -> real_pow x y < 1.
Proof.
  intros Hy Hx. unfold real_pow.
  destruct (Req_dec_T x 0) as [-> | Hnz].
  - rewrite Reqb_true by reflexivity. rewrite Reqb_false by lra. lra.
  - rewrite Reqb_false by assumption.
    rewrite <- (Rpower_base_1 y). apply Rlt_Rpower_l; lra.
Qed.

(** X9: from luck 18 on the zodiac luck is not negative; it stays below 18
    for a luck below 19 (the transform drops at the cap: luck just under 18
    gives nearly 18, luck 18 gives 0) and is at least 18 from luck 19 on. *)
Theorem zodiac_luck_from_the_cap
    (self : ZodiacCalculator) (lk z : R) :
  luck self = Some lk -> 18 <= lk ->
  calculate_zodiac_luck self = Ok (Some (PyFloat z)) ->
  0 <= z /\ (lk < 19 -> z < 18) /\ (19 <= lk -> 18 <= z).
Proof.
  intros Hlk Hcap Hres.
  destruct (calculate_zodiac_luck_cases self lk Hlk) as [E | E];
    rewrite E in Hres; [discriminate |].
  injection Hres as <-.
  unfold soft_cap. rewrite Rltb_false by lra.
  pose proof (real_pow_nonneg (lk - 18) 0.3) as Hnn.
  split; [lra |]. split.
  - intros Hlt. pose proof (real_pow_below_one (lk - 18) 0.3). lra.
  - intros Hge.
    pose proof (real_pow_monotone 1 (lk - 18) 0.3) as Hmono.
    rewrite real_pow_one in Hmono. lra.
Qed.

Lemma zodiac_luck_from_the_cap_witness :
  18 <= 18 /\
  calculate_zodiac_luck (mkCalc None None None (Some 18) None)
  = Ok (Some (PyFloat (soft_cap 18))) /\
  soft_cap 18 < 18.
Proof.
  assert (H : 18 <= 18) by lra.
  assert (H19 : 18 < 19) by lra.
  pose proof (calculate_zodiac_luck_present
                (mkCalc None None None (Some 18) None) 18 eq_refl
                finite_float_18) as E.
  destruct (zodiac_luck_from_the_cap
              (mkCalc None None None (Some 18) None) 18 _ eq_refl H E)
    as (_ & Hlt & _).
  split; [exact H |]. split; [exact E | exact (Hlt H19)].
Defined.

(** X10: from luck 18 on, a higher luck never has a lower zodiac luck. *)
Theorem zodiac_luck_grows_from_the_cap
    (self1 self2 : ZodiacCalculator) (lk1 lk2 z1 z2 : R) :
  luck self1 = Some lk1 -> luck self2 = Some lk2 ->
  18 <= lk1 -> lk1 <= lk2 ->
  calculate_zodiac_luck self1 = Ok (Some (PyFloat z1)) ->
  calculate_zodiac_luck self2 = Ok (Some (PyFloat z2)) ->
  z1 <= z2.
Proof.
  intros H1 H2 Hcap H12 E1 E2.
  destruct (calculate_zodiac_luck_cases self1 lk1 H1) as [E | E];
    rewrite E in E1; [discriminate |].
  destruct (calculate_zodiac_luck_cases self2 lk2 H2) as [E' | E'];
    rewrite E' in E2; [discriminate |].
  injection E1 as <-. injection E2 as <-.
  unfold soft_cap. rewrite !Rltb_false by lra.
  pose proof (real_pow_monotone (lk1 - 18) (lk2 - 18) 0.3). lra.
Qed.

Lemma finite_float_19 : finite_float 19.
Proof.
  unfold finite_float. rewrite Rabs_right by lra.
  apply Rle_trans with (2 ^ 5); [simpl; lra | apply pow2_le_float_max; lia].
Qed.

Lemma zodiac_luck_grows_from_the_cap_witness :
  18 <= 18 /\ 18 <= 19 /\ soft_cap 18 <= soft_cap 19.
Proof.
  assert (H : 18 <= 18) by lra.
  assert (H12 : 18 <= 19) by lra.
  split; [exact H |]. split; [exact H12 |].
  exact (zodiac_luck_grows_from_the_cap
           (mkCalc None None None (Some 18) None)
           (mkCalc None None None (Some 19) None) 18 19 _ _
           eq_refl eq_refl H H12
           (calculate_zodiac_luck_present
              (mkCalc None None None (Some 18) None) 18 eq_refl
              finite_float_18)
           (calculate_zodiac_luck_present
              (mkCalc None None None (Some 19) None) 19 eq_refl
              finite_float_19)).
Defined.

(** ** Where every chance is zero *)

Lemma zero_dict_float_dict :
  zero_dict = float_dict (map (fun rarity => (rarity, 0)) rarities).
Proof. reflexivity. Qed.

Lemma calculate_rarity_chances_zero_dict :
  calculate_rarity_chances zero_dict = Ok zero_dict.
Proof.
  rewrite zero_dict_float_dict at 1.
  rewrite calculate_rarity_chances_zero.
  - reflexivity.
  - exact rarities_NoDup.
  - unfold Rsum. simpl. lra.
Qed.

Lemma table_immortal_zero (L : R) : L <= 25 -> table_immortal L = 0.
Proof.
  intros HL. unfold table_immortal.
  assert (H5 : Rpower 1.1 (L - 20) <= Rpower 1.1 5)
    by (apply Rle_Rpower; lra).
  rewrite (Rpower_natZ 1.1 5 5) in H5 by (try lra; reflexivity).
  simpl in H5. apply Rmax_left. lra.
Qed.

Lemma table_weights_below_one (L : R) : L < 1 -> table_weights L = zero_dict.
Proof.
  intros HL. unfold table_weights.
  rewrite table_immortal_zero by lra.
  unfold table_garbage, table_common, table_uncommon, table_rare, table_epic,
    table_legendary, table_mythic, table_godly, table_divine.
  repeat rewrite between_false by (left; lra).
  reflexivity.
Qed.

(** X11: for a zodiac luck below 1, and for one so large that the Immortal
    power overflows, every weight is 0 and calculate_rarity_chances turns
    the weights into chances that are all 0 as well. *)
Theorem no_chances_below_one_or_on_overflow (L : R) :
  L < 1 \/ float_max < Rpower 1.1 (L - 20) ->
  calculate_rarity_weights L = Ok zero_dict /\
  calculate_rarity_chances zero_dict = Ok zero_dict.
Proof.
  intros Hcase. split; [| exact calculate_rarity_chances_zero_dict].
  destruct Hcase as [HL | Hov].
  - rewrite calculate_rarity_weights_ok
      by (apply immortal_power_in_range; lra).
    now rewrite table_weights_below_one.
  - rewrite calculate_rarity_weights_overflow by assumption.
    now rewrite zero_weights_eq.
Qed.

Lemma no_chances_below_one_or_on_overflow_witness :
  (0 < 1 \/ float_max < Rpower 1.1 (0 - 20)) /\
  calculate_rarity_weights 0 = Ok zero_dict /\
  calculate_rarity_chances zero_dict = Ok zero_dict.
Proof.
  assert (H : 0 < 1 \/ float_max < Rpower 1.1 (0 - 20)) by (left; lra).
  split; [exact H | exact (no_chances_below_one_or_on_overflow 0 H)].
Defined.

(** ** Chances are percentages *)

Lemma Rsum_nonneg (xs : list R) : Forall (fun x => 0 <= x) xs -> 0 <= Rsum xs.
Proof.
  induction 1 as [| x xs Hx _ IH].
  - unfold Rsum. simpl. lra.
  - rewrite Rsum_cons. lra.
Qed.

Lemma Rsum_bounds_member (xs : list R) (x : R) :
  Forall (fun x => 0 <= x) xs -> In x xs -> x <= Rsum xs.
Proof.
  intros Hall. induction Hall as [| y xs Hy Hall IH]; intros Hin.
  - destruct Hin.
  - rewrite Rsum_cons. pose proof (Rsum_nonneg xs Hall).
    destruct Hin as [-> | Hin]; [lra |]. specialize (IH Hin). lra.
Qed.

Lemma normalised_chances_are_percentages (items : list (string * R)) :
  Forall (fun kv => 0 <= snd kv) items ->
  Rsum (map snd items) <> 0 ->
  Forall (fun kv => percentage (snd kv))
    (float_dict
       (map (fun kv => (fst kv, snd kv / Rsum (map snd items) * 100)) items)).
Proof.
  intros Hnn HT.
  assert (Hall : Forall (fun x => 0 <= x) (map snd items)).
  { rewrite Forall_forall in *. intros x Hin.
    apply in_map_iff in Hin as (kv & <- & Hkv). now apply Hnn. }
  assert (Tpos : 0 < Rsum (map snd items)).
  { pose proof (Rsum_nonneg _ Hall). lra. }
  unfold float_dict. rewrite map_map.
  rewrite Forall_forall. intros kv' Hin.
  apply in_map_iff in Hin as (kv & <- & Hkv). cbn [snd fst].
  eexists. split; [reflexivity |].
  assert (H0 : 0 <= snd kv) by (rewrite Forall_forall in Hnn; now apply Hnn).
  assert (H1 : snd kv <= Rsum (map snd items)).
  { apply Rsum_bounds_member; [assumption |]. now apply in_map. }
  set (T := Rsum (map snd items)) in *.
  assert (Hq : 0 <= snd kv / T <= 1).
  { split.
    - apply Rmult_le_pos; [assumption |]. left. now apply Rinv_0_lt_compat.
    - apply Rmult_le_reg_r with T; [assumption |].
      unfold Rdiv. rewrite Rmult_assoc, Rinv_l by lra. lra. }
  lra.
Qed.

Lemma zero_dict_percentages : Forall (fun kv => percentage (snd kv)) zero_dict.
Proof.
  unfold zero_dict, rarities. cbn [map].
  repeat (apply Forall_cons;
          [cbn [snd]; exists 0; split; [reflexivity | lra] |]).
  apply Forall_nil.
Qed.

Lemma table_items_nonneg (L : R) :
  Forall (fun kv : string * R => 0 <= snd kv)
    [("Garbage", table_garbage L); ("Common", table_common L);
     ("Uncommon", table_uncommon L); ("Rare", table_rare L);
     ("Epic", table_epic L); ("Legendary", table_legendary L);
     ("Mythic", table_mythic L); ("Godly", table_godly L);
     ("Divine", table_divine L); ("Immortal", table_immortal L)]%string.
Proof.
  repeat (apply Forall_cons; [cbn [snd] |]); [.. | apply Forall_nil].
  - apply table_garbage_nonneg.
  - apply table_common_nonneg.
  - apply table_uncommon_nonneg.
  - apply table_rare_nonneg.
  - apply table_epic_nonneg.
  - apply table_legendary_nonneg.
  - apply table_mythic_nonneg.
  - apply table_godly_nonneg.
  - apply table_divine_nonneg.
  - apply table_immortal_nonneg.
Qed.


(** ** Immortal alone from 70 on *)

Lemma table_weights_from_seventy (L : R) :
  70 <= L ->
  table_weights L
  = float_dict
      [("Garbage", 0); ("Common", 0); ("Uncommon", 0); ("Rare", 0);
       ("Epic", 0); ("Legendary", 0); ("Mythic", 0); ("Godly", 0);
       ("Divine", 0); ("Immortal", table_immortal L)]%string.
Proof.
  intros HL. unfold table_weights.
  unfold table_garbage, table_common, table_uncommon, table_rare, table_epic,
    table_legendary, table_mythic, table_godly, table_divine.
  repeat rewrite between_false by (right; lra).
  reflexivity.
Qed.

(** X13: from zodiac luck 70 on, as long as the Immortal product
    300 * 1.1 ** (L - 20) stays in the float range (so that the Immortal
    weight is a finite float), the chance of Immortal is 100 and every other
    chance is 0. *)
Theorem immortal_takes_every_chance_from_seventy (L : R) :
  70 <= L -> 300 * Rpower 1.1 (L - 20) <= float_max ->
  exists weights : dict,
    calculate_rarity_weights L = Ok weights /\
    calculate_rarity_chances weights
    = Ok (float_dict
            [("Garbage", 0); ("Common", 0); ("Uncommon", 0); ("Rare", 0);
             ("Epic", 0); ("Legendary", 0); ("Mythic", 0); ("Godly", 0);
             ("Divine", 0); ("Immortal", 100)]%string).
Proof.
  intros HL Hprod. exists (table_weights L).
  assert (Hin : Rpower 1.1 (L - 20) <= float_max)
    by (apply immortal_power_below_product; exact Hprod).
  split; [now apply calculate_rarity_weights_ok |].
  rewrite table_weights_from_seventy by assumption.
  pose proof (table_immortal_pos L) as Hpos.
  assert (Hw : 0 < table_immortal L) by (apply Hpos; lra).
  set (w := table_immortal L) in *.
  assert (HT : Rsum (map snd
                 [("Garbage"%string, 0); ("Common"%string, 0);
                  ("Uncommon"%string, 0); ("Rare"%string, 0);
                  ("Epic"%string, 0); ("Legendary"%string, 0);
                  ("Mythic"%string, 0); ("Godly"%string, 0);
                  ("Divine"%string, 0); ("Immortal"%string, w)]) = w).
  { unfold Rsum. simpl. lra. }
  rewrite calculate_rarity_chances_nonzero;
    [| exact rarities_NoDup | rewrite HT; lra].
  rewrite HT. cbn [map fst snd float_dict].
  replace (0 / w * 100) with 0 by (unfold Rdiv; ring).
  replace (w / w * 100) with 100 by (field; lra).
  reflexivity.
Qed.

Lemma immortal_takes_every_chance_from_seventy_witness :
  70 <= 70 /\ 300 * Rpower 1.1 (70 - 20) <= float_max /\
  exists weights : dict,
    calculate_rarity_weights 70 = Ok weights /\
    calculate_rarity_chances weights
    = Ok (float_dict
            [("Garbage", 0); ("Common", 0); ("Uncommon", 0); ("Rare", 0);
             ("Epic", 0); ("Legendary", 0); ("Mythic", 0); ("Godly", 0);
             ("Divine", 0); ("Immortal", 100)]%string).
Proof.
  assert (H : 70 <= 70) by lra.
  assert (Hin : 300 * Rpower 1.1 (70 - 20) <= float_max).
  { apply immortal_product_in_range. lra. }
  split; [exact H |]. split; [exact Hin |].
  exact (immortal_takes_every_chance_from_seventy 70 H Hin).
Defined.

(** ** The floors *)

Lemma weight_of_immortal (L : R) :
  Rpower 1.1 (L - 20) <= float_max ->
  weight_of "Immortal" L = table_immortal L.
Proof.
  intros Hin. unfold weight_of.
  now rewrite calculate_rarity_weights_ok by assumption.
Qed.

Lemma floored_rise_zero (a base c : R) (L offset : R) :
  1 <= base -> 0 <= a -> a <= c -> L <= offset ->
  Rmax 0 (a * Rpower base (L - offset) - c) = 0.
Proof.
  intros Hb Ha Hac HL.
  pose proof (Rpower_le_1_neg_exp base (L - offset)) as H1.
  pose proof (Rpower_pos base (L - offset)) as H0.
  apply Rmax_left.
  assert (Rpower base (L - offset) <= 1) by (apply H1; lra). nra.
Qed.

(** X14: the tiers with a floor have weight 0 at low luck: Epic up to 2,
    Legendary up to 3, Mythic up to 5, Godly up to 8, Divine up to 12 and
    Immortal up to 25. *)
Theorem floored_tiers_are_zero_up_to_their_threshold
    (rarity : string) (t L : R) :
  In (rarity, t) floor_thresholds -> L <= t -> weight_of rarity L = 0.
Proof.
  intros Hin HL. unfold floor_thresholds in Hin. simpl in Hin.
  repeat (destruct Hin as [Heq | Hin];
          [injection Heq as <- <- |]); try contradiction.
  - rewrite weight_of_epic. unfold table_epic.
    rewrite floored_rise_zero by lra.
    repeat match goal with |- context [between ?a L ?b] =>
      destruct (between a L b) end; lra.
  - rewrite weight_of_legendary. unfold table_legendary.
    rewrite floored_rise_zero by lra.
    repeat match goal with |- context [between ?a L ?b] =>
      destruct (between a L b) end; lra.
  - rewrite weight_of_mythic. unfold table_mythic.
    rewrite floored_rise_zero by lra.
    repeat match goal with |- context [between ?a L ?b] =>
      destruct (between a L b) end; lra.
  - rewrite weight_of_godly. unfold table_godly.
    rewrite floored_rise_zero by lra.
    repeat match goal with |- context [between ?a L ?b] =>
      destruct (between a L b) end; lra.
  - rewrite weight_of_divine. unfold table_divine.
    rewrite floored_rise_zero by lra.
    repeat match goal with |- context [between ?a L ?b] =>
      destruct (between a L b) end; lra.
  - rewrite weight_of_immortal
      by (apply immortal_power_in_range; lra).
    now apply table_immortal_zero.
Qed.

Lemma floored_tiers_are_zero_up_to_their_threshold_witness :
  In ("Immortal"%string, 25) floor_thresholds /\ 25 <= 25 /\
  weight_of "Immortal" 25 = 0.
Proof.
  assert (Hin : In ("Immortal"%string, 25) floor_thresholds).
  { unfold floor_thresholds. simpl. tauto. }
  assert (H : 25 <= 25) by lra.
  split; [exact Hin |]. split; [exact H |].
  exact (floored_tiers_are_zero_up_to_their_threshold "Immortal" 25 25 Hin H).
Defined.

(** ** Immortal only grows *)

Lemma Rmax0_monotone (x y : R) : x <= y -> Rmax 0 x <= Rmax 0 y.
Proof.
  intros Hxy. unfold Rmax.
  destruct (Rle_dec 0 x); destruct (Rle_dec 0 y); lra.
Qed.

(** X15: the weight of Immortal never decreases as the zodiac luck grows,
    up to the point where its power overflows. *)
Theorem immortal_weight_grows_until_overflow (L1 L2 : R) :
  L1 <= L2 -> Rpower 1.1 (L2 - 20) <= float_max ->
  weight_of "Immortal" L1 <= weight_of "Immortal" L2.
Proof.
  intros H12 Hin.
  assert (Hmono : Rpower 1.1 (L1 - 20) <= Rpower 1.1 (L2 - 20))
    by (apply Rle_Rpower; lra).
  rewrite !weight_of_immortal by lra.
  unfold table_immortal. apply Rmax0_monotone. lra.
Qed.

Lemma immortal_weight_grows_until_overflow_witness :
  30 <= 40 /\ Rpower 1.1 (40 - 20) <= float_max /\
  weight_of "Immortal" 30 <= weight_of "Immortal" 40.
Proof.
  assert (H : 30 <= 40) by lra.
  assert (Hin : Rpower 1.1 (40 - 20) <= float_max).
  { apply immortal_power_in_range. lra. }
  split; [exact H |]. split; [exact Hin |].
  exact (immortal_weight_grows_until_overflow 30 40 H Hin).
Defined.

(** ** Where each tier peaks *)

Lemma rise_monotone (A a c B L1 L2 : R) :
  1 <= a -> 0 <= A -> L1 <= L2 ->
  A * Rpower a (L1 - c) - B <= A * Rpower a (L2 - c) - B.
Proof.
  intros Ha HA H12.
  assert (Rpower a (L1 - c) <= Rpower a (L2 - c)) by (apply Rle_Rpower; lra).
  nra.
Qed.

Lemma decay_factor_at_breakpoint (d b : R) : 0 < d -> Rpower d (b - b) = 1.
Proof. intros Hd. replace (b - b) with 0 by ring. now apply Rpower_O. Qed.

Lemma table_garbage_peak (L : R) : table_garbage L <= table_garbage 1.
Proof.
  assert (E1 : table_garbage 1 = 5).
  { unfold table_garbage. rewrite between_true by lra.
    rewrite decay_factor_at_breakpoint by lra. lra. }
  rewrite E1. unfold table_garbage. range_cases L; try lra.
  - pose proof (Rpower_le_1_small_base 0.8 (L - 1)). lra.
  - pose proof (Rpower_le_1_small_base 0.8 (L - 1)).
    pose proof (Rpower_le_1_small_base 0.4 (L - 2)).
    pose proof (Rpower_pos 0.8 (L - 1)). pose proof (Rpower_pos 0.4 (L - 2)).
    assert (Rpower 0.8 (L - 1) * Rpower 0.4 (L - 2) <= 1 * 1)
      by (apply Rmult_le_compat; lra).
    lra.
Qed.

Lemma table_common_peak (L : R) : table_common L <= table_common 1.
Proof.
  assert (E1 : table_common 1 = 15).
  { unfold table_common. now rewrite between_true by lra. }
  rewrite E1. unfold table_common. range_cases L; try lra.
  pose proof (Rpower_le_1_small_base 0.45 (L - 2)). lra.
Qed.

Lemma table_uncommon_peak (L : R) : table_uncommon L <= table_uncommon 3.
Proof.
  destruct (Rle_dec 3 L) as [Hge | Hlt];
    [apply table_uncommon_decreasing; lra |].
  pose proof (table_uncommon_nonneg 3) as Hnn.
  unfold table_uncommon in *.
  rewrite (between_false 1 3 3) in * by (right; lra).
  rewrite (between_true 3 3 8) in * by lra.
  rewrite decay_factor_at_breakpoint in * by lra.
  range_cases L; try lra.
  pose proof (rise_monotone 20 1.5 1 12 L 3). lra.
Qed.

Lemma table_rare_peak (L : R) : table_rare L <= table_rare 5.
Proof.
  destruct (Rle_dec 5 L) as [Hge | Hlt];
    [apply table_rare_decreasing; lra |].
  pose proof (table_rare_nonneg 5) as Hnn.
  unfold table_rare in *.
  rewrite (between_false 1 5 5) in * by (right; lra).
  rewrite (between_true 5 5 12) in * by lra.
  rewrite decay_factor_at_breakpoint in * by lra.
  range_cases L; try lra.
  pose proof (rise_monotone 30 1.45 1 28 L 5). lra.
Qed.

Lemma table_epic_peak (L : R) : table_epic L <= table_epic 8.
Proof.
  destruct (Rle_dec 8 L) as [Hge | Hlt];
    [apply table_epic_decreasing; lra |].
  pose proof (table_epic_nonneg 8) as Hnn.
  unfold table_epic in *.
  rewrite (between_false 1 8 8) in * by (right; lra).
  rewrite (between_true 8 8 20) in * by lra.
  rewrite decay_factor_at_breakpoint in * by lra.
  range_cases L; try lra.
  rewrite Rmult_1_r. apply Rmax0_monotone, rise_monotone; lra.
Qed.

Lemma table_legendary_peak (L : R) : table_legendary L <= table_legendary 12.
Proof.
  destruct (Rle_dec 12 L) as [Hge | Hlt];
    [apply table_legendary_decreasing; lra |].
  pose proof (table_legendary_nonneg 12) as Hnn.
  unfold table_legendary in *.
  rewrite (between_false 1 12 12) in * by (right; lra).
  rewrite (between_true 12 12 30) in * by lra.
  rewrite decay_factor_at_breakpoint in * by lra.
  range_cases L; try lra.
  rewrite Rmult_1_r. apply Rmax0_monotone, rise_monotone; lra.
Qed.

Lemma table_mythic_peak (L : R) : table_mythic L <= table_mythic 20.
Proof.
  destruct (Rle_dec 20 L) as [Hge | Hlt];
    [apply table_mythic_decreasing; lra |].
  pose proof (table_mythic_nonneg 20) as Hnn.
  unfold table_mythic in *.
  rewrite (between_false 1 20 20) in * by (right; lra).
  rewrite (between_true 20 20 50) in * by lra.
  rewrite decay_factor_at_breakpoint in * by lra.
  range_cases L; try lra.
  rewrite Rmult_1_r. apply Rmax0_monotone, rise_monotone; lra.
Qed.

Lemma table_godly_peak (L : R) : table_godly L <= table_godly 30.
Proof.
  destruct (Rle_dec 30 L) as [Hge | Hlt];
    [apply table_godly_decreasing; lra |].
  pose proof (table_godly_nonneg 30) as Hnn.
  unfold table_godly in *.
  rewrite (between_false 1 30 30) in * by (right; lra).
  rewrite (between_true 30 30 60) in * by lra.
  rewrite decay_factor_at_breakpoint in * by lra.
  range_cases L; try lra.
  rewrite Rmult_1_r. apply Rmax0_monotone, rise_monotone; lra.
Qed.

(** Between 40 and 50 Divine still grows: its rise 1.2 outweighs the first
    decay factor 0.92. *)
Lemma divine_middle_grows (L1 L2 : R) :
  40 <= L1 -> L1 <= L2 ->
  (200 * Rpower 1.2 (L1 - 12) - 300) * Rpower 0.92 (L1 - 40)
  <= (200 * Rpower 1.2 (L2 - 12) - 300) * Rpower 0.92 (L2 - 40).
Proof.
  intros H1 H12.
  assert (Hsplit : forall L,
    (200 * Rpower 1.2 (L - 12) - 300) * Rpower 0.92 (L - 40)
    = 200 * Rpower 1.2 28 * Rpower 1.104 (L - 40)
      - 300 * Rpower 0.92 (L - 40)).
  { intros L. replace (L - 12) with (28 + (L - 40)) by ring.
    rewrite Rpower_plus.
    replace 1.104 with (1.2 * 0.92) by lra.
    rewrite <- Rpower_mult_distr by lra. ring. }
  rewrite !Hsplit.
  assert (Hup : Rpower 1.104 (L1 - 40) <= Rpower 1.104 (L2 - 40))
    by (apply Rle_Rpower; lra).
  assert (Hdown : Rpower 0.92 (L2 - 40) <= Rpower 0.92 (L1 - 40))
    by (apply Rpower_small_base_decr; lra).
  pose proof (Rpower_pos 1.2 28). nra.
Qed.

Lemma divine_rise_pos (L : R) :
  40 <= L -> 0 < 200 * Rpower 1.2 (L - 12) - 300.
Proof.
  intros HL. apply rise_pos with (k := 7%nat); simpl; lra.
Qed.

Lemma table_divine_peak (L : R) : table_divine L <= table_divine 50.
Proof.
  destruct (Rle_dec 50 L) as [Hge | Hlt];
    [apply table_divine_decreasing; lra |].
  pose proof (table_divine_nonneg 50) as Hnn.
  assert (E50 : table_divine 50
                = (200 * Rpower 1.2 (50 - 12) - 300) * Rpower 0.92 (50 - 40)).
  { unfold table_divine.
    rewrite (between_false 1 50 40) by (right; lra).
    rewrite (between_false 40 50 50) by (right; lra).
    rewrite (between_true 50 50 70) by lra.
    rewrite decay_factor_at_breakpoint by lra.
    rewrite Rmax_right by (left; apply divine_rise_pos; lra). ring. }
  rewrite E50 in *. unfold table_divine. range_cases L; try lra.
  - apply Rle_trans
      with ((200 * Rpower 1.2 (40 - 12) - 300) * Rpower 0.92 (40 - 40));
      [| apply divine_middle_grows; lra].
    rewrite decay_factor_at_breakpoint, Rmult_1_r by lra.
    rewrite <- (Rmax_right 0 (200 * Rpower 1.2 (40 - 12) - 300))
      by (left; apply divine_rise_pos; lra).
    apply Rmax0_monotone, rise_monotone; lra.
  - rewrite Rmax_right by (left; apply divine_rise_pos; lra).
    apply divine_middle_grows; lra.
Qed.

(** X16: each gated tier has its largest weight at a known luck: Garbage and
    Common at 1, Uncommon at 3, Rare at 5, Epic at 8, Legendary at 12,
    Mythic at 20, Godly at 30 and Divine at 50; no luck gives more. *)
Theorem gated_tiers_peak (rarity : string) (p L : R) :
  In (rarity, p) peaks -> weight_of rarity L <= weight_of rarity p.
Proof.
  intros Hin. unfold peaks in Hin. simpl in Hin.
  repeat (destruct Hin as [Heq | Hin];
          [injection Heq as <- <- |]); try contradiction.
  - rewrite !weight_of_garbage. apply table_garbage_peak.
  - rewrite !weight_of_common. apply table_common_peak.
  - rewrite !weight_of_uncommon. apply table_uncommon_peak.
  - rewrite !weight_of_rare. apply table_rare_peak.
  - rewrite !weight_of_epic. apply table_epic_peak.
  - rewrite !weight_of_legendary. apply table_legendary_peak.
  - rewrite !weight_of_mythic. apply table_mythic_peak.
  - rewrite !weight_of_godly. apply table_godly_peak.
  - rewrite !weight_of_divine. apply table_divine_peak.
Qed.

Lemma gated_tiers_peak_witness :
  In ("Divine"%string, 50) peaks /\
  weight_of "Divine" 45 <= weight_of "Divine" 50.
Proof.
  assert (Hin : In ("Divine"%string, 50) peaks).
  { unfold peaks. simpl. tauto. }
  split; [exact Hin | exact (gated_tiers_peak "Divine" 50 45 Hin)].
Defined.

(** ** Printing *)

Lemma quiet_ret {A : Type} (st : state) (a : A) (P : A -> Prop) :
  P a -> quiet_at st (io_ret a) P.
Proof.
  intros HP. exists [], a. split; [| assumption].
  unfold io_ret. rewrite app_nil_r. now destruct st.
Qed.

Lemma quiet_print (st : state) (line : string) :
  quiet_at st (print line) (fun _ => True).
Proof. exists [line], tt. split; [reflexivity | exact I]. Qed.

Lemma quiet_lift {A : Type} (st : state) (r : result A) (a : A)
    (P : A -> Prop) :
  r = Ok a -> P a -> quiet_at st (lift r) P.
Proof.
  intros -> HP. exists [], a. split; [| assumption].
  unfold lift. rewrite app_nil_r. now destruct st.
Qed.

Lemma quiet_get_self (st : state) :
  quiet_at st get_self (fun self => self = st_self st).
Proof.
  exists [], (st_self st). split; [| reflexivity].
  unfold get_self. rewrite app_nil_r. now destruct st.
Qed.

Lemma quiet_bind {A B : Type} (st : state) (m : io A) (k : A -> io B)
    (P : A -> Prop) (Q : B -> Prop) :
  quiet_at st m P ->
  (forall a st', st_self st' = st_self st -> st_stdin st' = st_stdin st ->
                 P a -> quiet_at st' (k a) Q) ->
  quiet_at st (io_bind m k) Q.
Proof.
  intros (out & a & Em & HP) Hk.
  destruct (Hk a (mkState (st_self st) (st_stdin st) (st_stdout st ++ out))
              eq_refl eq_refl HP) as (out' & b & Ek & HQ).
  exists (out ++ out'), b. split; [| assumption].
  unfold io_bind. rewrite Em, Ek. cbn [st_self st_stdin st_stdout].
  now rewrite app_assoc.
Qed.

Lemma quiet_weaken {A : Type} (st : state) (m : io A) (P Q : A -> Prop) :
  quiet_at st m P -> (forall a, P a -> Q a) -> quiet_at st m Q.
Proof. intros (out & a & E & HP) HPQ. exists out, a. auto. Qed.

Section Display.

Variable format_value : pyval -> string -> string.

Lemma format_number_float (x : R) :
  exists s : string, _format_number format_value (PyFloat x) = Ok s.
Proof.
  unfold _format_number. cbn [math_isinf math_isnan bind].
  destruct (Rleb 1000000 (py_abs (PyFloat x))); [eauto |].
  destruct (Rleb 1000 (py_abs (PyFloat x))); [eauto |].
  destruct (Rleb 1 (py_abs (PyFloat x))); eauto.
Qed.

Lemma format_number_complex (re im : R) :
  _format_number format_value (PyComplex re im) = Raise TypeError.
Proof. reflexivity. Qed.

Lemma quiet_print_items (line_of : string -> pyval -> result string)
    (items : dict) (st : state) :
  (forall k v, In (k, v) items -> exists s, line_of k v = Ok s) ->
  quiet_at st (print_items line_of items) (fun _ => True).
Proof.
  revert st. induction items as [| [k v] items IH]; intros st Hline.
  - now apply quiet_ret.
  - cbn [print_items].
    destruct (Hline k v (or_introl eq_refl)) as [s Es].
    eapply quiet_bind; [eapply quiet_lift; [exact Es | exact I] |].
    intros ? st1 _ _ _.
    eapply quiet_bind; [apply quiet_print |].
    intros ? st2 _ _ _. apply IH.
    intros k' v' Hin. apply Hline. now right.
Qed.

Lemma float_valued_lines (d : dict) :
  float_valued d ->
  forall k v, In (k, v) d ->
  exists s,
    (fun rarity weight =>
       s <- _format_number format_value weight ;;
       Ok ("  " ++ rarity ++ ": " ++ s)%string) k v = Ok s.
Proof.
  intros Hd k v Hin. unfold float_valued in Hd.
  rewrite Forall_forall in Hd.
  destruct (Hd (k, v) Hin) as [x Hx]. cbn [snd] in Hx. subst v.
  destruct (format_number_float x) as [s ->]. cbn [bind]. eauto.
Qed.

End Display.

(** The rarity analysis always goes through: for every luck the weights
    and the chances are computed, over the ten tiers, the weights as floats
    that are not negative and the chances as percentages. *)
Lemma rarity_analysis (L : R) :
  exists weights chances : dict,
    calculate_rarity_weights L = Ok weights /\
    calculate_rarity_chances weights = Ok chances /\
    map fst chances = rarities /\
    Forall (fun kv => percentage (snd kv)) chances /\
    float_valued weights.
Proof.
  destruct (Rle_dec (Rpower 1.1 (L - 20)) float_max) as [Hin | Hout].
  - exists (table_weights L).
    rewrite calculate_rarity_weights_ok by assumption.
    assert (Hfv : float_valued (table_weights L)).
    { unfold float_valued, table_weights.
      repeat (apply Forall_cons; [cbn [snd]; eauto |]). apply Forall_nil. }
    rewrite table_weights_float_dict in *.
    match goal with
    | |- context [float_dict ?l] => set (items := l) in *
    end.
    assert (Hnd : NoDup (map fst items)) by exact rarities_NoDup.
    destruct (Req_dec_T (Rsum (map snd items)) 0) as [HT | HT].
    + exists (float_dict (map (fun kv => (fst kv, 0)) items)).
      split; [reflexivity |].
      split; [now apply calculate_rarity_chances_zero |].
      split; [reflexivity |].
      split; [exact zero_dict_percentages | exact Hfv].
    + exists (float_dict
                (map (fun kv => (fst kv, snd kv / Rsum (map snd items) * 100))
                     items)).
      split; [reflexivity |].
      split; [now apply calculate_rarity_chances_nonzero |].
      split; [reflexivity |].
      split; [| exact Hfv].
      apply normalised_chances_are_percentages; [| assumption].
      apply table_items_nonneg.
  - exists zero_dict, zero_dict.
    rewrite calculate_rarity_weights_overflow by lra.
    rewrite zero_weights_eq.
    split; [reflexivity |].
    split; [exact calculate_rarity_chances_zero_dict |].
    split; [reflexivity |].
    split; [exact zero_dict_percentages |].
    unfold float_valued, zero_dict, rarities. cbn [map].
    repeat (apply Forall_cons; [cbn [snd]; eauto |]). apply Forall_nil.
Qed.
(** X12: for every zodiac luck outside the window in which the Immortal
    product 300 * 1.1 ** (L - 20) leaves the float range while the power
    1.1 ** (L - 20) is still inside it, the weights and then the chances are
    computed without an exception, and the chances are floats between 0 and
    100 for the ten tiers in their order.  Below the window the weights are
    those of the table; above it the power overflows and the ten weights and
    chances are 0. *)
Theorem chances_are_percentages_of_the_ten_tiers (L : R) :
  300 * Rpower 1.1 (L - 20) <= float_max \/
  float_max < Rpower 1.1 (L - 20) ->
  exists weights chances : dict,
    calculate_rarity_weights L = Ok weights /\
    (300 * Rpower 1.1 (L - 20) <= float_max -> weights = table_weights L) /\
    (float_max < Rpower 1.1 (L - 20) -> weights = zero_weights) /\
    calculate_rarity_chances weights = Ok chances /\
    map fst chances = rarities /\
    Forall (fun kv => percentage (snd kv)) chances.
Proof.
  intros Hrange.
  destruct (rarity_analysis L) as (weights & chances & Hw & Hc & Hk & Hp & _).
  exists weights, chances.
  split; [exact Hw |].
  split.
  { intros Hprod.
    rewrite calculate_rarity_weights_ok in Hw
      by (apply immortal_power_below_product; exact Hprod).
    now injection Hw. }
  split.
  { intros Hover.
    rewrite calculate_rarity_weights_overflow in Hw by exact Hover.
    now injection Hw. }
  repeat split; assumption.
Qed.

Lemma chances_are_percentages_of_the_ten_tiers_witness :
  (300 * Rpower 1.1 (20 - 20) <= float_max \/
   float_max < Rpower 1.1 (20 - 20)) /\
  exists weights chances : dict,
    calculate_rarity_weights 20 = Ok weights /\
    calculate_rarity_chances weights = Ok chances /\
    map fst chances = rarities /\
    Forall (fun kv => percentage (snd kv)) chances.
Proof.
  assert (H : 300 * Rpower 1.1 (20 - 20) <= float_max \/
              float_max < Rpower 1.1 (20 - 20)).
  { left. apply immortal_product_in_range. lra. }
  destruct (chances_are_percentages_of_the_ten_tiers 20 H)
    as (weights & chances & Hw & _ & _ & Hc & Hk & Hp).
  split; [exact H |].
  exists weights, chances. repeat split; assumption.
Defined.

(** ** The report *)

Lemma enhance_price_shape (self : ZodiacCalculator) :
  (forall re im,
     calculate_zodiac_sale_price self <> Ok (Some (PyComplex re im))) ->
  calculate_zodiac_enhance_price self = Ok None \/
  exists y : R, calculate_zodiac_enhance_price self = Ok (Some (PyFloat y)).
Proof.
  intros Hreal.
  destruct (calculate_zodiac_enhance_price_cases self)
    as [E | (sc & q & Hsale & _ & _ & E)]; [now left |].
  right. destruct sc as [x | re im].
  - rewrite E. cbn [py_mul]. eauto.
  - exfalso. exact (Hreal re im Hsale).
Qed.

Lemma enhance_price_returns (self : ZodiacCalculator) :
  exists o, calculate_zodiac_enhance_price self = Ok o.
Proof.
  destruct (calculate_zodiac_enhance_price_cases self)
    as [E | (sc & q & _ & _ & _ & E)]; rewrite E; eauto.
Qed.

Section Report.

Variable format_value : pyval -> string -> string.

Lemma quiet_formatted_line (st : state) (label : string) (o : option pyval) :
  float_or_none o ->
  quiet_at st
    (match o with
     | Some v =>
         s <~ lift (_format_number format_value v) ;;
         print (label ++ s)
     | None => io_ret tt
     end)
    (fun _ => True).
Proof.
  intros [-> | [x ->]].
  - now apply quiet_ret.
  - destruct (format_number_float format_value x) as [s Es].
    eapply quiet_bind; [eapply quiet_lift; [exact Es | exact I] |].
    intros ? st1 _ _ _. apply quiet_print.
Qed.

(** The part of the report on the rarities, for a luck that came back as a
    float. *)
Lemma quiet_rarity_section (st : state) (z : R) :
  quiet_at st
    (weights <~ lift (calculate_rarity_weights_of (PyFloat z)) ;;
     chances <~ lift (calculate_rarity_chances weights) ;;
     print (nl ++ "--- Rarity Analysis ---") ;;;
     s <~ lift (_format_number format_value (PyFloat z)) ;;
     print ("Zodiac Luck: " ++ s) ;;;
     print (nl ++ "Rarity Weights:") ;;;
     print_items
       (fun rarity weight =>
          s <- _format_number format_value weight ;;
          Ok ("  " ++ rarity ++ ": " ++ s)%string)
       weights ;;;
     print (nl ++ "Rarity Chances:") ;;;
     print_items
       (fun rarity chance =>
          Ok ("  " ++ rarity ++ ": " ++ format_value chance ".4f" ++ "%")%string)
       chances ;;;
     io_ret true)
    (fun performed => performed = true).
Proof.
  destruct (rarity_analysis z) as (weights & chances & Hw & Hc & _ & _ & Hfv).
  eapply quiet_bind;
    [eapply quiet_lift with (P := fun w => w = weights);
     [exact Hw | reflexivity] |].
  intros ? st1 _ _ ->.
  eapply quiet_bind;
    [eapply quiet_lift with (P := fun c => c = chances);
     [exact Hc | reflexivity] |].
  intros ? st2 _ _ ->.
  eapply quiet_bind; [apply quiet_print |]. intros ? st3 _ _ _.
  destruct (format_number_float format_value z) as [s Es].
  eapply quiet_bind; [eapply quiet_lift; [exact Es | exact I] |].
  intros ? st4 _ _ _.
  eapply quiet_bind; [apply quiet_print |]. intros ? st5 _ _ _.
  eapply quiet_bind; [apply quiet_print |]. intros ? st6 _ _ _.
  eapply quiet_bind;
    [apply quiet_print_items; now apply float_valued_lines |].
  intros ? st7 _ _ _.
  eapply quiet_bind; [apply quiet_print |]. intros ? st8 _ _ _.
  eapply quiet_bind; [apply quiet_print_items; intros; eauto |].
  intros ? st9 _ _ _. now apply quiet_ret.
Qed.

Lemma quiet_closing (st : state) (performed : bool) :
  quiet_at st
    (if negb performed then
       print (nl ++ "No calculations could be performed with the provided inputs.") ;;;
       print "Please provide the required inputs for the calculations you want to see:" ;;;
       print "- Sale Price/Score: Requires rarity, quality, and level" ;;;
       print "- Enhance Price/Chance: Requires quality (and rarity/level for price)" ;;;
       print "- Rarity Analysis: Requires luck"
     else io_ret tt)
    (fun _ => True).
Proof.
  destruct performed; cbn [negb]; [now apply quiet_ret |].
  repeat (eapply quiet_bind; [apply quiet_print | intros ? ? _ _ _]).
  apply quiet_print.
Qed.

(** With a sale price that is not complex the whole report is printed and
    [display_results] returns. *)
Lemma display_results_quiet (st : state) :
  (forall re im,
     calculate_zodiac_sale_price (st_self st) <> Ok (Some (PyComplex re im))) ->
  quiet_at st (display_results format_value) (fun _ => True).
Proof.
  intros Hreal.
  assert (Hsale : exists o1, calculate_zodiac_sale_price (st_self st) = Ok o1
                             /\ float_or_none o1).
  { destruct (sale_price_shape (st_self st))
      as [E | [[x E] | (re & im & E & _)]].
    - exists None. split; [exact E | now left].
    - exists (Some (PyFloat x)). split; [exact E | right; eauto].
    - exfalso. exact (Hreal re im E). }
  destruct Hsale as (o1 & E1 & H1).
  assert (Hprice : exists o2,
            calculate_zodiac_enhance_price (st_self st) = Ok o2
            /\ float_or_none o2).
  { destruct (enhance_price_shape (st_self st) Hreal) as [E | [y E]].
    - exists None. split; [exact E | now left].
    - exists (Some (PyFloat y)). split; [exact E | right; eauto]. }
  destruct Hprice as (o2 & E2 & H2).
  assert (Hchance : exists o3,
            calculate_zodiac_enhance_chance (st_self st) = Ok o3
            /\ float_or_none o3).
  { destruct (enhance_chance_shape (st_self st)) as [E | [c E]].
    - exists None. split; [exact E | now left].
    - exists (Some (PyFloat c)). split; [exact E | right; eauto]. }
  destruct Hchance as (o3 & E3 & H3).
  assert (Hscore : exists o4,
            calculate_zodiac_score (st_self st) = Ok o4 /\ float_or_none o4).
  { destruct (score_shape (st_self st)) as [E | [s E]].
    - exists None. split; [exact E | now left].
    - exists (Some (PyFloat s)). split; [exact E | right; eauto]. }
  destruct Hscore as (o4 & E4 & H4).
  unfold display_results.
  eapply quiet_bind; [apply quiet_print |]. intros ? st1 S1 _ _.
  eapply quiet_bind; [apply quiet_print |]. intros ? st2 S2 _ _.
  eapply quiet_bind; [apply quiet_print |]. intros ? st3 S3 _ _.
  eapply quiet_bind; [apply quiet_get_self |]. intros self st4 S4 _ ->.
  assert (Hself : st_self st3 = st_self st) by congruence.
  rewrite Hself.
  eapply quiet_bind;
    [eapply quiet_lift with (P := fun o => o = o1);
     [exact E1 | reflexivity] |].
  intros ? st5 _ _ ->.
  eapply quiet_bind;
    [eapply quiet_lift with (P := fun o => o = o2);
     [exact E2 | reflexivity] |].
  intros ? st6 _ _ ->.
  eapply quiet_bind;
    [eapply quiet_lift with (P := fun o => o = o3);
     [exact E3 | reflexivity] |].
  intros ? st7 _ _ ->.
  eapply quiet_bind;
    [eapply quiet_lift with (P := fun o => o = o4);
     [exact E4 | reflexivity] |].
  intros ? st8 _ _ ->.
  eapply quiet_bind with (P := fun _ => True).
  { destruct (existsb truthy [o1; o2; o3; o4]); [| now apply quiet_ret].
    eapply quiet_bind; [apply quiet_print |]. intros ? st9 _ _ _.
    eapply quiet_bind with (P := fun _ => True).
    { destruct H1 as [-> | [x ->]]; [now apply quiet_ret |].
      destruct (format_number_float format_value x) as [s Es].
      eapply quiet_bind; [eapply quiet_lift; [exact Es | exact I] |].
      intros ? st10 _ _ _.
      eapply quiet_bind; [apply quiet_print |]. intros ? st11 _ _ _.
      apply quiet_print. }
    intros ? st10 _ _ _.
    eapply quiet_bind; [now apply quiet_formatted_line |].
    intros ? st11 _ _ _.
    eapply quiet_bind with (P := fun _ => True).
    { destruct H3 as [-> | [c ->]]; [now apply quiet_ret | apply quiet_print]. }
    intros ? st12 _ _ _.
    eapply quiet_bind; [now apply quiet_formatted_line |].
    intros ? st13 _ _ _. now apply quiet_ret. }
  intros performed st9 _ _ _.
  destruct (luck_shape (st_self st)) as [E5 | [z E5]].
  - eapply quiet_bind;
      [eapply quiet_lift with (P := fun o => o = None);
       [exact E5 | reflexivity] |].
    intros ? st10 _ _ ->.
    eapply quiet_bind with (P := fun _ => True); [now apply quiet_ret |].
    intros performed' st11 _ _ _. apply quiet_closing.
  - eapply quiet_bind;
      [eapply quiet_lift with (P := fun o => o = Some (PyFloat z));
       [exact E5 | reflexivity] |].
    intros ? st10 _ _ ->.
    eapply quiet_bind; [apply quiet_rarity_section |].
    intros performed' st11 _ _ _. apply quiet_closing.
Qed.

Lemma display_results_complex_sale_price (st : state) (re im : R) :
  calculate_zodiac_sale_price (st_self st) = Ok (Some (PyComplex re im)) ->
  0 < im ->
  display_results format_value st
  = (mkState (st_self st) (st_stdin st)
       (st_stdout st ++ report_header
        ++ [nl ++ "--- Basic Zodiac Calculations ---"]%string),
     Throw (Exn TypeError)).
Proof.
  intros E1 Him.
  destruct (enhance_price_returns (st_self st)) as [o2 E2].
  assert (Hchance : exists o3,
            calculate_zodiac_enhance_chance (st_self st) = Ok o3).
  { destruct (enhance_chance_shape (st_self st)) as [E | [c E]];
      rewrite E; eauto. }
  destruct Hchance as [o3 E3].
  assert (Hscore : exists o4, calculate_zodiac_score (st_self st) = Ok o4).
  { destruct (score_shape (st_self st)) as [E | [s E]]; rewrite E; eauto. }
  destruct Hscore as [o4 E4].
  unfold display_results, io_bind, print, get_self.
  cbn [st_self st_stdin st_stdout].
  rewrite E1, E2, E3, E4. cbn [lift st_self st_stdin st_stdout].
  cbn [existsb truthy]. unfold py_is_zero. cbn [re_of im_of].
  rewrite (Reqb_false im 0) by lra. rewrite andb_false_r.
  cbn [negb orb st_self st_stdin st_stdout].
  rewrite format_number_complex. cbn [lift].
  unfold report_header. rewrite <- !app_assoc. reflexivity.
Qed.

(** X18: display_results raises exactly when the sale price is a complex
    number: then it stops with TypeError right after the title of the basic
    section, in _format_number; in every other case it prints its report
    and returns, leaving the calculator and the pending input as they
    were. *)
Theorem display_results_raises_exactly_on_a_complex_sale_price (st : state) :
  ((exists re im : R,
      calculate_zodiac_sale_price (st_self st) = Ok (Some (PyComplex re im)))
   /\
   display_results format_value st
   = (mkState (st_self st) (st_stdin st)
        (st_stdout st ++ report_header
         ++ [nl ++ "--- Basic Zodiac Calculations ---"]%string),
      Throw (Exn TypeError)))
  \/
  ((forall re im : R,
      calculate_zodiac_sale_price (st_self st) <> Ok (Some (PyComplex re im)))
   /\
   quiet_at st (display_results format_value) (fun _ => True)).
Proof.
  destruct (sale_price_shape (st_self st))
    as [E | [[x E] | (re & im & E & Him)]].
  - right. assert (Hreal : forall re im,
      calculate_zodiac_sale_price (st_self st) <> Ok (Some (PyComplex re im)))
      by (intros re im; rewrite E; discriminate).
    split; [exact Hreal | now apply display_results_quiet].
  - right. assert (Hreal : forall re im,
      calculate_zodiac_sale_price (st_self st) <> Ok (Some (PyComplex re im)))
      by (intros re im; rewrite E; discriminate).
    split; [exact Hreal | now apply display_results_quiet].
  - left. split; [eauto |].
    now apply display_results_complex_sale_price with (re := re) (im := im).
Qed.

(** X19: with neither quality nor luck, display_results prints the header
    and the five lines that say that nothing could be calculated, and
    nothing else, whatever rarity, level and immo number are. *)
Theorem display_results_without_quality_and_luck (st : state) :
  zodiac_quality (st_self st) = None -> luck (st_self st) = None ->
  display_results format_value st
  = (mkState (st_self st) (st_stdin st)
       (st_stdout st ++ report_header ++ nothing_calculated),
     Return tt).
Proof.
  intros Hq Hl.
  assert (E1 : calculate_zodiac_sale_price (st_self st) = Ok None).
  { unfold calculate_zodiac_sale_price. cbn [_has_required_inputs getattr].
    rewrite Hq. now destruct (zodiac_rarity (st_self st)). }
  assert (E2 : calculate_zodiac_enhance_price (st_self st) = Ok None).
  { unfold calculate_zodiac_enhance_price. now rewrite E1. }
  assert (E3 : calculate_zodiac_enhance_chance (st_self st) = Ok None).
  { unfold calculate_zodiac_enhance_chance.
    cbn [_has_required_inputs getattr]. now rewrite Hq. }
  assert (E4 : calculate_zodiac_score (st_self st) = Ok None).
  { unfold calculate_zodiac_score. cbn [_has_required_inputs getattr].
    rewrite Hq. now destruct (zodiac_rarity (st_self st)). }
  assert (E5 : calculate_zodiac_luck (st_self st) = Ok None).
  { unfold calculate_zodiac_luck. cbn [_has_required_inputs getattr].
    now rewrite Hl. }
  unfold display_results, io_bind, print, get_self.
  cbn [st_self st_stdin st_stdout].
  rewrite E1, E2, E3, E4. cbn [lift st_self st_stdin st_stdout].
  cbn [existsb truthy orb io_ret].
  rewrite E5. cbn [lift io_ret negb st_self st_stdin st_stdout].
  unfold report_header, nothing_calculated.
  rewrite <- !app_assoc. reflexivity.
Qed.

End Report.

Lemma display_results_without_quality_and_luck_witness :
  display_results (fun _ _ => EmptyString) (mkState init [] [])
  = (mkState init [] (report_header ++ nothing_calculated), Return tt).
Proof.
  exact (display_results_without_quality_and_luck
           (fun _ _ => EmptyString) (mkState init [] []) eq_refl eq_refl).
Defined.

(** ** Reading the inputs *)

Section Reading.

Variable strip : string -> string.
Variable float_of_string : string -> option R.

Lemma read_field_accepted (prompt : string)
    (store : ZodiacCalculator -> R -> ZodiacCalculator) (n : nat)
    (self : ZodiacCalculator) (line : string) (rest out : list string) :
  accepted strip float_of_string line ->
  read_field strip float_of_string prompt store n
    (mkState self (line :: rest) out)
  = (mkState (answer strip float_of_string store line self) rest
       (out ++ [prompt]),
     Return (if blank strip line then n else (n + 1)%nat)).
Proof.
  intros Hacc. unfold read_field, io_bind, input, blank, answer.
  cbn [st_self st_stdin st_stdout].
  destruct (nonempty (strip line)) eqn:Hne; cbn [negb]; [| reflexivity].
  unfold float. destruct (float_of_string (strip line)) as [x |] eqn:Hx.
  - reflexivity.
  - exfalso. now apply Hacc.
Qed.

Lemma read_field_rejected (prompt : string)
    (store : ZodiacCalculator -> R -> ZodiacCalculator) (n : nat)
    (self : ZodiacCalculator) (line : string) (rest out : list string) :
  nonempty (strip line) = true -> float_of_string (strip line) = None ->
  read_field strip float_of_string prompt store n
    (mkState self (line :: rest) out)
  = (mkState self rest (out ++ [prompt]), Throw (Exn ValueError)).
Proof.
  intros Hne Hx. unfold read_field, io_bind, input.
  cbn [st_self st_stdin st_stdout].
  rewrite Hne. unfold float. rewrite Hx. reflexivity.
Qed.

Lemma read_field_end_of_input (prompt : string)
    (store : ZodiacCalculator -> R -> ZodiacCalculator) (n : nat)
    (self : ZodiacCalculator) (out : list string) :
  read_field strip float_of_string prompt store n (mkState self [] out)
  = (mkState self [] (out ++ [prompt]), Throw EOFError).
Proof. reflexivity. Qed.

(** Runs [get_user_input] through its prompts, line by line. *)
Ltac read_lines :=
  unfold get_user_input, io_bind, print, except_ValueError;
  cbn [st_self st_stdin st_stdout];
  repeat (first
    [ rewrite read_field_accepted by assumption
    | rewrite read_field_rejected by assumption
    | rewrite read_field_end_of_input ];
    cbn [st_self st_stdin st_stdout]).

(** X20: when the five answers are each blank or read by float,
    get_user_input stores the non-blank ones in the order rarity, quality,
    level, luck, immo number, leaves the field of a blank answer as it was,
    and returns True unless all five are blank (then it says so and returns
    False). *)
Theorem get_user_input_stores_accepted_lines
    (self : ZodiacCalculator) (lines rest out : list string) :
  List.length lines = 5%nat ->
  Forall (accepted strip float_of_string) lines ->
  get_user_input strip float_of_string (mkState self (lines ++ rest) out)
  = (mkState (answers strip float_of_string stores lines self) rest
       (out ++ banner ++ prompts
        ++ (if forallb (blank strip) lines
            then ["No inputs provided. Please provide at least one value to perform calculations."%string]
            else [])),
     Return (negb (forallb (blank strip) lines))).
Proof.
  intros Hlen Hall.
  destruct lines as [| s1 [| s2 [| s3 [| s4 [| s5 [| ? ?]]]]]];
    try discriminate.
  inversion Hall as [| ? ? H1 Hall1]; subst.
  inversion Hall1 as [| ? ? H2 Hall2]; subst.
  inversion Hall2 as [| ? ? H3 Hall3]; subst.
  inversion Hall3 as [| ? ? H4 Hall4]; subst.
  inversion Hall4 as [| ? ? H5 _]; subst.
  cbn [app]. read_lines.
  cbn [answers stores forallb].
  unfold banner, prompts.
  destruct (blank strip s1), (blank strip s2), (blank strip s3),
    (blank strip s4), (blank strip s5);
    cbn [Nat.eqb Nat.add andb negb io_ret st_self st_stdin st_stdout];
    rewrite <- ?app_assoc; reflexivity.
Qed.

(** X21: at the first answer that float cannot read, get_user_input prints
    the error and returns False; the answers before it are already stored,
    the later prompts are not shown and the later lines are not read. *)
Theorem get_user_input_rejects_at_first_bad_line
    (self : ZodiacCalculator) (pre : list string) (bad : string)
    (post out : list string) :
  (List.length pre < 5)%nat ->
  Forall (accepted strip float_of_string) pre ->
  nonempty (strip bad) = true -> float_of_string (strip bad) = None ->
  get_user_input strip float_of_string
    (mkState self (pre ++ bad :: post) out)
  = (mkState (answers strip float_of_string stores pre self) post
       (out ++ banner ++ firstn (S (List.length pre)) prompts
        ++ ["Error: Please enter valid numbers."%string]),
     Return false).
Proof.
  intros Hlen Hall Hne Hbad.
  destruct pre as [| s1 [| s2 [| s3 [| s4 [| s5 ?]]]]];
    cbn [List.length] in Hlen; try lia;
    repeat match goal with
    | H : Forall _ (_ :: _) |- _ => inversion H; subst; clear H
    end;
    cbn [app]; read_lines;
    cbn [answers stores firstn List.length io_ret st_self st_stdin st_stdout];
    unfold banner, prompts; cbn [firstn];
    rewrite <- ?app_assoc; reflexivity.
Qed.

(** X22: when the input ends before the fifth answer, the EOFError of
    input is not caught by get_user_input; the answers read so far are
    stored. *)
Theorem get_user_input_end_of_input
    (self : ZodiacCalculator) (lines out : list string) :
  (List.length lines < 5)%nat ->
  Forall (accepted strip float_of_string) lines ->
  get_user_input strip float_of_string (mkState self lines out)
  = (mkState (answers strip float_of_string stores lines self) []
       (out ++ banner ++ firstn (S (List.length lines)) prompts),
     Throw EOFError).
Proof.
  intros Hlen Hall.
  destruct lines as [| s1 [| s2 [| s3 [| s4 [| s5 ?]]]]];
    cbn [List.length] in Hlen; try lia;
    repeat match goal with
    | H : Forall _ (_ :: _) |- _ => inversion H; subst; clear H
    end;
    read_lines;
    cbn [answers stores firstn List.length io_ret st_self st_stdin st_stdout];
    unfold banner, prompts; cbn [firstn];
    rewrite <- ?app_assoc; reflexivity.
Qed.

End Reading.

Lemma get_user_input_stores_accepted_lines_witness :
  get_user_input (fun s => s) (fun _ => Some 7)
    (mkState init (["7"; ""; ""; ""; ""]%string ++ []) [])
  = (mkState (mkCalc (Some 7) None None None None) []
       ([] ++ banner ++ prompts ++ []),
     Return true).
Proof.
  assert (Hall : Forall (accepted (fun s => s) (fun _ => Some 7))
                   ["7"; ""; ""; ""; ""]%string).
  { repeat (apply Forall_cons; [intros _; discriminate |]). apply Forall_nil. }
  exact (get_user_input_stores_accepted_lines (fun s => s) (fun _ => Some 7)
           init ["7"; ""; ""; ""; ""]%string [] [] eq_refl Hall).
Defined.

Lemma get_user_input_rejects_at_first_bad_line_witness :
  get_user_input (fun s => s)
    (fun s => if String.eqb s "7" then Some 7 else None)
    (mkState init (["7"]%string ++ "x"%string :: ["3"]%string) [])
  = (mkState (mkCalc (Some 7) None None None None) ["3"%string]
       ([] ++ banner ++ firstn 2 prompts
        ++ ["Error: Please enter valid numbers."%string]),
     Return false).
Proof.
  assert (Hlen : (List.length ["7"%string] < 5)%nat) by (cbn; lia).
  assert (Hall : Forall (accepted (fun s => s)
                           (fun s => if String.eqb s "7" then Some 7 else None))
                   ["7"%string]).
  { apply Forall_cons; [intros _; discriminate | apply Forall_nil]. }
  exact (get_user_input_rejects_at_first_bad_line (fun s => s)
           (fun s => if String.eqb s "7" then Some 7 else None)
           init ["7"%string] "x" ["3"%string] [] Hlen Hall eq_refl eq_refl).
Defined.

Lemma get_user_input_end_of_input_witness :
  get_user_input (fun s => s) (fun _ => Some 7)
    (mkState init ["7"%string] [])
  = (mkState (mkCalc (Some 7) None None None None) []
       ([] ++ banner ++ firstn 2 prompts),
     Throw EOFError).
Proof.
  assert (Hlen : (List.length ["7"%string] < 5)%nat) by (cbn; lia).
  assert (Hall : Forall (accepted (fun s => s) (fun _ => Some 7))
                   ["7"%string]).
  { apply Forall_cons; [intros _; discriminate | apply Forall_nil]. }
  exact (get_user_input_end_of_input (fun s => s) (fun _ => Some 7)
           init ["7"%string] [] Hlen Hall).
Defined.
